(** * UPA dashboards: parser, cache store, HTTP fetch and coordinator

    A shallow embedding of [core/parser.py], [core/storage.py],
    [core/scraper.py] ([fetch_html_requests], [fetch_html], the rendered
    path), [app.py] ([_flatten_row], [_fetch_one], [load_all_upas]) and
    [debug_scrape.py] ([slug]), followed by the properties established
    about them.

    Conventions.
    - A Python [str] is a list of code points ([text]); literals of the
      source are written [str "..."].
    - The functions of Python's Unicode database that the source reaches
      through [re], [str] and [unicodedata] are the fields of the class
      [UnicodeData]; [ascii_data] is the instance for ASCII text, used to
      run the definitions on concrete inputs.
    - A call that can raise returns a [result]; [Raise e] is the exception
      leaving the call.
    - Python values of no fixed type (what [json.load] returns, the cells
      of a row) are terms of [value].
    - Integers are unbounded and a [float] is the rational it stands for.
      Two limits of the interpreter that the data can reach are modelled:
      [int] refuses a text of more than 4300 digits, and an [int] too
      large for a [float] cannot be subtracted from one.  Memory and the
      time a call takes are not modelled.
    - The libraries behind the source ([bs4] with [lxml], [pandas],
      [requests], the browser) are parameters: any function, any server,
      any outcome of a call. *)

From Stdlib Require Import ZArith QArith List String Ascii Lia Permutation DecimalString.
From Stdlib Require Import Sorted.
From stdpp Require Import gmap list.
Import ListNotations.

#[local] Set Warnings "-register-all".
#[local] Open Scope Z_scope.

(* ===================================================================== *)
(** ** Text *)
(* ===================================================================== *)

Abbreviation text := (list N).

Definition str (s : string) : text := map N_of_ascii (list_ascii_of_string s).

(** The character tables of the Python runtime used by the source:
    [\d] of [re] ([isdecimal], with the digit's value for [int]), [\w]
    ([isalnum] or an underscore), [\s] and [str.strip] ([isspace]),
    [unicodedata.normalize("NFKD", _)], [unicodedata.combining],
    [str.upper] and [str.lower].  The three laws are facts of the Unicode
    database: a space and a colon are not decimal digits, and every decimal
    digit is alphanumeric. *)
Class UnicodeData := {
  isdecimal : N -> bool;
  digit_value : N -> N;
  isalnum : N -> bool;
  isspace : N -> bool;
  normalize_NFKD : text -> text;
  combining : N -> N;
  upper : text -> text;
  lower : text -> text;
  space_not_decimal : isdecimal 32 = false;
  colon_not_decimal : isdecimal 58 = false;
  decimal_isalnum : forall c, isdecimal c = true -> isalnum c = true
}.

Definition between (lo hi c : N) : bool := ((lo <=? c) && (c <=? hi))%N.

Definition ascii_upper_char (c : N) : N :=
  if between 97 122 c then (c - 32)%N else c.

Definition ascii_lower_char (c : N) : N :=
  if between 65 90 c then (c + 32)%N else c.

(** The tables restricted to ASCII text: there NFKD changes nothing and no
    character is combining. *)
#[export] Instance ascii_data : UnicodeData.
Proof.
  refine {|
    isdecimal := between 48 57;
    digit_value := fun c => (c - 48)%N;
    isalnum := fun c => between 48 57 c || between 65 90 c || between 97 122 c;
    isspace := fun c => between 9 13 c || between 28 32 c;
    normalize_NFKD := fun s => s;
    combining := fun _ => 0%N;
    upper := map ascii_upper_char;
    lower := map ascii_lower_char;
    space_not_decimal := eq_refl;
    colon_not_decimal := eq_refl;
    decimal_isalnum := _
  |}.
  intros c ->. reflexivity.
Defined.

Definition SPACE : N := 32.
Definition COLON : N := 58.
Definition SLASH : N := 47.
Definition UNDERSCORE : N := 95.

(** [p] is a prefix of [s]. *)
Fixpoint startswith (p s : text) : bool :=
  match p, s with
  | [], _ => true
  | _ :: _, [] => false
  | a :: p', b :: s' => (a =? b)%N && startswith p' s'
  end.

(** [needle in hay]. *)
Fixpoint str_in (needle hay : text) : bool :=
  startswith needle hay ||
  match hay with
  | [] => false
  | _ :: hay' => str_in needle hay'
  end.

(** [hay.find(needle)], counting from [i]: the index of the first
    occurrence, or -1. *)
Fixpoint find_from (i : Z) (needle hay : text) : Z :=
  if startswith needle hay then i
  else match hay with
       | [] => -1
       | _ :: hay' => find_from (i + 1) needle hay'
       end.

Definition find (hay needle : text) : Z := find_from 0 needle hay.

(** [s[lo:hi]] for [0 <= lo]. *)
Definition slice (s : text) (lo hi : Z) : text :=
  firstn (Z.to_nat (hi - lo)) (skipn (Z.to_nat lo) s).

(** [sep.join(parts)]. *)
Fixpoint join (sep : text) (parts : list text) : text :=
  match parts with
  | [] => []
  | [p] => p
  | p :: rest => p ++ sep ++ join sep rest
  end.

(** [len(s) > 0], the truth value of a [str]. *)
Definition nonempty (s : text) : bool :=
  match s with [] => false | _ :: _ => true end.

Fixpoint dropwhile (p : N -> bool) (s : text) : text :=
  match s with
  | [] => []
  | c :: s' => if p c then dropwhile p s' else s
  end.

Fixpoint takewhile (p : N -> bool) (s : text) : text :=
  match s with
  | [] => []
  | c :: s' => if p c then c :: takewhile p s' else []
  end.

(* ===================================================================== *)
(** ** Python values, exceptions, dictionaries *)
(* ===================================================================== *)

(** An exception: [type(e).__name__] and [str(e)]. *)
Record exn := Exn { exn_name : text; exn_str : text }.

Inductive result (A : Type) :=
| Ok (a : A)
| Raise (e : exn).
Arguments Ok {A} a.
Arguments Raise {A} e.

#[export] Instance result_ret : MRet result := fun A a => Ok a.
#[export] Instance result_bind : MBind result := fun A B f r =>
  match r with
  | Ok a => f a
  | Raise e => Raise e
  end.

#[export] Instance result_fmap : FMap result := fun A B f r =>
  match r with
  | Ok a => Ok (f a)
  | Raise e => Raise e
  end.

Definition raised {A} (r : result A) : bool :=
  match r with Ok _ => false | Raise _ => true end.

(** [None], [bool], [int], [float], [str], [list] and [dict] with [str]
    keys.  A [float] is the rational it stands for: rounding, NaN and the
    infinities are left out. *)
Inductive value :=
| VNone
| VBool (b : bool)
| VInt (z : Z)
| VFloat (q : Q)
| VStr (s : text)
| VList (l : list value)
| VDict (d : gmap text value).

Definition is_None (v : value) : bool :=
  match v with VNone => true | _ => false end.

(** The truth value of [v]: [bool(v)]. *)
Definition truthy (v : value) : bool :=
  match v with
  | VNone => false
  | VBool b => b
  | VInt z => negb (z =? 0)
  | VFloat q => negb (Qeq_bool q 0)
  | VStr s => nonempty s
  | VList l => match l with [] => false | _ => true end
  | VDict d => negb (bool_decide (size d = 0%nat))
  end.

(** [a or b]. *)
Definition value_or (a b : value) : value := if truthy a then a else b.

Definition of_int (o : option Z) : value :=
  match o with Some n => VInt n | None => VNone end.

Definition of_str (o : option text) : value :=
  match o with Some s => VStr s | None => VNone end.

(** [str(n)] for an [int]. *)
Definition repr_int (n : Z) : text := str (NilZero.string_of_int (Z.to_int n)).

(** [KeyError(k)] for a [str] key: [str(e)] is [repr(k)], the key between
    quotes (the keys of the source have no quote and no escape in them). *)
Definition KeyError (k : text) : exn := Exn (str "KeyError") (str "'" ++ k ++ str "'").
Definition TypeError (msg : text) : exn := Exn (str "TypeError") msg.
Definition AttributeError (msg : text) : exn := Exn (str "AttributeError") msg.
Definition ValueError (msg : text) : exn := Exn (str "ValueError") msg.
Definition OverflowError (msg : text) : exn := Exn (str "OverflowError") msg.

(** [d[k]]. *)
Definition getitem {V} (d : gmap text V) (k : text) : result V :=
  match d !! k with
  | Some v => Ok v
  | None => Raise (KeyError k)
  end.

(** [d.get(k)]. *)
Definition dict_get (d : gmap text value) (k : text) : value :=
  default VNone (d !! k).

(* ===================================================================== *)
(** ** core/parser.py: the text heuristics *)
(* ===================================================================== *)

Definition COLORS : list text :=
  [str "AZUL"; str "VERDE"; str "AMARELO"; str "LARANJA"; str "VERMELHO"].

(** [sys.get_int_max_str_digits()] of an interpreter started without
    options. *)
Definition INT_MAX_STR_DIGITS : nat := 4300.

(** What a left-to-right scan for a pattern leaves of a text: the
    characters it stepped over and the matches it found. *)
Inductive piece :=
| Keep (c : N)
| Hit (m : text).

(** The text a sequence of pieces was cut from. *)
Definition raw (ps : list piece) : text :=
  flat_map (fun p => match p with Keep c => [c] | Hit m => m end) ps.

(** [re.sub(pattern, repl, _)] once the scan for [pattern] is done. *)
Definition replace_hits (repl : text) (ps : list piece) : text :=
  flat_map (fun p => match p with Keep c => [c] | Hit _ => repl end) ps.

(** [re.findall(r"\b\d+\b", _)] runs through the text in one of three
    states: after a non-word character (or at the start), inside a run of
    digits that began at such a boundary, or inside a word that cannot
    match any more. *)
Inductive scan_state :=
| AtBoundary
| InDigits (tok : text)
| InWord.

Section Unicode.
Context `{UnicodeData}.

(** [\w] of [re] on [str] patterns. *)
Definition isword (c : N) : bool := isalnum c || (c =? UNDERSCORE)%N.

(** [s.strip()]. *)
Definition strip (s : text) : text :=
  rev (dropwhile isspace (rev (dropwhile isspace s))).

(** [re.sub(r"\s+", " ", s)]; [in_ws] tells that the run of whitespace the
    scan is in has been replaced already. *)
Fixpoint collapse_ws (in_ws : bool) (s : text) : text :=
  match s with
  | [] => []
  | c :: s' =>
      if isspace c
      then (if in_ws then collapse_ws true s' else SPACE :: collapse_ws true s')
      else c :: collapse_ws false s'
  end.

Definition _norm (s : text) : text :=
  if negb (nonempty s) then []
  else
    let s := normalize_NFKD s in
    let s := List.filter (fun ch => (combining ch =? 0)%N) s in
    let s := upper s in
    strip (collapse_ws false s).

(** [r"\d{2}:\d{2}:\d{2}"] matches at the head of [s]. *)
Definition hms_at (s : text) : bool :=
  match s with
  | a :: b :: c :: d :: e :: f :: g :: h :: _ =>
      isdecimal a && isdecimal b && (c =? COLON)%N &&
      isdecimal d && isdecimal e && (f =? COLON)%N &&
      isdecimal g && isdecimal h
  | _ => false
  end.

(** The scan of [re.sub(r"\d{2}:\d{2}:\d{2}", _, s)]: leftmost match
    first, and the search resumes after the match ([rest] is [s] without
    its first eight characters). *)
Fixpoint hms_scan (s : text) : list piece :=
  match s with
  | [] => []
  | c :: s' =>
      match s' with
      | _ :: _ :: _ :: _ :: _ :: _ :: _ :: rest =>
          if hms_at s then Hit (firstn 8 s) :: hms_scan rest
          else Keep c :: hms_scan s'
      | _ => Keep c :: hms_scan s'
      end
  end.

Definition re_sub_hms (repl s : text) : text := replace_hits repl (hms_scan s).

(** No word character follows: [\b] after a word character. *)
Definition word_ends (s : text) : bool :=
  match s with
  | [] => true
  | c :: _ => negb (isword c)
  end.

(** [re.search(r"\b(\d{2}:\d{2}:\d{2})\b", s)], group 1; [prev_word] tells
    whether the character before [s] is a word character. *)
Fixpoint search_hms (prev_word : bool) (s : text) : option text :=
  match s with
  | [] => None
  | c :: s' =>
      if negb prev_word && hms_at s && word_ends (skipn 8 s)
      then Some (firstn 8 s)
      else search_hms (isword c) s'
  end.

Definition _extract_time (s : text) : option text :=
  match search_hms false s with
  | Some m => Some m
  | None => if str_in (str "IMEDIATO") (_norm s) then Some (str "IMEDIATO") else None
  end.

(** [re.findall(r"\b\d+\b", s)] from the state [st] on.  A digit is a
    word character ([decimal_isalnum]), so a run of digits matches when a
    non-word character or an end of the text is on either side of it. *)
Fixpoint findall_ints (st : scan_state) (s : text) : list text :=
  match s with
  | [] => match st with InDigits tok => [tok] | _ => [] end
  | c :: s' =>
      match st with
      | AtBoundary =>
          if isdecimal c then findall_ints (InDigits [c]) s'
          else findall_ints (if isword c then InWord else AtBoundary) s'
      | InDigits tok =>
          if isdecimal c then findall_ints (InDigits (tok ++ [c])) s'
          else if isword c then findall_ints InWord s'
          else tok :: findall_ints AtBoundary s'
      | InWord => findall_ints (if isword c then InWord else AtBoundary) s'
      end
  end.

(** The number a token of decimal digits writes. *)
Definition int_value (n : text) : Z :=
  fold_left (fun acc c => 10 * acc + Z.of_N (digit_value c)) n 0.

(** [int(n)] for a token of decimal digits.  The interpreter converts at
    most [sys.get_int_max_str_digits()] digits, 4300 unless it is
    configured otherwise, and raises [ValueError] for a longer token. *)
Definition int (n : text) : result Z :=
  if (INT_MAX_STR_DIGITS <? length n)%nat
  then Raise (ValueError
                (str "Exceeds the limit (4300 digits) for integer string conversion: value has "
                   ++ repr_int (Z.of_nat (length n))
                   ++ str " digits; use sys.set_int_max_str_digits() to increase the limit"))
  else Ok (int_value n).

(** [tuple(int(n) for n in nums)]: the first token [int] refuses ends the
    conversion. *)
Fixpoint ints (nums : list text) : result (list Z) :=
  match nums with
  | [] => Ok []
  | n :: nums' => z ← int n; zs ← ints nums'; Ok (z :: zs)
  end.

Definition _extract_int_candidates (s : text) : result (list Z) :=
  let text2 := re_sub_hms [SPACE] s in
  let nums := findall_ints AtBoundary text2 in
  ints nums.

Definition YEARS : list Z := [2020; 2021; 2022; 2023; 2024; 2025; 2026].

Definition plausible (n : Z) : bool :=
  (0 <=? n) && (n <=? 9999) && negb (existsb (Z.eqb n) YEARS).

(** The loop of [_pick_patient_count] that fills [all_candidates]. *)
Fixpoint all_candidates (texts : list text) : result (list Z) :=
  match texts with
  | [] => Ok []
  | t :: texts' =>
      cs ← (if nonempty t then _extract_int_candidates t else Ok []);
      rest ← all_candidates texts';
      Ok (cs ++ rest)
  end.

(** The variadic [texts] of the source is the list [texts]. *)
Definition _pick_patient_count (texts : list text) : result (option Z) :=
  all_candidates ← all_candidates texts;
  let filtered := List.filter plausible all_candidates in
  Ok (head filtered).

End Unicode.

(* ===================================================================== *)
(** ** core/parser.py: the dashboard parser *)
(* ===================================================================== *)

(** The tree [BeautifulSoup(html, "lxml")] builds: strings and tags with
    their attributes and contents. *)
Inductive PageElement :=
| NavigableString (s : text)
| Tag (name : text) (attrs : gmap text text) (contents : list PageElement).

(** The strings below [e], in document order. *)
Fixpoint strings (e : PageElement) : list text :=
  match e with
  | NavigableString s => [s]
  | Tag _ _ cs => flat_map strings cs
  end.

(** Everything below [e], in document order. *)
Fixpoint descendants (e : PageElement) : list PageElement :=
  match e with
  | NavigableString _ => []
  | Tag _ _ cs => flat_map (fun c => c :: descendants c) cs
  end.

(** [el.get(name)], for a tag. *)
Definition get_attr (el : PageElement) (name : text) : option text :=
  match el with
  | NavigableString _ => None
  | Tag _ attrs _ => attrs !! name
  end.

(** [soup.select("[aria-label]")]. *)
Definition select_aria_label (soup : PageElement) : list PageElement :=
  List.filter (fun el => bool_decide (is_Some (get_attr el (str "aria-label"))))
    (descendants soup).

(** The dictionary [parse_upa_dashboard] returns; its five keys are fixed
    by the literal that creates it, [classificacoes] is the dictionary of
    dictionaries the loops read and write. *)
Record Metrics := {
  updated_at : option text;
  pacientes_unidade : option Z;
  pacientes_regulacao : option Z;
  pacientes_at_medico : option Z;
  classificacoes : gmap text (gmap text value)
}.

Definition set_pacientes_unidade (v : option Z) (out : Metrics) : Metrics :=
  {| updated_at := updated_at out; pacientes_unidade := v;
     pacientes_regulacao := pacientes_regulacao out;
     pacientes_at_medico := pacientes_at_medico out;
     classificacoes := classificacoes out |}.

Definition set_pacientes_regulacao (v : option Z) (out : Metrics) : Metrics :=
  {| updated_at := updated_at out; pacientes_unidade := pacientes_unidade out;
     pacientes_regulacao := v;
     pacientes_at_medico := pacientes_at_medico out;
     classificacoes := classificacoes out |}.

Definition set_pacientes_at_medico (v : option Z) (out : Metrics) : Metrics :=
  {| updated_at := updated_at out; pacientes_unidade := pacientes_unidade out;
     pacientes_regulacao := pacientes_regulacao out;
     pacientes_at_medico := v;
     classificacoes := classificacoes out |}.

Definition set_classificacoes (m : gmap text (gmap text value)) (out : Metrics) : Metrics :=
  {| updated_at := updated_at out; pacientes_unidade := pacientes_unidade out;
     pacientes_regulacao := pacientes_regulacao out;
     pacientes_at_medico := pacientes_at_medico out;
     classificacoes := m |}.

(** [{"pacientes": None, "tempo_medio": None}]. *)
Definition empty_slot : gmap text value :=
  <[str "tempo_medio" := VNone]> (<[str "pacientes" := VNone]> ∅).

(** [a or b] on the results of [_extract_time]. *)
Definition time_or (a b : option text) : option text :=
  match a with
  | Some s => if nonempty s then a else b
  | None => b
  end.

Section Parser.
Context `{UnicodeData}.

(** [el.get_text(sep, strip=True)]. *)
Definition get_text (sep : text) (el : PageElement) : text :=
  join sep (List.filter nonempty (map strip (strings el))).

(** [r"\d{2}/\d{2}/\d{4}"] matches at the head of [s]. *)
Definition date_at (s : text) : bool :=
  match s with
  | a :: b :: c :: d :: e :: f :: g :: h :: i :: j :: _ =>
      isdecimal a && isdecimal b && (c =? SLASH)%N &&
      isdecimal d && isdecimal e && (f =? SLASH)%N &&
      isdecimal g && isdecimal h && isdecimal i && isdecimal j
  | _ => false
  end.

(** [r"(\d{2}/\d{2}/\d{4}\s+\d{2}:\d{2}:\d{2})"] at the head of [s].  A
    digit has to follow each [\s+], so the run of whitespace is taken
    whole. *)
Definition stamp_at (s : text) : option text :=
  if date_at s then
    let r := skipn 10 s in
    let ws := takewhile isspace r in
    let r' := dropwhile isspace r in
    if nonempty ws && hms_at r' then Some (firstn 10 s ++ ws ++ firstn 8 r')
    else None
  else None.

Definition updated_at_here (s : text) : option text :=
  if startswith (str "ATUALIZADO EM") s then
    let r := skipn 13 s in
    if nonempty (takewhile isspace r) then stamp_at (dropwhile isspace r)
    else None
  else None.

(** [re.search(r"ATUALIZADO EM\s+(...)", s)], group 1. *)
Fixpoint search_updated_at (s : text) : option text :=
  match updated_at_here s with
  | Some m => Some m
  | None => match s with
            | [] => None
            | _ :: s' => search_updated_at s'
            end
  end.

Definition _extract_updated_at (soup : PageElement) : option text :=
  let text := get_text [SPACE] soup in
  search_updated_at (_norm text).

Definition _iter_aria_nodes (soup : PageElement) : list (PageElement * text) :=
  flat_map
    (fun el =>
       let aria := strip (default [] (get_attr el (str "aria-label"))) in
       if nonempty aria then [(el, aria)] else [])
    (select_aria_label soup).

(** The first colour of [COLORS] found in the label or in the text. *)
Definition find_color (aria el_text_norm : text) : option text :=
  List.find (fun c => str_in c aria || str_in c el_text_norm) COLORS.

(** [prev.get(k) is None]. *)
Definition unset (prev : gmap text value) (k : text) : bool :=
  is_None (dict_get prev k).

(** The body of the loop over the labelled nodes. *)
Definition visit (out : Metrics) (node : PageElement * text) : result Metrics :=
  let '(el, aria_raw) := node in
  let aria := _norm aria_raw in
  let el_text := get_text [SPACE] el in
  let el_text_norm := _norm el_text in
  let has := fun k : string => str_in (str k) aria || str_in (str k) el_text_norm in
  if has "PACIENTES NA UNIDADE"%string then
    n ← _pick_patient_count [aria_raw; el_text];
    Ok (set_pacientes_unidade n out)
  else if has "AGUARDANDO REGULACAO"%string then
    n ← _pick_patient_count [aria_raw; el_text];
    Ok (set_pacientes_regulacao n out)
  else if has "ATENDIMENTO"%string && has "MEDICO"%string &&
          (has "PACIENT"%string || has "AGUARD"%string) then
    n ← _pick_patient_count [aria_raw; el_text];
    Ok (set_pacientes_at_medico n out)
  else
    match find_color aria el_text_norm with
    | None => Ok out
    | Some color =>
        let gate := has "CLASSIF"%string || has "RISCO"%string ||
                    has "TEMPO"%string || has "PACIENT"%string in
        if negb gate then Ok out
        else
          let tempo :=
            time_or (_extract_time aria_raw)
              (time_or (_extract_time el_text)
                 (time_or (_extract_time aria) (_extract_time el_text_norm))) in
          pacientes ← _pick_patient_count [aria_raw; el_text];
          let prev := default ∅ (classificacoes out !! color) in
          let prev := if bool_decide (size prev = 0%nat) then ∅ else prev in
          let prev :=
            match pacientes with
            | Some n => if unset prev (str "pacientes")
                        then <[str "pacientes" := VInt n]> prev else prev
            | None => prev
            end in
          let prev :=
            match tempo with
            | Some t => if unset prev (str "tempo_medio")
                        then <[str "tempo_medio" := VStr t]> prev else prev
            | None => prev
            end in
          Ok (set_classificacoes (<[color := prev]> (classificacoes out)) out)
    end.

(** The body of the loop of the fallback pass, for the colour [c]. *)
Definition fallback (big_text big_norm : text) (out : Metrics) (c : text)
  : result Metrics :=
  slot ← getitem (classificacoes out) c;
  p ← getitem slot (str "pacientes");
  if is_None p then
    let idx := find big_norm c in
    if idx =? -1 then Ok out
    else
      let window := slice big_text (Z.max 0 (idx - 120)) (idx + 220) in
      let window_norm := _norm window in
      if str_in (str "CLASSIF") window_norm || str_in (str "RISCO") window_norm ||
         str_in (str "TEMPO") window_norm
      then
        n ← _pick_patient_count [window];
        let slot := <[str "pacientes" := of_int n]> slot in
        t ← getitem slot (str "tempo_medio");
        let slot := <[str "tempo_medio" := value_or t (of_str (_extract_time window))]> slot in
        Ok (set_classificacoes (<[c := slot]> (classificacoes out)) out)
      else Ok out
  else Ok out.

(** [for c in cs: out = body(out, c)], stopping at the first exception. *)
Fixpoint for_each {A S} (body : S -> A -> result S) (cs : list A) (out : S) : result S :=
  match cs with
  | [] => Ok out
  | c :: cs' => out' ← body out c; for_each body cs' out'
  end.

(** [parse_upa_dashboard] from the tree on. *)
Definition parse_soup (soup : PageElement) : result Metrics :=
  let out := {|
    updated_at := _extract_updated_at soup;
    pacientes_unidade := None;
    pacientes_regulacao := None;
    pacientes_at_medico := None;
    classificacoes := list_to_map (map (fun c => (c, empty_slot)) COLORS)
  |} in
  out ← for_each visit (_iter_aria_nodes soup) out;
  let big_text := get_text [SPACE] soup in
  let big_norm := _norm big_text in
  for_each (fallback big_text big_norm) COLORS out.

(** [BeautifulSoup(_, "lxml")], the HTML parser of the libraries [bs4] and
    [lxml]: any function from markup to trees that may raise (it raises
    [UnicodeEncodeError] for a [str] with a lone surrogate, which [lxml]
    cannot encode). *)
Variable BeautifulSoup : text -> result PageElement.

Definition parse_upa_dashboard (html : text) : result Metrics :=
  soup ← BeautifulSoup html;
  parse_soup soup.

End Parser.

(** A slot of [classificacoes] has both of its keys. *)
Definition slot_complete (slot : gmap text value) : Prop :=
  is_Some (slot !! str "pacientes") /\ is_Some (slot !! str "tempo_medio").

(** Every colour has a slot, and the slot has both keys. *)
Definition fully_shaped (m : gmap text (gmap text value)) : Prop :=
  Forall (fun c => exists slot, m !! c = Some slot /\ slot_complete slot) COLORS.

(* ===================================================================== *)
(** ** core/storage.py *)
(* ===================================================================== *)

(** The cache file as [load_cache] finds it: absent, present with content
    that [open] or [json.load] rejects, or present with the document
    [json.load] returns.  [json.dump] followed by [json.load] gives back
    the value written. *)
Inductive file :=
| Missing
| Unreadable
| Holds (doc : value).

Definition type_name (v : value) : text :=
  match v with
  | VNone => str "NoneType"
  | VBool _ => str "bool"
  | VInt _ => str "int"
  | VFloat _ => str "float"
  | VStr _ => str "str"
  | VList _ => str "list"
  | VDict _ => str "dict"
  end.

(** [int], [float] and [bool]: the values a [float] can be subtracted
    from. *)
Definition is_number (v : value) : bool :=
  match v with
  | VInt _ | VFloat _ | VBool _ => true
  | _ => false
  end.

(** [obj.get(k, dflt)]: only a [dict] has the method. *)
Definition py_get (obj : value) (k : text) (dflt : value) : result value :=
  match obj with
  | VDict d => Ok (default dflt (d !! k))
  | _ => Raise (AttributeError
                  (str "'" ++ type_name obj ++ str "' object has no attribute 'get'"))
  end.

(** [obj[k] = v] for a [str] key [k]. *)
Definition py_setitem (obj : value) (k : text) (v : value) : result value :=
  match obj with
  | VDict d => Ok (VDict (<[k := v]> d))
  | VList _ => Raise (TypeError (str "list indices must be integers or slices, not str"))
  | _ => Raise (TypeError
                  (str "'" ++ type_name obj ++ str "' object does not support item assignment"))
  end.

(** An [int] is converted to a [float] before it meets one; the
    conversion raises [OverflowError] when the [int] rounds to no finite
    [float], that is from [2 ** 1024 - 2 ** 970] on in absolute value. *)
Definition FLOAT_INT_BOUND : Z := 2 ^ 1024 - 2 ^ 970.

(** [now - ts] for the [float] [now]. *)
Definition float_sub (now : Q) (ts : value) : result Q :=
  match ts with
  | VInt z =>
      if Z.abs z <? FLOAT_INT_BOUND then Ok (now - inject_Z z)%Q
      else Raise (OverflowError (str "int too large to convert to float"))
  | VFloat q => Ok (now - q)%Q
  | VBool b => Ok (now - (if b then 1 else 0))%Q
  | _ => Raise (TypeError
                  (str "unsupported operand type(s) for -: 'float' and '"
                     ++ type_name ts ++ str "'"))
  end.

Definition load_cache (fs : file) : value :=
  match fs with
  | Missing => VDict ∅
  | Unreadable => VDict ∅
  | Holds doc => doc
  end.

(** [save_cache(cache)], for a write that succeeds: the directory can be
    made, the file opened, and [json.dump] can write every text of [cache]
    (a text with a lone surrogate cannot be encoded, and the file would be
    left cut short; the texts the program stores have none). *)
Definition save_cache (cache : value) : file := Holds cache.

(** [{"_ts": _now(), "data": data}]. *)
Definition entry (now : Q) (data : value) : value :=
  VDict (<[str "data" := data]> (<[str "_ts" := VFloat now]> ∅)).

(** [get_cached(url, ttl_seconds)] on the file [fs] when [_now()] reads
    [now]; [Ok VNone] is the [None] of a miss. *)
Definition get_cached (fs : file) (now : Q) (url : text) (ttl_seconds : Z)
  : result value :=
  let cache := load_cache fs in
  item ← py_get cache url VNone;
  if negb (truthy item) then Ok VNone
  else
    ts ← py_get item (str "_ts") (VInt 0);
    age ← float_sub now ts;
    if negb (Qle_bool age (inject_Z ttl_seconds)) then Ok VNone
    else py_get item (str "data") VNone.

(** [set_cached(url, data)] on the file [fs] when [_now()] reads [now]:
    the file it leaves. *)
Definition set_cached (fs : file) (now : Q) (url : text) (data : value)
  : result file :=
  let cache := load_cache fs in
  cache ← py_setitem cache url (entry now data);
  Ok (save_cache cache).

(** *** Callers of [set_cached] running at once

    [app.py] calls [_fetch_one], hence [set_cached], from the threads of a
    pool.  A call has two steps that touch the file, [load_cache] and
    [save_cache]; each is taken as atomic, and any other thread may run
    between them. *)
Inductive writer :=
| Ready (now : Q) (url : text) (data : value)
| Loaded (cache : value)
| Finished
| Failed (e : exn).

(** One step of a writer on the shared file. *)
Definition writer_step (fs : file) (w : writer) : file * writer :=
  match w with
  | Ready now url data =>
      match py_setitem (load_cache fs) url (entry now data) with
      | Ok cache => (fs, Loaded cache)
      | Raise e => (fs, Failed e)
      end
  | Loaded cache => (save_cache cache, Finished)
  | Finished => (fs, Finished)
  | Failed e => (fs, Failed e)
  end.

(** The writers run under a schedule: the list of the writers' indices in
    the order in which they take their steps. *)
Fixpoint run (schedule : list nat) (fs : file) (ws : list writer) : file * list writer :=
  match schedule with
  | [] => (fs, ws)
  | i :: schedule' =>
      match ws !! i with
      | Some w =>
          let '(fs', w') := writer_step fs w in
          run schedule' fs' (<[i := w']> ws)
      | None => run schedule' fs ws
      end
  end.

(* ===================================================================== *)
(** ** core/scraper.py: [fetch_html_requests] *)
(* ===================================================================== *)

Record FetchResult := {
  url : text;
  status_code : Z;
  html : text;
  via : text;
  iframe_url : option text
}.

(** What the loop reads of a [requests.Response]. *)
Record Response := {
  resp_status : Z;
  resp_reason : text;
  resp_url : text;
  resp_text : text
}.

(** [_SESSION.get(...)] returns a response or raises. *)
Inductive reply :=
| Replies (resp : Response)
| Fails (e : exn).

Inductive event :=
| Sleep (seconds : Q)
| Get (attempt : Z).

(** [resp.raise_for_status()] of [requests]: the exception raised, if any. *)
Definition raise_for_status (resp : Response) : option exn :=
  let s := resp_status resp in
  if (400 <=? s) && (s <? 500) then
    Some (Exn (str "HTTPError")
            (repr_int s ++ str " Client Error: " ++ resp_reason resp
               ++ str " for url: " ++ resp_url resp))
  else if (500 <=? s) && (s <? 600) then
    Some (Exn (str "HTTPError")
            (repr_int s ++ str " Server Error: " ++ resp_reason resp
               ++ str " for url: " ++ resp_url resp))
  else None.

Definition RETRYABLE : list Z := [429; 503; 502; 504].

(** The message of the [RuntimeError] raised after the loop. *)
Definition failure_message (target : text) (last_status : Z) (last_exc : option exn) : text :=
  let msg := str "[scraper] Falha ao baixar " ++ target ++ str " (status="
               ++ repr_int last_status ++ str ")" in
  match last_exc with
  | Some e => msg ++ str " | erro=" ++ exn_name e ++ str ": " ++ exn_str e
  | None => msg
  end.

Section Requests.

(** The network: what [_SESSION.get] does at each attempt, and what
    [random.random()] returns there, a number from 0 up to 1. *)
Variable server : Z -> reply.
Variable jitter : Z -> Q.

(** Wherever the program calls the function, [backoff_base] is the
    default 0.8 and [retries] is 2 or 3, so the pauses are a few seconds
    long: [time.sleep], which refuses a negative pause and one longer than
    the platform can wait, is taken to return. *)
Variable target : text.
Variable backoff_base : Q.

(** [n] more rounds of [for attempt in range(1, retries + 1)], the next
    one being [attempt]; [log] records the sleeps and the requests. *)
Fixpoint attempts (n : nat) (attempt : Z) (last_status : Z) (last_exc : option exn)
    (log : list event) : result FetchResult * list event :=
  match n with
  | O => (Raise (Exn (str "RuntimeError") (failure_message target last_status last_exc)), log)
  | S n' =>
      let log :=
        if 1 <? attempt
        then log ++ [Sleep (backoff_base * inject_Z (2 ^ (attempt - 1))
                              + jitter attempt * (2 # 10))%Q]
        else log in
      let log := log ++ [Get attempt] in
      match server attempt with
      | Fails e => attempts n' (attempt + 1) last_status (Some e) log
      | Replies resp =>
          let last_status := resp_status resp in
          if existsb (Z.eqb (resp_status resp)) RETRYABLE
          then attempts n' (attempt + 1) last_status last_exc log
          else
            match raise_for_status resp with
            | Some e => attempts n' (attempt + 1) last_status (Some e) log
            | None =>
                (Ok {| url := target; status_code := resp_status resp;
                       html := resp_text resp; via := str "requests";
                       iframe_url := None |}, log)
            end
      end
  end.

Definition fetch_html_requests (retries : Z) : result FetchResult * list event :=
  attempts (Z.to_nat retries) 1 0 None [].

End Requests.

(** The attempts at which a request was sent, in order. *)
Definition gets (log : list event) : list Z :=
  flat_map (fun ev => match ev with Get a => [a] | Sleep _ => [] end) log.

(** The replies after which the loop goes on to the next attempt: a
    request that raised, a response with a status of [RETRYABLE], and a
    response with any status for which [raise_for_status] raises. *)
Definition retried (r : reply) : bool :=
  match r with
  | Fails _ => true
  | Replies resp =>
      existsb (Z.eqb (resp_status resp)) RETRYABLE ||
      ((400 <=? resp_status resp) && (resp_status resp <? 600))
  end.

(** The exception an attempt leaves in [last_exc], if any. *)
Definition attempt_exc (r : reply) : option exn :=
  match r with
  | Fails e => Some e
  | Replies resp =>
      if existsb (Z.eqb (resp_status resp)) RETRYABLE then None
      else raise_for_status resp
  end.

(** The status of the last response among the attempts 1 to [k], 0 when
    there was none. *)
Fixpoint last_status_of (server : Z -> reply) (k : nat) : Z :=
  match k with
  | O => 0
  | S k' =>
      match server (Z.of_nat k) with
      | Replies resp => resp_status resp
      | Fails _ => last_status_of server k'
      end
  end.

(** The last exception raised among the attempts 1 to [k]. *)
Fixpoint last_exc_of (server : Z -> reply) (k : nat) : option exn :=
  match k with
  | O => None
  | S k' =>
      match attempt_exc (server (Z.of_nat k)) with
      | Some e => Some e
      | None => last_exc_of server k'
      end
  end.

(** The attempts [k + 1], ..., [k + n]. *)
Definition attempts_from (k n : nat) : list Z := map Z.of_nat (seq (S k) n).

(* ===================================================================== *)
(** ** app.py *)
(* ===================================================================== *)

(** A row: a [dict] whose keys keep the order in which they were set. *)
Abbreviation Row := (list (text * value)).

Definition row_get (r : Row) (k : text) : option value :=
  snd <$> List.find (fun kv => bool_decide (fst kv = k)) r.

(** [row[k] = v]: the value of an existing key is replaced where it is, a
    new key goes to the end. *)
Fixpoint row_set (r : Row) (k : text) (v : value) : Row :=
  match r with
  | [] => [(k, v)]
  | (k', v') :: r' =>
      if bool_decide (k' = k) then (k, v) :: r' else (k', v') :: row_set r' k v
  end.

(** What the three calls made by one run of [_fetch_one] did:
    [get_cached(url, ttl_seconds=ttl)], [fetch_html(url)] and
    [set_cached(url, parsed)]. *)
Record calls := {
  cached_call : result value;
  fetch_call : result FetchResult;
  store_call : result unit
}.

(** A [DataFrame]: its columns and its rows; a row without a key of
    [columns] has a missing value (NaN) in that column. *)
Record DataFrame := {
  columns : list text;
  records : list Row
}.

Definition METRIC_COLUMNS : list text :=
  [str "updated_at"; str "pacientes_unidade"; str "pacientes_regulacao";
   str "pacientes_at_medico";
   str "azul_pacientes"; str "azul_tempo_medio";
   str "verde_pacientes"; str "verde_tempo_medio";
   str "amarelo_pacientes"; str "amarelo_tempo_medio";
   str "laranja_pacientes"; str "laranja_tempo_medio";
   str "vermelho_pacientes"; str "vermelho_tempo_medio"].

Definition MAIN_COLUMNS : list text :=
  [str "upa"; str "updated_at"; str "pacientes_unidade";
   str "pacientes_regulacao"; str "pacientes_at_medico"].

(** The row built in the [except] branch of [load_all_upas]. *)
Definition error_row (nome target : text) (e : exn) : Row :=
  [(str "upa", VStr nome); (str "url", VStr target)]
    ++ map (fun c => (c, VNone)) METRIC_COLUMNS
    ++ [(str "erro", VStr (exn_str e))].

(** [a <= b] on [str]: code point by code point. *)
Fixpoint text_leb (a b : text) : bool :=
  match a, b with
  | [], _ => true
  | _ :: _, [] => false
  | x :: a', y :: b' => (x <? y)%N || ((x =? y)%N && text_leb a' b')
  end.

(** The cell [sort_values("upa")] compares. *)
Definition upa_of (r : Row) : text :=
  match row_get r (str "upa") with
  | Some (VStr s) => s
  | _ => []
  end.

(** A stable sort by [upa]: a row goes in front of the rows after it that
    are not smaller. *)
Fixpoint insert_row (r : Row) (sorted : list Row) : list Row :=
  match sorted with
  | [] => [r]
  | x :: rest =>
      if text_leb (upa_of r) (upa_of x) then r :: x :: rest
      else x :: insert_row r rest
  end.

Definition sort_values_upa (rows : list Row) : list Row :=
  fold_right insert_row [] rows.

(** The columns of [pd.DataFrame(rows)]: the keys of the rows, each at its
    first appearance. *)
Definition frame_columns (rows : list Row) : list text :=
  fold_left
    (fun cols r =>
       cols ++ List.filter (fun k => negb (bool_decide (k ∈ cols))) (map fst r))
    rows [].

Section Coordinator.
Context `{UnicodeData}.
Variable BeautifulSoup : text -> result PageElement.

(** The [KeyError] of [pandas] for [df[labels]] when a label is not among
    the [columns] of the frame; its text is built by the library. *)
Variable not_in_columns : forall labels columns : list text, exn.

(** The [dict] that [parse_upa_dashboard] returns, as a value. *)
Definition metrics_value (m : Metrics) : value :=
  VDict (<[str "classificacoes" := VDict (VDict <$> classificacoes m)]>
        (<[str "pacientes_at_medico" := of_int (pacientes_at_medico m)]>
        (<[str "pacientes_regulacao" := of_int (pacientes_regulacao m)]>
        (<[str "pacientes_unidade" := of_int (pacientes_unidade m)]>
        (<[str "updated_at" := of_str (updated_at m)]> ∅))))).

(** The body of the loop over the colours in [_flatten_row]. *)
Fixpoint fill_colors (classifs : value) (cores : list text) (row : Row) : result Row :=
  match cores with
  | [] => Ok row
  | cor :: cores' =>
      info ← py_get classifs cor (VDict ∅);
      let info := value_or info (VDict ∅) in
      p ← py_get info (str "pacientes") VNone;
      let row := row_set row (lower cor ++ str "_pacientes") p in
      t ← py_get info (str "tempo_medio") VNone;
      let row := row_set row (lower cor ++ str "_tempo_medio") t in
      fill_colors classifs cores' row
  end.

Definition _flatten_row (upa_nome target : text) (data : value) : result Row :=
  updated ← py_get data (str "updated_at") VNone;
  unidade ← py_get data (str "pacientes_unidade") VNone;
  regulacao ← py_get data (str "pacientes_regulacao") VNone;
  medico ← py_get data (str "pacientes_at_medico") VNone;
  let row := [(str "upa", VStr upa_nome); (str "url", VStr target);
              (str "updated_at", updated); (str "pacientes_unidade", unidade);
              (str "pacientes_regulacao", regulacao);
              (str "pacientes_at_medico", medico)] in
  classifs ← py_get data (str "classificacoes") (VDict ∅);
  let classifs := value_or classifs (VDict ∅) in
  fill_colors classifs
    [str "AZUL"; str "VERDE"; str "AMARELO"; str "LARANJA"; str "VERMELHO"] row.

(** [_fetch_one(upa_nome, url, ttl)], given what its calls to the cache
    and to the fetcher did. *)
Definition _fetch_one (io : calls) (upa_nome target : text) : result Row :=
  cached ← cached_call io;
  if truthy cached then _flatten_row upa_nome target cached
  else
    res ← fetch_call io;
    parsed ← parse_upa_dashboard BeautifulSoup (html res);
    _ ← store_call io;
    _flatten_row upa_nome target (metrics_value parsed).

(** The row a finished future adds to [rows]. *)
Definition row_of (fut : text * text * calls) : Row :=
  let '(nome, target, io) := fut in
  match _fetch_one io nome target with
  | Ok row => row
  | Raise e => error_row nome target e
  end.

(** [load_all_upas], from the futures in the order in which
    [as_completed] yields them. *)
Definition load_all_upas (completed : list (text * text * calls)) : result DataFrame :=
  let rows := map row_of completed in
  let cols := frame_columns rows in
  let main := MAIN_COLUMNS in
  let rest := List.filter (fun c => negb (bool_decide (c ∈ main))) cols in
  match List.find (fun c => negb (bool_decide (c ∈ cols))) main with
  | Some _ => Raise (not_in_columns (main ++ rest) cols)
  | None => Ok {| columns := main ++ rest; records := sort_values_upa rows |}
  end.

End Coordinator.

(* ===================================================================== *)
(** ** Sample inputs *)
(* ===================================================================== *)

(** A page with two cards for the same metric, the second without a
    number, and the tree [lxml] builds for it. *)
Definition two_cards_html : text :=
  str "<div aria-label='Pacientes na Unidade: 12'>12</div><div aria-label='Pacientes na Unidade'></div>".

Definition card (label : text) (contents : list PageElement) : PageElement :=
  Tag (str "div") (<[str "aria-label" := label]> ∅) contents.

Definition page (body : list PageElement) : PageElement :=
  Tag (str "[document]") ∅ [Tag (str "html") ∅ [Tag (str "body") ∅ body]].

Definition two_cards_soup : PageElement :=
  page [card (str "Pacientes na Unidade: 12") [NavigableString (str "12")];
        card (str "Pacientes na Unidade") []].

(** A label with a number of 4301 digits. *)
Definition long_number : text := repeat 49%N 4301.

Definition long_number_html : text :=
  str "<div aria-label='Pacientes na Unidade: " ++ long_number ++ str "'></div>".

Definition long_number_soup : PageElement :=
  page [card (str "Pacientes na Unidade: " ++ long_number) []].

(** The same page without its second card. *)
Definition one_card_soup : PageElement :=
  page [card (str "Pacientes na Unidade: 12") [NavigableString (str "12")]].

(** Two futures, as [as_completed] may yield them: the worker for B found
    nothing in the cache and its fetch raised; the worker for A found a
    dictionary in the cache. *)
Definition failed_calls : calls :=
  {| cached_call := Ok VNone;
     fetch_call := Raise (Exn (str "RuntimeError") (str "[scraper] Falha ao baixar http://b (status=503)"));
     store_call := Ok tt |}.

Definition cached_calls : calls :=
  {| cached_call := Ok (VDict (<[str "pacientes_unidade" := VInt 12]> ∅));
     fetch_call := Raise (Exn (str "RuntimeError") []);
     store_call := Ok tt |}.

Definition sample_completed : list (text * text * calls) :=
  [(str "UPA B", str "http://b", failed_calls);
   (str "UPA A", str "http://a", cached_calls)].

(** A server that answers 404 once and 200 from then on. *)
Definition not_found_once (attempt : Z) : reply :=
  if attempt =? 1
  then Replies {| resp_status := 404; resp_reason := str "Not Found";
                  resp_url := str "http://upa"; resp_text := [] |}
  else Replies {| resp_status := 200; resp_reason := str "OK";
                  resp_url := str "http://upa"; resp_text := str "<html></html>" |}.

(** A server that always answers 404. *)
Definition always_not_found (attempt : Z) : reply :=
  Replies {| resp_status := 404; resp_reason := str "Not Found";
             resp_url := str "http://upa"; resp_text := [] |}.

(* ===================================================================== *)
(** ** core/scraper.py: helpers of the rendered path, [fetch_html] *)
(* ===================================================================== *)

(** The code point of the accented letter in the fifth marker. *)
Definition O_ACUTE : N := 243.

Definition POWERBI_MARKERS : list text :=
  [str "visualcontainerhost"; str "visual-container"; str "visualcontainer";
   str "powerbireport"; str "relat" ++ [O_ACUTE] ++ str "rio do power bi";
   str "reportembed"; str "app.powerbi.com"].

Definition _is_powerbi_rendered (html_lower : text) : bool :=
  existsb (fun m => str_in m html_lower) POWERBI_MARKERS.

(** The loop of [fetch_html_selenium_powerbi] that chooses the address of
    the third strategy; [srcs] lists [_get_iframe_src(iframe)] for the
    iframes in order. *)
Definition best_src_step (best_src : option text) (s : option text) : option text :=
  match s with
  | Some s' =>
      if nonempty s' &&
         match best_src with
         | None => true
         | Some b => (length b <? length s')%nat
         end
      then Some s' else best_src
  | None => best_src
  end.

Definition choose_best_src (srcs : list (option text)) : option text :=
  fold_left best_src_step srcs None.

Section RenderedHelpers.
Context `{UnicodeData}.

(** [_get_iframe_src(el)], from the attributes of the element. *)
Definition _get_iframe_src (attrs : gmap text text) : option text :=
  let src := strip (default [] (attrs !! str "src")) in
  let src := if nonempty src then src
             else strip (default [] (attrs !! str "data-src")) in
  if nonempty src then Some src else None.

(** The network of [fetch_html_requests], and what
    [fetch_html_selenium_powerbi] does when it is called. *)
Variable server : Z -> reply.
Variable jitter : Z -> Q.
Variable selenium : result FetchResult.

(** [fetch_html(url, mode=mode, retries=retries)], with the requests it
    sends. *)
Definition fetch_html (target mode : text) (retries : Z)
  : result FetchResult * list event :=
  let m := lower (strip (if nonempty mode then mode else str "powerbi")) in
  if bool_decide (m = str "requests") then
    fetch_html_requests server jitter target (8 # 10) retries
  else if bool_decide (m = str "auto") then
    let '(r, log) := fetch_html_requests server jitter target (8 # 10) 2 in
    match r with
    | Ok r =>
        if _is_powerbi_rendered (lower (html r)) then (Ok r, log)
        else (selenium, log)
    | Raise _ => (selenium, log)
    end
  else (selenium, []).

End RenderedHelpers.

(* ===================================================================== *)
(** ** core/scraper.py: [fetch_html_selenium_powerbi] *)
(* ===================================================================== *)

(** What the browser did at each call the function makes of it, for one
    run with [debug=False].  For an iframe: reading its attributes in the
    loop that probes the frames, the probe itself (switching into the
    frame, the two waits and [page_source], which give the markup or the
    exception that ends the probe), and reading its attributes again in
    the loop that chooses the best address. *)
Record frame := {
  src_read : result (gmap text text);
  probe : result text;
  src_read_again : result (gmap text text)
}.

(** For the session: [_mk_chrome_driver]; [driver.get(url)]; the first
    [page_source]; the wait for the metrics and the [page_source] after
    it; [_collect_iframe_elements] with the frames found; and for the
    third strategy [driver.get(best_src)], the two waits and
    [page_source]. *)
Record session := {
  driver_made : result unit;
  opened : result unit;
  main_source : result text;
  main_source_after_wait : result text;
  iframes : result (list frame);
  direct : result text
}.

Definition A_TILDE : N := 227.
Definition A_ACUTE : N := 225.

(** The message of the error for a page without iframes. *)
Definition no_iframe_message (e : exn) : text :=
  str "[scraper] N" ++ [A_TILDE] ++ str "o achei iframe na p" ++ [A_ACUTE]
    ++ str "gina. erro=" ++ exn_name e ++ str ": " ++ exn_str e.

(** The message of the error for iframes without an address. *)
Definition no_src_message : text :=
  str "[scraper] Achei iframe(s), mas nenhum com src/data-src utiliz" ++ [A_ACUTE]
    ++ str "vel.".

(** The error the function raises in the end, for the exception [cause]
    it reports. *)
Definition selenium_failure (target : text) (cause : exn) : exn :=
  Exn (str "RuntimeError")
    (str "[scraper] Falha Selenium/PowerBI em " ++ target ++ str " | erro="
       ++ exn_name cause ++ str ": " ++ exn_str cause).

(** How the code inside the outer [try] ends: with a result, or with an
    exception [e] while [last_exc] holds [last]. *)
Inductive ending :=
| Returns (r : FetchResult)
| Escapes (last : option exn) (e : exn).

Section Selenium.
Context `{UnicodeData}.

(** The loop over the iframes.  [None] when no frame gave a rendered
    report, with the [last_exc] the loop leaves. *)
Fixpoint probe_frames (target : text) (frames : list frame) (last_exc : option exn)
  : option ending * option exn :=
  match frames with
  | [] => (None, last_exc)
  | f :: frames' =>
      match src_read f with
      | Raise e => (Some (Escapes last_exc e), last_exc)
      | Ok attrs =>
          let src := _get_iframe_src attrs in
          match probe f with
          | Ok html_in =>
              if _is_powerbi_rendered (lower html_in)
              then (Some (Returns {| url := target; status_code := 200;
                                     html := html_in; via := str "selenium-iframe";
                                     iframe_url := src |}), last_exc)
              else probe_frames target frames' last_exc
          | Raise e => probe_frames target frames' (Some e)
          end
      end
  end.

(** The loop that chooses [best_src]; an exception of [_get_iframe_src]
    leaves it. *)
Fixpoint best_src_loop (frames : list frame) (best_src : option text)
  : result (option text) :=
  match frames with
  | [] => Ok best_src
  | f :: frames' =>
      attrs ← src_read_again f;
      best_src_loop frames' (best_src_step best_src (_get_iframe_src attrs))
  end.

(** The body of the outer [try], once the driver is there. *)
Definition selenium_body (s : session) (target : text) : ending :=
  match opened s with
  | Raise e => Escapes None e
  | Ok _ =>
  match main_source s with
  | Raise e => Escapes None e
  | Ok main_html =>
      if _is_powerbi_rendered (lower main_html) then
        match main_source_after_wait s with
        | Raise e => Escapes None e
        | Ok main_html =>
            Returns {| url := target; status_code := 200; html := main_html;
                       via := str "selenium-main"; iframe_url := None |}
        end
      else
        match iframes s with
        | Raise e => Escapes None (Exn (str "RuntimeError") (no_iframe_message e))
        | Ok frames =>
            match probe_frames target frames None with
            | (Some ending, _) => ending
            | (None, last_exc) =>
                match best_src_loop frames None with
                | Raise e => Escapes last_exc e
                | Ok None => Escapes last_exc (Exn (str "RuntimeError") no_src_message)
                | Ok (Some best_src) =>
                    if nonempty best_src then
                      match direct s with
                      | Ok html2 =>
                          Returns {| url := target; status_code := 200; html := html2;
                                     via := str "selenium-iframe";
                                     iframe_url := Some best_src |}
                      | Raise e => Escapes (Some e) e
                      end
                    else Escapes last_exc (Exn (str "RuntimeError") no_src_message)
                end
            end
        end
  end
  end.

(** [fetch_html_selenium_powerbi(url)], and whether [driver.quit()] was
    called. *)
Definition fetch_html_selenium_powerbi (s : session) (target : text)
  : result FetchResult * bool :=
  match driver_made s with
  | Raise e => (Raise (selenium_failure target e), false)
  | Ok _ =>
      match selenium_body s target with
      | Returns r => (Ok r, true)
      | Escapes last_exc e =>
          (Raise (selenium_failure target (default e last_exc)), true)
      end
  end.

End Selenium.

(** The exception the last failed probe raised, if a probe failed. *)
Fixpoint last_probe_error (frames : list frame) (last_exc : option exn) : option exn :=
  match frames with
  | [] => last_exc
  | f :: frames' =>
      last_probe_error frames'
        match probe f with
        | Raise e => Some e
        | Ok _ => last_exc
        end
  end.

(** A frame whose probe timed out and which has no address. *)
Definition timed_out_frame : frame :=
  {| src_read := Ok ∅;
     probe := Raise (Exn (str "TimeoutException") (str "Message: "));
     src_read_again := Ok ∅ |}.

(** A frame with a rendered report. *)
Definition rendered_frame : frame :=
  {| src_read := Ok (<[str "src" := str " https://app.powerbi.com/view?r=1 "]> ∅);
     probe := Ok (str "<div class='visual-container'>12</div>");
     src_read_again := Ok ∅ |}.

Definition frames_session (frames : list frame) : session :=
  {| driver_made := Ok tt; opened := Ok tt;
     main_source := Ok (str "<html><iframe></iframe></html>");
     main_source_after_wait := Ok [];
     iframes := Ok frames;
     direct := Raise (Exn (str "TimeoutException") (str "Message: direct")) |}.

(* ===================================================================== *)
(** ** File names: [slug] of debug_scrape.py, [safe_tag] of scraper.py *)
(* ===================================================================== *)

(** [re.sub(r"[^...]+", "_", s)] for a class of characters [keep];
    [in_run] tells that the run the scan is in has been replaced. *)
Fixpoint squeeze (keep : N -> bool) (in_run : bool) (s : text) : text :=
  match s with
  | [] => []
  | c :: s' =>
      if keep c then c :: squeeze keep false s'
      else if in_run then squeeze keep true s'
      else UNDERSCORE :: squeeze keep true s'
  end.

(** [s.strip("_")]. *)
Definition strip_underscores (s : text) : text :=
  rev (dropwhile (N.eqb UNDERSCORE) (rev (dropwhile (N.eqb UNDERSCORE) s))).

(** [[a-z0-9]]. *)
Definition slug_char (c : N) : bool := between 97 122 c || between 48 57 c.

Section FileNames.
Context `{UnicodeData}.

Definition slug (s : text) : text :=
  let s := lower s in
  strip_underscores (squeeze slug_char false s).

(** The name [_save_debug_artifacts] gives its files. *)
Definition safe_tag (tag : text) : text :=
  let t := firstn 90
             (List.filter (fun c => isalnum c || (c =? UNDERSCORE)%N || (c =? 45)%N)
                (lower tag)) in
  if nonempty t then t else str "page".

End FileNames.

Section DigitRuns.
Context `{UnicodeData}.

(** No run of decimal digits of [s] has more digits than [int] converts;
    [run] digits stand just before [s]. *)
Fixpoint runs_fit (run : nat) (s : text) : bool :=
  match s with
  | [] => true
  | c :: s' =>
      if isdecimal c
      then (S run <=? INT_MAX_STR_DIGITS)%nat && runs_fit (S run) s'
      else runs_fit 0 s'
  end.

(** The texts of a tree that can reach [int]: the label and the text of
    every labelled node, and the text of the page. *)
Definition digits_fit (soup : PageElement) : Prop :=
  Forall (fun node : PageElement * text =>
            runs_fit 0 (snd node) = true /\
            runs_fit 0 (get_text [SPACE] (fst node)) = true)
    (_iter_aria_nodes soup) /\
  runs_fit 0 (get_text [SPACE] soup) = true.


End DigitRuns.

(** The values of [_ts] that a [float] can be subtracted from. *)
Definition usable_ts (ts : value) : bool :=
  match ts with
  | VInt z => Z.abs z <? FLOAT_INT_BOUND
  | VFloat _ | VBool _ => true
  | _ => false
  end.

(** The persisted states [get_cached] reads without raising, for the key
    [k]: no file, a file that cannot be read, or a dictionary in which [k]
    is absent, a false value, or a dictionary whose [_ts] is absent or
    usable. *)
Definition tolerated (fs : file) (k : text) : bool :=
  match load_cache fs with
  | VDict d =>
      match d !! k with
      | None => true
      | Some item =>
          negb (truthy item) ||
          match item with
          | VDict e => usable_ts (default (VInt 0) (e !! str "_ts"))
          | _ => false
          end
      end
  | _ => false
  end.

(** The dictionary [parse_upa_dashboard] starts from. *)
Definition initial_out (updated : option text) : Metrics :=
  {| updated_at := updated;
     pacientes_unidade := None;
     pacientes_regulacao := None;
     pacientes_at_medico := None;
     classificacoes := list_to_map (map (fun c => (c, empty_slot)) COLORS) |}.

(** The count and the time of a colour in a result. *)
Definition count_of (c : text) (out : Metrics) : option value :=
  slot ← classificacoes out !! c; slot !! str "pacientes".

Definition time_of (c : text) (out : Metrics) : option value :=
  slot ← classificacoes out !! c; slot !! str "tempo_medio".

Section ParserViews.
Context `{UnicodeData}.

(** The keyword [k] is in the normalised label or in the normalised text
    of a labelled node: the test the loop over the nodes makes for each of
    its keywords. *)
Definition mentions (k : text) (node : PageElement * text) : bool :=
  let '(el, aria_raw) := node in
  str_in k (_norm aria_raw) || str_in k (_norm (get_text [SPACE] el)).

End ParserViews.

(** The schedule in which the writers of [order] run one after the other,
    and the [set_cached] calls of those writers made in that order. *)
Definition serial (order : list nat) : list nat := flat_map (fun i => [i; i]) order.

Definition sets_in_order (ws : list writer) (order : list nat) (fs : file) : file :=
  fold_left
    (fun fs i =>
       match ws !! i with
       | Some (Ready now k v) =>
           match set_cached fs now k v with
           | Ok fs' => fs'
           | Raise _ => fs
           end
       | _ => fs
       end)
    order fs.

(** The pause before the request of [attempt], for [attempt > 1]. *)
Definition backoff_delay (backoff_base : Q) (jitter : Z -> Q) (attempt : Z) : Q :=
  (backoff_base * inject_Z (2 ^ (attempt - 1)) + jitter attempt * (2 # 10))%Q.

(** A server that is overloaded at every attempt. *)
Definition always_unavailable (attempt : Z) : reply :=
  Replies {| resp_status := 503; resp_reason := str "Service Unavailable";
             resp_url := str "http://upa"; resp_text := [] |}.

(** What [time.sleep] was called with, in order. *)
Definition sleeps (log : list event) : list Q :=
  flat_map (fun ev => match ev with Sleep d => [d] | Get _ => [] end) log.

(** [a <= b] for the rows of the sorted frame. *)
Definition upa_le (a b : Row) : Prop := text_leb (upa_of a) (upa_of b) = true.

(* ===================================================================== *)
(** * Properties *)
(* ===================================================================== *)

(** ** The numeric heuristic *)

Section PickFacts.
Context `{UnicodeData}.

Lemma plausible_spec (n : Z) :
  plausible n = true -> 0 <= n <= 9999 /\ ~ In n YEARS.
Proof.
  unfold plausible. intros Hp.
  apply andb_prop in Hp as [Hrange Hyear].
  apply andb_prop in Hrange as [Hlo Hhi].
  split; [lia |].
  intros Hin. apply negb_true_iff in Hyear.
  assert (existsb (Z.eqb n) YEARS = true) as Hex; [| congruence].
  apply existsb_exists. exists n. split; [exact Hin | apply Z.eqb_refl].
Qed.

Lemma head_filter_Some {A} (p : A -> bool) (l : list A) (x : A) :
  head (List.filter p l) = Some x -> p x = true /\ In x l.
Proof.
  induction l as [| a l IH]; simpl; [discriminate |].
  destruct (p a) eqn:Hpa; simpl.
  - intros [= ->]. auto.
  - intros Hx. destruct (IH Hx). auto.
Qed.

(** *** The scan for timestamps *)

Lemma hms_scan_unfold (s : text) :
  hms_scan s =
  match s with
  | [] => []
  | c :: s' =>
      if hms_at s then Hit (firstn 8 s) :: hms_scan (skipn 8 s)
      else Keep c :: hms_scan s'
  end.
Proof.
  destruct s as [| a [| b [| c [| d [| e [| f [| g [| h s]]]]]]]]; reflexivity.
Qed.

Lemma hms_at_long (s : text) :
  hms_at s = true ->
  exists m rest, s = m ++ rest /\ length m = 8%nat /\ forall y, hms_at (m ++ y) = true.
Proof.
  destruct s as [| a [| b [| c [| d [| e [| f [| g [| h s]]]]]]]]; try discriminate.
  intros Hat. exists [a; b; c; d; e; f; g; h], s.
  split; [reflexivity |]. split; [reflexivity |]. intros y. exact Hat.
Qed.

Lemma hms_at_space (s : text) : hms_at (SPACE :: s) = false.
Proof.
  destruct s as [| b [| c [| d [| e [| f [| g [| h s]]]]]]]; try reflexivity.
  unfold hms_at, SPACE. now rewrite space_not_decimal.
Qed.

(** A match that has a blank in it does not exist: if the pattern matches
    a text with a blank after [p], the match lies within [p]. *)
Lemma hms_at_before_space (p x y : text) :
  hms_at (p ++ SPACE :: x) = true -> hms_at (p ++ y) = true.
Proof.
  assert (isdecimal SPACE = false) as Hsp by apply space_not_decimal.
  destruct p as [| a [| b [| c [| d [| e [| f [| g [| h p]]]]]]]];
    cbn [app]; try (intros Hat; exact Hat);
    destruct x as [| x1 [| x2 [| x3 [| x4 [| x5 [| x6 [| x7 x]]]]]]];
    cbn [hms_at]; try discriminate;
    rewrite ?Hsp, ?andb_false_r; cbn; rewrite ?andb_false_r;
    try discriminate.
Qed.

Lemma raw_keep (c : N) (ps : list piece) : raw (Keep c :: ps) = c :: raw ps.
Proof. reflexivity. Qed.

Lemma raw_hit (m : text) (ps : list piece) : raw (Hit m :: ps) = m ++ raw ps.
Proof. reflexivity. Qed.

Lemma raw_app (ps qs : list piece) : raw (ps ++ qs) = raw ps ++ raw qs.
Proof. unfold raw. apply flat_map_app. Qed.

Lemma raw_hms_scan (s : text) : raw (hms_scan s) = s.
Proof.
  remember (length s) as n eqn:Hn.
  revert s Hn. induction n as [n IH] using lt_wf_ind. intros s Hn.
  rewrite hms_scan_unfold. destruct s as [| c s']; [reflexivity |].
  destruct (hms_at (c :: s')) eqn:Hat.
  - destruct (hms_at_long _ Hat) as (m & rest & Hs & Hm & _).
    rewrite Hs.
    rewrite firstn_app, skipn_app, Hm. cbn [Nat.sub].
    rewrite firstn_all2, skipn_all2 by lia. cbn [firstn skipn app].
    rewrite app_nil_r, raw_hit.
    rewrite (IH (length rest)); [reflexivity | | reflexivity].
    subst n. rewrite Hs, length_app. lia.
  - rewrite raw_keep.
    rewrite (IH (length s')); [reflexivity | subst n; simpl; lia | reflexivity].
Qed.

Lemma hms_scan_hit (m rest : text) :
  length m = 8%nat -> hms_at (m ++ rest) = true ->
  hms_scan (m ++ rest) = Hit m :: hms_scan rest.
Proof.
  intros Hm Hat. rewrite hms_scan_unfold, Hat.
  destruct (m ++ rest) as [| c s'] eqn:Hs; [discriminate Hat |].
  rewrite <- Hs.
  rewrite firstn_app, skipn_app, Hm. cbn [Nat.sub].
  rewrite firstn_all2, skipn_all2 by lia. cbn [firstn skipn app].
  now rewrite app_nil_r.
Qed.

(** Replacing a match of the scan by a blank leaves the rest of the scan
    as it is. *)
Lemma hms_scan_blank (before after : list piece) (ts : text) :
  forall s : text,
    hms_scan s = before ++ Hit ts :: after ->
    hms_scan (raw before ++ SPACE :: raw after) = before ++ Keep SPACE :: after.
Proof.
  induction before as [| p before IH]; intros s Hscan.
  - change (raw []) with (@nil N). cbn [app] in *.
    rewrite hms_scan_unfold, hms_at_space. f_equal.
    rewrite hms_scan_unfold in Hscan.
    destruct s as [| c s']; [discriminate |].
    destruct (hms_at (c :: s')); [| discriminate].
    injection Hscan as _ <-. now rewrite raw_hms_scan.
  - rewrite hms_scan_unfold in Hscan.
    destruct s as [| c s']; [discriminate |].
    destruct (hms_at (c :: s')) eqn:Hat.
    + destruct (hms_at_long _ Hat) as (m & rest & Hs & Hm & Hany).
      rewrite Hs in Hscan.
      rewrite firstn_app, skipn_app, Hm in Hscan. cbn [Nat.sub] in Hscan.
      rewrite firstn_all2, skipn_all2 in Hscan by lia.
      cbn [firstn skipn app] in Hscan. rewrite app_nil_r in Hscan.
      injection Hscan as <- Hrest.
      rewrite raw_hit, <- app_assoc.
      rewrite hms_scan_hit by auto.
      cbn [app]. f_equal. exact (IH _ Hrest).
    + injection Hscan as <- Hrest.
      rewrite raw_keep. cbn [app].
      rewrite hms_scan_unfold.
      destruct (hms_at (c :: raw before ++ SPACE :: raw after)) eqn:Hblank.
      * exfalso.
        pose proof (hms_at_before_space (c :: raw before) (raw after)
                      (ts ++ raw after) Hblank) as Hcontra.
        assert (c :: s' = (c :: raw before) ++ ts ++ raw after) as Hs.
        { rewrite <- (raw_hms_scan s'), Hrest, raw_app, raw_hit. reflexivity. }
        congruence.
      * cbn [app]. f_equal. exact (IH _ Hrest).
Qed.

Lemma replace_hits_blank (before after : list piece) (ts : text) :
  replace_hits [SPACE] (before ++ Hit ts :: after) =
  replace_hits [SPACE] (before ++ Keep SPACE :: after).
Proof. unfold replace_hits. now rewrite !flat_map_app. Qed.


(** *** Conversions *)

Lemma all_candidates_app (texts1 texts2 : list text) :
  all_candidates (texts1 ++ texts2) =
  (cs ← all_candidates texts1; rest ← all_candidates texts2; Ok (cs ++ rest)).
Proof.
  induction texts1 as [| t texts1 IH]; cbn [app all_candidates mbind result_bind].
  - destruct (all_candidates texts2); reflexivity.
  - destruct (if nonempty t then _extract_int_candidates t else Ok []) as [cs |];
      cbn [mbind result_bind]; [| reflexivity].
    rewrite IH. destruct (all_candidates texts1) as [cs1 |]; cbn [mbind result_bind];
      [| reflexivity].
    destruct (all_candidates texts2) as [cs2 |]; cbn [mbind result_bind]; [| reflexivity].
    now rewrite app_assoc.
Qed.

(** C4. [_pick_patient_count] returns [None] or an integer between 0 and
    9999 that is none of the years 2020 to 2026; when the only integer
    candidate of a text is such a year, the result for that text is
    [None]. *)
Theorem pick_patient_count_plausible :
  (forall (texts : list text) (n : Z),
      _pick_patient_count texts = Ok (Some n) -> 0 <= n <= 9999 /\ ~ In n YEARS) /\
  (forall (t : text) (y : Z),
      _extract_int_candidates t = Ok [y] -> 2020 <= y <= 2026 ->
      _pick_patient_count [t] = Ok None).
Proof.
  split.
  - intros texts n Hpick. unfold _pick_patient_count in Hpick.
    destruct (all_candidates texts) as [cs |]; [| discriminate].
    cbn [mbind result_bind] in Hpick. injection Hpick as Hpick.
    apply head_filter_Some in Hpick as [Hp _].
    now apply plausible_spec.
  - intros t y Hc Hy. unfold _pick_patient_count. cbn [all_candidates].
    destruct (nonempty t); [| reflexivity].
    rewrite Hc. cbn [mbind result_bind app List.filter].
    assert (plausible y = false) as ->; [| reflexivity].
    unfold plausible. apply andb_false_intro2. apply negb_false_iff.
    apply existsb_exists. exists y. split; [| apply Z.eqb_refl].
    unfold YEARS. simpl.
    assert (y = 2020 \/ y = 2021 \/ y = 2022 \/ y = 2023 \/ y = 2024 \/
            y = 2025 \/ y = 2026) by lia.
    intuition.
Qed.


Lemma pick_blank (s : text) (before after : list piece) (ts : text)
    (texts1 texts2 : list text) :
  hms_scan s = before ++ Hit ts :: after ->
  _pick_patient_count (texts1 ++ s :: texts2) =
  _pick_patient_count (texts1 ++ (raw before ++ SPACE :: raw after) :: texts2).
Proof.
  intros Hscan. unfold _pick_patient_count. rewrite !all_candidates_app.
  cbn [all_candidates].
  assert (nonempty s = true) as ->.
  { destruct s; [| reflexivity]. destruct before; discriminate Hscan. }
  assert (nonempty (raw before ++ SPACE :: raw after) = true) as ->.
  { now destruct (raw before). }
  unfold _extract_int_candidates, re_sub_hms.
  rewrite (hms_scan_blank _ _ _ _ Hscan), Hscan, replace_hits_blank.
  reflexivity.
Qed.

End PickFacts.

Lemma pick_patient_count_plausible_witness :
  (0 <= 3 <= 9999 /\ ~ In 3 YEARS) /\
  _pick_patient_count [str "Atualizado em 2026"] = Ok None.
Proof.
  split.
  - apply (proj1 pick_patient_count_plausible [str "03 00:10:00 pacientes"] 3).
    reflexivity.
  - apply (proj2 pick_patient_count_plausible (str "Atualizado em 2026") 2026).
    + reflexivity.
    + lia.
Defined.


(** C5, as the code has it.  A timestamp that the left-to-right scan for
    HH:MM:SS matches counts as one blank: the result is that of the text
    with the blank in its place, so no digit of the timestamp reaches it;
    the result for "03 00:10:00 pacientes" is 3.  (A shape that overlaps a
    match, the "34:56:78" of "12:34:56:78", is not matched by the scan.) *)
Theorem matched_timestamp_counts_as_blank :
  (forall (U : UnicodeData) (s : text) (before after : list piece) (ts : text)
          (texts1 texts2 : list text),
      hms_scan s = before ++ Hit ts :: after ->
      _pick_patient_count (texts1 ++ s :: texts2) =
      _pick_patient_count (texts1 ++ (raw before ++ SPACE :: raw after) :: texts2)) /\
  _pick_patient_count [str "03 00:10:00 pacientes"] = Ok (Some 3).
Proof.
  split.
  - intros U s before after ts texts1 texts2. apply pick_blank.
  - reflexivity.
Qed.

Lemma matched_timestamp_counts_as_blank_witness :
  hms_scan (str "03 00:10:00 pacientes") =
    map Keep (str "03 ") ++ Hit (str "00:10:00") :: map Keep (str " pacientes") /\
  _pick_patient_count ([] ++ str "03 00:10:00 pacientes" :: []) =
  _pick_patient_count
    ([] ++ (raw (map Keep (str "03 ")) ++ SPACE :: raw (map Keep (str " pacientes"))) :: []).
Proof.
  split.
  - vm_compute. reflexivity.
  - apply (proj1 matched_timestamp_counts_as_blank ascii_data
             (str "03 00:10:00 pacientes")
             (map Keep (str "03 ")) (map Keep (str " pacientes")) (str "00:10:00")
             [] []).
    vm_compute. reflexivity.
Defined.

(** C5 as stated fails: "34:56:78" has the shape HH:MM:SS and lies in
    "12:34:56:78"; it is not stripped (with a blank in its place the
    result would be 12), and the result is its last field. *)
Lemma timestamp_field_returned :
  hms_at (str "34:56:78") = true /\
  str "12:34:56:78" = str "12:" ++ str "34:56:78" /\
  _pick_patient_count [str "12:34:56:78"] = Ok (Some 78) /\
  _pick_patient_count [str "12:" ++ [SPACE]] = Ok (Some 12).
Proof. repeat split. Qed.

(** ** The shape of the parser's result *)

Section ShapeFacts.
Context `{UnicodeData}.

Lemma slot_complete_insert (slot : gmap text value) (k : text) (v : value) :
  slot_complete slot -> slot_complete (<[k := v]> slot).
Proof.
  intros [Hp Ht]. split; apply lookup_insert_is_Some';  auto.
Qed.

Lemma slot_complete_size (slot : gmap text value) :
  slot_complete slot -> size slot <> 0%nat.
Proof.
  intros [[v Hv] _] Hsize. apply map_size_empty_iff in Hsize. subst slot.
  rewrite lookup_empty in Hv. discriminate.
Qed.

Lemma empty_slot_complete : slot_complete empty_slot.
Proof. split; eexists; vm_compute; reflexivity. Qed.

Lemma lookup_constant_map {V} (x : V) (keys : list text) (c : text) :
  In c keys ->
  (list_to_map (map (fun k => (k, x)) keys) : gmap text V) !! c = Some x.
Proof.
  induction keys as [| k keys IH]; [intros [] |].
  intros Hin. cbn [map list_to_map foldr].
  destruct (decide (k = c)) as [-> | Hne].
  - apply lookup_insert_eq.
  - rewrite lookup_insert_ne by exact Hne. apply IH.
    destruct Hin as [Heq | Hin]; [contradiction | exact Hin].
Qed.

Lemma initial_shaped :
  fully_shaped (list_to_map (map (fun c => (c, empty_slot)) COLORS)).
Proof.
  unfold fully_shaped. apply List.Forall_forall. intros c Hc.
  exists empty_slot. split; [now apply lookup_constant_map | apply empty_slot_complete].
Qed.

Lemma fully_shaped_insert (m : gmap text (gmap text value)) (c : text)
    (slot : gmap text value) :
  fully_shaped m -> slot_complete slot -> fully_shaped (<[c := slot]> m).
Proof.
  unfold fully_shaped. intros Hm Hslot.
  eapply Forall_impl; [exact Hm |].
  intros c' (slot' & Hlook & Hc'). cbn beta.
  destruct (decide (c = c')) as [-> | Hne].
  - exists slot. split; [apply lookup_insert_eq | exact Hslot].
  - exists slot'. split; [now rewrite lookup_insert_ne | exact Hc'].
Qed.

Lemma fully_shaped_lookup (m : gmap text (gmap text value)) (c : text) :
  fully_shaped m -> In c COLORS ->
  exists slot, m !! c = Some slot /\ slot_complete slot.
Proof.
  unfold fully_shaped. rewrite List.Forall_forall. auto.
Qed.

Lemma find_color_In (aria el_text_norm color : text) :
  find_color aria el_text_norm = Some color -> In color COLORS.
Proof. unfold find_color. intros Hfind. now apply find_some in Hfind. Qed.

(** *** What [int] converts *)

Lemma int_raises (n : text) (e : exn) : int n = Raise e -> exn_name e = str "ValueError".
Proof. unfold int. destruct (_ <? _)%nat; [| discriminate]. now intros [= <-]. Qed.

Lemma ints_raises (nums : list text) (e : exn) :
  ints nums = Raise e -> exn_name e = str "ValueError".
Proof.
  induction nums as [| n nums IH]; [discriminate |].
  cbn [ints]. destruct (int n) as [z |] eqn:Hn; cbn [mbind result_bind].
  - destruct (ints nums) as [zs |]; cbn [mbind result_bind]; [discriminate |].
    intros [= <-]. now apply IH.
  - intros [= <-]. now apply int_raises in Hn.
Qed.

Lemma ints_returns (nums : list text) :
  Forall (fun tok => (length tok <= INT_MAX_STR_DIGITS)%nat) nums ->
  ints nums = Ok (map int_value nums).
Proof.
  induction nums as [| n nums IH]; intros Hall; [reflexivity |].
  apply Forall_cons_1 in Hall as [Hn Hall].
  cbn [ints map]. unfold int at 1.
  replace (INT_MAX_STR_DIGITS <? length n)%nat with false
    by (symmetry; apply Nat.ltb_ge; exact Hn).
  cbn [mbind result_bind]. now rewrite (IH Hall).
Qed.

Lemma ints_Ok (nums : list text) (zs : list Z) :
  ints nums = Ok zs -> zs = map int_value nums.
Proof.
  revert zs. induction nums as [| n nums IH]; intros zs; cbn [ints map].
  - now intros [= <-].
  - unfold int at 1. destruct (_ <? _)%nat; [discriminate |].
    cbn [mbind result_bind].
    destruct (ints nums) as [zs' |]; cbn [mbind result_bind]; [| discriminate].
    intros [= <-]. now rewrite (IH zs').
Qed.

Lemma all_candidates_raises (texts : list text) (e : exn) :
  all_candidates texts = Raise e -> exn_name e = str "ValueError".
Proof.
  induction texts as [| t texts IH]; [discriminate |].
  cbn [all_candidates].
  destruct (if nonempty t then _extract_int_candidates t else Ok []) as [cs |] eqn:Ht;
    cbn [mbind result_bind].
  - destruct (all_candidates texts) as [rest |]; cbn [mbind result_bind]; [discriminate |].
    intros [= <-]. now apply IH.
  - intros [= <-]. destruct (nonempty t); [| discriminate].
    now apply ints_raises in Ht.
Qed.

Lemma pick_raises (texts : list text) (e : exn) :
  _pick_patient_count texts = Raise e -> exn_name e = str "ValueError".
Proof.
  unfold _pick_patient_count.
  destruct (all_candidates texts) as [cs |] eqn:Hall; [discriminate |].
  intros [= <-]. now apply all_candidates_raises in Hall.
Qed.

Lemma runs_fit_le (s : text) :
  forall i j : nat, (i <= j)%nat -> runs_fit j s = true -> runs_fit i s = true.
Proof.
  induction s as [| c s IH]; intros i j Hij; [reflexivity |].
  cbn [runs_fit]. destruct (isdecimal c); [| auto].
  intros Hfit. apply andb_prop in Hfit as [Hle Hfit].
  apply Nat.leb_le in Hle.
  apply andb_true_intro. split.
  - apply Nat.leb_le. apply Nat.le_trans with (S j); [| exact Hle].
    now apply le_n_S.
  - apply (IH (S i) (S j)); [now apply le_n_S | exact Hfit].
Qed.

Lemma runs_fit_skipn (n : nat) :
  forall (s : text) (run : nat), runs_fit run s = true -> runs_fit 0 (skipn n s) = true.
Proof.
  induction n as [| n IH]; intros s run Hfit.
  - cbn [skipn]. apply (runs_fit_le s 0 run); [apply Nat.le_0_l | exact Hfit].
  - destruct s as [| c s]; [reflexivity |].
    cbn [skipn]. cbn [runs_fit] in Hfit.
    destruct (isdecimal c); [| now apply (IH s 0%nat)].
    apply andb_prop in Hfit as [_ Hfit]. now apply (IH s (S run)).
Qed.

Lemma runs_fit_firstn (n : nat) :
  forall (s : text) (run : nat), runs_fit run s = true -> runs_fit run (firstn n s) = true.
Proof.
  induction n as [| n IH]; intros s run Hfit; [reflexivity |].
  destruct s as [| c s]; [reflexivity |].
  cbn [firstn runs_fit] in *.
  destruct (isdecimal c); [| now apply IH].
  apply andb_prop in Hfit as [Hle Hfit]. rewrite Hle. now apply IH.
Qed.

Lemma runs_fit_slice (s : text) (lo hi : Z) :
  runs_fit 0 s = true -> runs_fit 0 (slice s lo hi) = true.
Proof.
  intros Hfit. unfold slice. apply runs_fit_firstn. now apply (runs_fit_skipn _ s 0%nat).
Qed.

Lemma runs_fit_re_sub (s : text) :
  forall run : nat, runs_fit run s = true -> runs_fit run (re_sub_hms [SPACE] s) = true.
Proof.
  remember (length s) as n eqn:Hn.
  revert s Hn. induction n as [n IH] using lt_wf_ind. intros s Hn run Hfit.
  unfold re_sub_hms. rewrite hms_scan_unfold.
  destruct s as [| c s']; [reflexivity |].
  destruct (hms_at (c :: s')) eqn:Hat.
  - change (replace_hits [SPACE] (Hit (firstn 8 (c :: s')) :: hms_scan (skipn 8 (c :: s'))))
      with (SPACE :: re_sub_hms [SPACE] (skipn 8 (c :: s'))).
    cbn [runs_fit]. unfold SPACE at 1. rewrite space_not_decimal.
    apply (IH (length (skipn 8 (c :: s')))); [| reflexivity |].
    + subst n. rewrite length_skipn. cbn [length]. lia.
    + now apply (runs_fit_skipn 8 _ run).
  - change (replace_hits [SPACE] (Keep c :: hms_scan s'))
      with (c :: re_sub_hms [SPACE] s').
    cbn [runs_fit] in *. destruct (isdecimal c).
    + apply andb_prop in Hfit as [Hle Hfit]. rewrite Hle.
      apply (IH (length s')); [subst n; cbn [length]; lia | reflexivity | exact Hfit].
    + apply (IH (length s')); [subst n; cbn [length]; lia | reflexivity | exact Hfit].
Qed.

(** The tokens [re.findall] returns are runs of digits of the text. *)
Lemma findall_ints_fit (s : text) :
  forall (st : scan_state) (run : nat),
    match st with
    | InDigits tok => (length tok <= run)%nat /\ (run <= INT_MAX_STR_DIGITS)%nat
    | _ => True
    end ->
    runs_fit run s = true ->
    Forall (fun tok => (length tok <= INT_MAX_STR_DIGITS)%nat) (findall_ints st s).
Proof.
  induction s as [| c s IH]; intros st run Hst Hfit.
  - cbn [findall_ints]. destruct st as [| tok |]; [constructor | | constructor].
    constructor; [| constructor].
    destruct Hst as [Htok Hrun]. now apply Nat.le_trans with run.
  - cbn [findall_ints runs_fit] in *.
    destruct (isdecimal c) eqn:Hc.
    + apply andb_prop in Hfit as [Hle Hfit]. apply Nat.leb_le in Hle.
      assert (isword c = true) as Hw.
      { unfold isword. now rewrite (decimal_isalnum c Hc). }
      destruct st as [| tok |].
      * apply (IH _ (S run)); [| exact Hfit]. cbn [length]. split; [lia | exact Hle].
      * apply (IH _ (S run)); [| exact Hfit]. rewrite length_app. cbn [length].
        destruct Hst as [Htok _]. split; [lia | exact Hle].
      * rewrite Hw. now apply (IH _ (S run)).
    + destruct st as [| tok |].
      * apply (IH _ 0%nat); [| exact Hfit]. now destruct (isword c).
      * destruct (isword c); [now apply (IH _ 0%nat) |].
        constructor; [| now apply (IH _ 0%nat)].
        destruct Hst as [Htok Hrun]. now apply Nat.le_trans with run.
      * apply (IH _ 0%nat); [| exact Hfit]. now destruct (isword c).
Qed.

Lemma extract_returns (s : text) :
  runs_fit 0 s = true ->
  exists cs, _extract_int_candidates s = Ok cs.
Proof.
  intros Hfit. unfold _extract_int_candidates. eexists. apply ints_returns.
  apply (findall_ints_fit _ AtBoundary 0%nat); [exact I |].
  now apply runs_fit_re_sub.
Qed.

Lemma all_candidates_returns (texts : list text) :
  Forall (fun t => runs_fit 0 t = true) texts ->
  exists cs, all_candidates texts = Ok cs.
Proof.
  induction texts as [| t texts IH]; intros Hall; [now exists [] |].
  apply Forall_cons_1 in Hall as [Ht Hall].
  destruct (IH Hall) as [rest Hrest]. destruct (extract_returns t Ht) as [cs Hcs].
  cbn [all_candidates]. rewrite Hrest, Hcs.
  destruct (nonempty t); cbn [mbind result_bind]; eauto.
Qed.

Lemma pick_returns (texts : list text) :
  Forall (fun t => runs_fit 0 t = true) texts ->
  exists r, _pick_patient_count texts = Ok r.
Proof.
  intros Hall. destruct (all_candidates_returns texts Hall) as [cs Hcs].
  unfold _pick_patient_count. rewrite Hcs. cbn [mbind result_bind]. eauto.
Qed.

(** *** The two loops *)

Lemma visit_raises (out : Metrics) (node : PageElement * text) (e : exn) :
  visit out node = Raise e -> exn_name e = str "ValueError".
Proof.
  destruct node as [el aria_raw]. unfold visit.
  destruct (_pick_patient_count [aria_raw; get_text [SPACE] el]) as [n | e'] eqn:Hpick;
    cbn [mbind result_bind].
  - repeat match goal with
           | |- context [if ?b then Ok (_ _ out) else _] => destruct b; [discriminate |]
           end.
    destruct (find_color _ _); [destruct (negb _) |]; discriminate.
  - apply pick_raises in Hpick.
    repeat match goal with
           | |- context [if ?b then Raise _ else _] =>
               destruct b; [intros [= <-]; exact Hpick |]
           end.
    destruct (find_color _ _); [| discriminate].
    destruct (negb _); [discriminate |]. intros [= <-]. exact Hpick.
Qed.

Lemma visit_returns (out : Metrics) (node : PageElement * text) :
  runs_fit 0 (snd node) = true -> runs_fit 0 (get_text [SPACE] (fst node)) = true ->
  exists out', visit out node = Ok out'.
Proof.
  destruct node as [el aria_raw]. cbn [fst snd]. intros Haria Htext.
  destruct (pick_returns [aria_raw; get_text [SPACE] el]) as [n Hn].
  { repeat constructor; assumption. }
  unfold visit. rewrite Hn. cbn [mbind result_bind].
  repeat match goal with
         | |- context [if ?b then Ok (_ _ out) else _] => destruct b; [eauto |]
         end.
  destruct (find_color _ _); [| eauto].
  destruct (negb _); eauto.
Qed.

Lemma visit_shaped (out out' : Metrics) (node : PageElement * text) :
  visit out node = Ok out' ->
  fully_shaped (classificacoes out) -> fully_shaped (classificacoes out').
Proof.
  intros Hvisit Hout. destruct node as [el aria_raw]. unfold visit in Hvisit.
  destruct (_pick_patient_count [aria_raw; get_text [SPACE] el]) as [n | e];
    cbn [mbind result_bind] in Hvisit.
  - repeat match type of Hvisit with
           | context [if ?b then Ok (_ _ out) else _] =>
               destruct b; [injection Hvisit as <-; exact Hout |]
           end.
    destruct (find_color _ _) as [color |] eqn:Hcolor;
      [| injection Hvisit as <-; exact Hout].
    destruct (negb _); injection Hvisit as <-; [exact Hout |].
    cbn [classificacoes set_classificacoes].
    apply fully_shaped_insert; [exact Hout |].
    destruct (fully_shaped_lookup _ _ Hout (find_color_In _ _ _ Hcolor))
      as (slot & -> & Hslot).
    cbn [default from_option id].
    rewrite bool_decide_eq_false_2 by now apply slot_complete_size.
    destruct n; destruct (time_or _ _);
      repeat match goal with
             | |- context [if ?b then _ else _] => destruct b
             end;
      repeat apply slot_complete_insert; exact Hslot.
  - repeat match type of Hvisit with
           | context [if ?b then Raise _ else _] => destruct b; [discriminate |]
           end.
    destruct (find_color _ _); [| injection Hvisit as <-; exact Hout].
    destruct (negb _); [injection Hvisit as <-; exact Hout | discriminate].
Qed.

Lemma visits_shaped (nodes : list (PageElement * text)) :
  forall out out' : Metrics,
    for_each visit nodes out = Ok out' ->
    fully_shaped (classificacoes out) -> fully_shaped (classificacoes out').
Proof.
  induction nodes as [| node nodes IH]; intros out out' Hloop Hout.
  - now injection Hloop as <-.
  - cbn [for_each] in Hloop.
    destruct (visit out node) as [out1 |] eqn:Hvisit; [| discriminate].
    cbn [mbind result_bind] in Hloop.
    apply (IH _ _ Hloop). exact (visit_shaped _ _ _ Hvisit Hout).
Qed.

Lemma visits_raise (nodes : list (PageElement * text)) :
  forall (out : Metrics) (e : exn),
    for_each visit nodes out = Raise e -> exn_name e = str "ValueError".
Proof.
  induction nodes as [| node nodes IH]; intros out e; [discriminate |].
  cbn [for_each].
  destruct (visit out node) as [out1 |] eqn:Hvisit; cbn [mbind result_bind].
  - apply IH.
  - intros [= <-]. now apply visit_raises in Hvisit.
Qed.

Lemma visits_return (nodes : list (PageElement * text)) :
  forall out : Metrics,
    Forall (fun node : PageElement * text =>
              runs_fit 0 (snd node) = true /\
              runs_fit 0 (get_text [SPACE] (fst node)) = true) nodes ->
    exists out', for_each visit nodes out = Ok out'.
Proof.
  induction nodes as [| node nodes IH]; intros out Hall; [now exists out |].
  apply Forall_cons_1 in Hall as [[Haria Htext] Hall].
  destruct (visit_returns out node Haria Htext) as [out1 Hvisit].
  cbn [for_each]. rewrite Hvisit. cbn [mbind result_bind]. now apply IH.
Qed.

(** The fallback for one colour, on a dictionary in which every colour has
    its slot: no [KeyError]; what it returns has the slots again, and what
    it raises comes from [int]. *)
Lemma fallback_shaped (big_text big_norm : text) (out : Metrics) (c : text) :
  fully_shaped (classificacoes out) -> In c COLORS ->
  match fallback big_text big_norm out c with
  | Ok out' => fully_shaped (classificacoes out')
  | Raise e => exn_name e = str "ValueError"
  end /\
  (runs_fit 0 big_text = true -> exists out', fallback big_text big_norm out c = Ok out').
Proof.
  intros Hout Hc.
  destruct (fully_shaped_lookup _ _ Hout Hc) as (slot & Hlook & Hslot).
  pose proof Hslot as [[p Hp] [t Ht]].
  unfold fallback, getitem. rewrite Hlook. cbn [mbind result_bind].
  rewrite Hp. cbn [mbind result_bind].
  destruct (is_None p); [| eauto].
  destruct (_ =? -1); [eauto |].
  destruct (_ || _); [| eauto].
  set (window := slice big_text _ _).
  destruct (_pick_patient_count [window]) as [n | e] eqn:Hpick; cbn [mbind result_bind].
  - rewrite lookup_insert_ne by discriminate. rewrite Ht. cbn [mbind result_bind].
    split; [| eauto].
    cbn [classificacoes set_classificacoes].
    apply fully_shaped_insert; [exact Hout |].
    now repeat apply slot_complete_insert.
  - split; [now apply pick_raises in Hpick |].
    intros Hfit. exfalso.
    destruct (pick_returns [window]) as [r Hr].
    + repeat constructor. now apply runs_fit_slice.
    + congruence.
Qed.

Lemma fallbacks_shaped (big_text big_norm : text) (cs : list text) :
  forall out : Metrics,
    fully_shaped (classificacoes out) -> (forall c, In c cs -> In c COLORS) ->
    match for_each (fallback big_text big_norm) cs out with
    | Ok out' => fully_shaped (classificacoes out')
    | Raise e => exn_name e = str "ValueError"
    end /\
    (runs_fit 0 big_text = true ->
     exists out', for_each (fallback big_text big_norm) cs out = Ok out').
Proof.
  induction cs as [| c cs IH]; intros out Hout Hcs.
  - cbn [for_each]. eauto.
  - destruct (fallback_shaped big_text big_norm out c Hout) as [Hstep Hret].
    { apply Hcs. now left. }
    cbn [for_each].
    destruct (fallback big_text big_norm out c) as [out1 | e]; cbn [mbind result_bind].
    + apply IH; [exact Hstep |]. intros c' Hc'. apply Hcs. now right.
    + split; [exact Hstep |]. intros Hfit. destruct (Hret Hfit) as [out' Hout'].
      discriminate Hout'.
Qed.

(** [parse_upa_dashboard] from the tree on: what it returns has a slot
    with both keys for every colour, what it raises is the [ValueError] of
    [int], and it returns when no run of digits is too long. *)
Lemma parse_soup_outcome (soup : PageElement) :
  match parse_soup soup with
  | Ok out => fully_shaped (classificacoes out)
  | Raise e => exn_name e = str "ValueError"
  end /\
  (digits_fit soup -> exists out, parse_soup soup = Ok out).
Proof.
  unfold parse_soup.
  set (out0 := {| updated_at := _extract_updated_at soup; pacientes_unidade := None;
                  pacientes_regulacao := None; pacientes_at_medico := None;
                  classificacoes := list_to_map (map (fun c => (c, empty_slot)) COLORS) |}).
  destruct (for_each visit (_iter_aria_nodes soup) out0) as [out1 | e] eqn:Hvisits;
    cbn [mbind result_bind].
  - assert (fully_shaped (classificacoes out1)) as Hout1.
    { apply (visits_shaped _ _ _ Hvisits). apply initial_shaped. }
    destruct (fallbacks_shaped (get_text [SPACE] soup) (_norm (get_text [SPACE] soup))
                COLORS out1 Hout1) as [Hres Hret]; [auto |].
    split; [exact Hres |]. intros [_ Hfit]. now apply Hret.
  - split; [now apply visits_raise in Hvisits |].
    intros [Hnodes _]. destruct (visits_return _ out0 Hnodes) as [out' Hout'].
    congruence.
Qed.

(** C2, as the code has it.  When the HTML parser raises, its exception
    leaves [parse_upa_dashboard].  When it builds a tree, whatever the
    markup was: what [parse_upa_dashboard] returns has, for every one of
    the five colours, a slot with both the [pacientes] and the
    [tempo_medio] key; the only exception it can raise is the [ValueError]
    of [int] (no [KeyError] stops it); and it returns when no label, no
    text of a labelled node and not the text of the page has a run of more
    than 4300 digits. *)
Theorem parse_returns_fully_shaped
    (BeautifulSoup : text -> result PageElement) (html : text) :
  (forall e, BeautifulSoup html = Raise e ->
             parse_upa_dashboard BeautifulSoup html = Raise e) /\
  (forall soup, BeautifulSoup html = Ok soup ->
     (forall out, parse_upa_dashboard BeautifulSoup html = Ok out ->
                  fully_shaped (classificacoes out)) /\
     (forall e, parse_upa_dashboard BeautifulSoup html = Raise e ->
                exn_name e = str "ValueError") /\
     (digits_fit soup ->
      exists out, parse_upa_dashboard BeautifulSoup html = Ok out /\
                  fully_shaped (classificacoes out))).
Proof.
  unfold parse_upa_dashboard. split.
  - now intros e ->.
  - intros soup ->. cbn [mbind result_bind].
    destruct (parse_soup_outcome soup) as [Hres Hret].
    split; [| split].
    + intros out Hout. now rewrite Hout in Hres.
    + intros e He. now rewrite He in Hres.
    + intros Hfit. destruct (Hret Hfit) as [out Hout]. exists out.
      split; [exact Hout |]. now rewrite Hout in Hres.
Qed.

End ShapeFacts.

Lemma parse_returns_fully_shaped_witness :
  exists out, parse_upa_dashboard (fun _ => Ok two_cards_soup) two_cards_html = Ok out /\
              fully_shaped (classificacoes out).
Proof.
  apply (proj2 (parse_returns_fully_shaped (fun _ => Ok two_cards_soup) two_cards_html)
           two_cards_soup eq_refl).
  split; [| vm_compute; reflexivity].
  repeat constructor.
Defined.

(** C2 as stated fails: a label with a number of 4301 digits makes
    [parse_upa_dashboard] raise the [ValueError] of [int]; with one digit
    less the parser returns, and the number, not plausible, is left
    out. *)
Lemma parse_raises_on_a_long_number :
  parse_upa_dashboard (fun _ => Ok long_number_soup) long_number_html
  = Raise (ValueError
             (str "Exceeds the limit (4300 digits) for integer string conversion: value has 4301 digits; use sys.set_int_max_str_digits() to increase the limit")) /\
  pacientes_unidade <$>
    parse_soup (page [card (str "Pacientes na Unidade: " ++ repeat 49%N 4300) []])
  = Ok None.
Proof. split; vm_compute; reflexivity. Qed.

(** C1 fails on the code.  On a page whose first card reads 12 and whose
    second card for the same metric has no number, [pacientes_unidade] ends
    as [None]: the later node overwrites the value of the earlier one.
    Without the second card the value is 12. *)
Theorem later_card_resets_scalar :
  pacientes_unidade <$> parse_upa_dashboard (fun _ => Ok two_cards_soup) two_cards_html
    = Ok None /\
  pacientes_unidade <$> parse_soup one_card_soup = Ok (Some 12).
Proof. split; vm_compute; reflexivity. Qed.

(** ** The label comes first *)

Section LabelFacts.
Context `{UnicodeData}.


Lemma hms_at_inv (s : text) :
  hms_at s = true ->
  exists a b d e g h rest,
    s = a :: b :: COLON :: d :: e :: COLON :: g :: h :: rest /\
    Forall (fun ch => isdecimal ch = true) [a; b; d; e; g; h].
Proof.
  destruct s as [| a [| b [| c [| d [| e [| f [| g [| h rest]]]]]]]]; try discriminate.
  cbn [hms_at]. intros Hat.
  repeat match type of Hat with
         | _ && _ = true => apply andb_prop in Hat as [Hat ?]
         end.
  repeat match goal with
         | Heq : (_ =? _)%N = true |- _ => apply N.eqb_eq in Heq; subst
         end.
  exists a, b, d, e, g, h, rest. split; [reflexivity |].
  repeat (constructor; [assumption |]). constructor.
Qed.






Lemma re_sub_cons_keep (repl : text) (c : N) (ps : list piece) :
  replace_hits repl (Keep c :: ps) = c :: replace_hits repl ps.
Proof. reflexivity. Qed.





Lemma replace_hits_keep (repl s : text) : replace_hits repl (map Keep s) = s.
Proof.
  induction s as [| c s IH]; [reflexivity |].
  cbn [map]. now rewrite re_sub_cons_keep, IH.
Qed.












(** A text without digits gives no candidate: a label with no digit
    before its number is one whose part before the number yields no
    plausible number. *)
Lemma digitless_gives_none (pre : text) :
  forallb (fun c => negb (isdecimal c)) pre = true ->
  _pick_patient_count [pre] = Ok None.
Proof.
  intros Hpre.
  assert (hms_scan pre = map Keep pre) as Hscan.
  { induction pre as [| c pre IH]; [reflexivity |].
    cbn [forallb] in Hpre. apply andb_prop in Hpre as [Hc Hpre].
    apply negb_true_iff in Hc.
    rewrite hms_scan_unfold.
    destruct (hms_at (c :: pre)) eqn:Hat.
    - destruct (hms_at_inv _ Hat) as (a & b & d & e & g & h & rest & Hs & Hd).
      injection Hs as -> _. apply Forall_cons_1 in Hd as [Ha _]. congruence.
    - cbn [map]. f_equal. now apply IH. }
  assert (forall st, match st with InDigits _ => False | _ => True end ->
                     findall_ints st pre = []) as Hnone.
  { clear Hscan. induction pre as [| c pre IH]; intros st Hst.
    - now destruct st.
    - cbn [forallb] in Hpre. apply andb_prop in Hpre as [Hc Hpre].
      apply negb_true_iff in Hc.
      cbn [findall_ints]. rewrite Hc.
      destruct st; [| contradiction |]; destruct (isword c); now apply IH. }
  unfold _pick_patient_count. cbn [all_candidates].
  destruct (nonempty pre); [| reflexivity].
  unfold _extract_int_candidates, re_sub_hms.
  rewrite Hscan, replace_hits_keep, (Hnone AtBoundary I). reflexivity.
Qed.


End LabelFacts.



(** ** The cache store *)

Lemma entry_truthy (now : Q) (data : value) : truthy (entry now data) = true.
Proof.
  unfold entry, truthy. apply negb_true_iff, bool_decide_eq_false_2.
  rewrite map_size_insert_None.
  - discriminate.
  - rewrite lookup_insert_ne by discriminate. apply lookup_empty.
Qed.

Lemma entry_ts (now : Q) (data : value) :
  py_get (entry now data) (str "_ts") (VInt 0) = Ok (VFloat now).
Proof.
  unfold entry, py_get.
  rewrite lookup_insert_ne by discriminate. now rewrite lookup_insert_eq.
Qed.

Lemma entry_data (now : Q) (data : value) :
  py_get (entry now data) (str "data") VNone = Ok data.
Proof. unfold entry, py_get. now rewrite lookup_insert_eq. Qed.

(** A [set_cached] that returns leaves the dictionary it loaded, with the
    entry of its own key replaced. *)
Lemma set_cached_Ok (fs fs' : file) (now : Q) (k : text) (v : value) :
  set_cached fs now k v = Ok fs' ->
  exists d, load_cache fs = VDict d /\ fs' = Holds (VDict (<[k := entry now v]> d)).
Proof.
  unfold set_cached, py_setitem, save_cache.
  destruct (load_cache fs) as [| | | | | | d]; try discriminate.
  cbn. intros [= <-]. eauto.
Qed.

(** C6. After [set_cached(k, v)] at time [T], with no write in between,
    [get_cached(k, ttl)] at time [T'] returns [v] when [T' - T <= ttl] and
    [None] when [T' - T > ttl]. *)
Theorem set_then_get (fs fs' : file) (T T' : Q) (k : text) (v : value) (ttl : Z) :
  set_cached fs T k v = Ok fs' ->
  ((T' - T <= inject_Z ttl)%Q -> get_cached fs' T' k ttl = Ok v) /\
  ((inject_Z ttl < T' - T)%Q -> get_cached fs' T' k ttl = Ok VNone).
Proof.
  intros Hset. apply set_cached_Ok in Hset as (d & _ & ->).
  unfold get_cached. cbn [load_cache py_get].
  rewrite lookup_insert_eq. cbn [default from_option id mbind result_bind].
  rewrite entry_truthy, entry_ts. cbn [negb mbind result_bind float_sub].
  split; intros Hage.
  - apply Qle_bool_iff in Hage. rewrite Hage. cbn [negb]. apply entry_data.
  - destruct (Qle_bool (T' - T) (inject_Z ttl)) eqn:Hle; [| reflexivity].
    apply Qle_bool_iff in Hle. exfalso. exact (Qlt_not_le _ _ Hage Hle).
Qed.

Lemma set_then_get_witness :
  get_cached (Holds (VDict (<[str "u" := entry 100 (VInt 7)]> ∅))) 220 (str "u") 120
    = Ok (VInt 7).
Proof.
  apply (proj1 (set_then_get Missing _ 100 220 (str "u") (VInt 7) 120 eq_refl)).
  vm_compute. discriminate.
Defined.

(** C7, as the code has it.  [get_cached] returns without raising exactly
    for the persisted states of [tolerated]: no cache file, a file that
    cannot be read or decoded, and a stored dictionary in which the key is
    absent, is a false value, or is a dictionary whose [_ts] is absent, a
    [float], a [bool] or an [int] that a [float] can hold; every other
    state makes it raise.  In particular it returns [None] when there is
    no file, when the file cannot be read, when the key is absent or a
    false value, and when the entry has no [data] and a usable [_ts]. *)
Theorem get_cached_fails_soft (fs : file) (now : Q) (k : text) (ttl : Z) :
  raised (get_cached fs now k ttl) = negb (tolerated fs k) /\
  (fs = Missing \/ fs = Unreadable \/
   (exists d : gmap text value, fs = Holds (VDict d) /\
      (d !! k = None \/
       (exists item, d !! k = Some item /\ truthy item = false) \/
       (exists e : gmap text value,
           d !! k = Some (VDict e) /\ e !! str "data" = None /\
           usable_ts (default (VInt 0) (e !! str "_ts")) = true))) ->
   get_cached fs now k ttl = Ok VNone).
Proof.
  split.
  - unfold get_cached, tolerated.
    destruct (load_cache fs) as [| b | z | q | s | l | d]; try reflexivity.
    cbn [py_get mbind result_bind].
    destruct (d !! k) as [item |]; [| reflexivity].
    cbn [default from_option id].
    destruct (truthy item) eqn:Htrue; [| reflexivity].
    cbn [negb orb].
    destruct item as [| b | z | q | s | l | e]; try reflexivity.
    cbn [py_get mbind result_bind].
    destruct (default (VInt 0) (e !! str "_ts")) as [| b | z | q | s | l | e'];
      cbn [float_sub usable_ts mbind result_bind]; try reflexivity;
      try (destruct (Z.abs z <? FLOAT_INT_BOUND); [| reflexivity];
           cbn [mbind result_bind]);
      match goal with |- context [Qle_bool ?a ?b] => destruct (Qle_bool a b) end;
      reflexivity.
  - intros [-> | [-> | (d & -> & Hk)]]; unfold get_cached; cbn [load_cache py_get].
    + now rewrite lookup_empty.
    + now rewrite lookup_empty.
    + destruct Hk as [-> | [(item & -> & Hfalse) | (e & -> & Hdata & Hts)]];
        cbn [default from_option id mbind result_bind].
      * reflexivity.
      * now rewrite Hfalse.
      * destruct (truthy (VDict e)); [| reflexivity]. cbn [negb py_get mbind result_bind].
        rewrite Hdata.
        destruct (default (VInt 0) (e !! str "_ts")) as [| b | z | q | s | l | e'];
          try discriminate Hts; cbn [float_sub usable_ts mbind result_bind] in *;
          rewrite ?Hts; cbn [mbind result_bind];
          match goal with |- context [Qle_bool ?a ?b] => destruct (Qle_bool a b) end;
          reflexivity.
Qed.

Lemma get_cached_fails_soft_witness :
  get_cached Unreadable 5 (str "u") 120 = Ok VNone.
Proof.
  apply (proj2 (get_cached_fails_soft Unreadable 5 (str "u") 120)).
  right. left. reflexivity.
Defined.

(** C7 as stated fails: a readable cache file whose entry for the key is
    the number 5, whose document is a list, or whose entry has a [_ts] too
    large for a [float], makes [get_cached] raise.  The largest [_ts] that
    does not is [2 ** 1024 - 2 ** 970 - 1]. *)
Lemma get_cached_raises_on_other_shapes :
  get_cached (Holds (VDict (<[str "u" := VInt 5]> ∅))) 0 (str "u") 120
    = Raise (AttributeError (str "'int' object has no attribute 'get'")) /\
  get_cached (Holds (VList [])) 0 (str "u") 120
    = Raise (AttributeError (str "'list' object has no attribute 'get'")) /\
  get_cached (Holds (VDict (<[str "u" := VDict (<[str "_ts" := VInt (10 ^ 400)]> ∅)]> ∅)))
    0 (str "u") 120
    = Raise (OverflowError (str "int too large to convert to float")) /\
  get_cached
    (Holds (VDict (<[str "u" := VDict (<[str "_ts" := VInt (2 ^ 1024 - 2 ^ 970)]> ∅)]> ∅)))
    0 (str "u") 120
    = Raise (OverflowError (str "int too large to convert to float")) /\
  get_cached
    (Holds (VDict (<[str "u" := VDict (<[str "_ts" := VInt (2 ^ 1024 - 2 ^ 970 - 1)]> ∅)]> ∅)))
    0 (str "u") 120
    = Ok VNone.
Proof. repeat split; vm_compute; reflexivity. Qed.

(** *** Writers running at once *)

(** C9, as the code has it.  [set_cached] takes no lock.  A writer whose
    two steps run with no other step in between does what [set_cached]
    does alone: it leaves the dictionary it loaded with its own entry
    replaced, every other entry as it was. *)
Theorem undisturbed_writer_updates_store (fs : file) (ws : list writer) (i : nat)
    (now : Q) (k : text) (v : value) (d : gmap text value) :
  ws !! i = Some (Ready now k v) ->
  load_cache fs = VDict d ->
  run [i; i] fs ws = (Holds (VDict (<[k := entry now v]> d)), <[i := Finished]> ws) /\
  set_cached fs now k v = Ok (Holds (VDict (<[k := entry now v]> d))).
Proof.
  intros Hw Hload. split.
  - cbn [run]. rewrite Hw. cbn [writer_step].
    rewrite Hload. cbn [py_setitem].
    rewrite list_lookup_insert_eq by (eapply lookup_lt_Some; eauto).
    cbn [writer_step save_cache run]. now rewrite list_insert_insert_eq.
  - unfold set_cached. now rewrite Hload.
Qed.

Lemma undisturbed_writer_updates_store_witness :
  run [0; 0]%nat Missing [Ready 1 (str "a") (VInt 1)] =
  (Holds (VDict (<[str "a" := entry 1 (VInt 1)]> ∅)), <[0%nat := Finished]> [Ready 1 (str "a") (VInt 1)]).
Proof.
  apply (undisturbed_writer_updates_store Missing [Ready 1 (str "a") (VInt 1)] 0
           1 (str "a") (VInt 1) ∅); reflexivity.
Defined.

(** C9 as stated fails: two writers start from an empty store, both load
    before either saves, both finish, and the entry of the first is not in
    the store: a later [get_cached] misses it.  Run one after the other, in
    either order, they leave both entries. *)
Lemma interleaved_writers_lose_an_update :
  let ws := [Ready 1 (str "a") (VInt 1); Ready 2 (str "b") (VInt 2)] in
  let '(fs, ws') := run [0; 1; 0; 1]%nat Missing ws in
  ws' = [Finished; Finished] /\
  get_cached fs 3 (str "a") 120 = Ok VNone /\
  get_cached (fst (run [0; 0; 1; 1]%nat Missing ws)) 3 (str "a") 120 = Ok (VInt 1) /\
  get_cached (fst (run [1; 1; 0; 0]%nat Missing ws)) 3 (str "a") 120 = Ok (VInt 1).
Proof. vm_compute. repeat split. Qed.

(** ** The retry loop of [fetch_html_requests] *)

Section RetryFacts.
Variable server : Z -> reply.
Variable jitter : Z -> Q.
Variable target : text.
Variable backoff_base : Q.

Lemma gets_app (l1 l2 : list event) : gets (l1 ++ l2) = gets l1 ++ gets l2.
Proof. unfold gets. apply flat_map_app. Qed.

Lemma gets_round (log : list event) (attempt : Z) (d : Q) :
  gets ((if 1 <? attempt then log ++ [Sleep d] else log) ++ [Get attempt])
  = gets log ++ [attempt].
Proof.
  destruct (1 <? attempt); rewrite !gets_app; cbn; now rewrite ?app_nil_r.
Qed.

Lemma retried_status (resp : Response) :
  retried (Replies resp) = true ->
  existsb (Z.eqb (resp_status resp)) RETRYABLE = false ->
  exists e, raise_for_status resp = Some e.
Proof.
  unfold retried, raise_for_status. intros Hr Hn. rewrite Hn in Hr. cbn in Hr.
  destruct ((400 <=? resp_status resp) && (resp_status resp <? 500)) eqn:H4; [eauto |].
  destruct ((500 <=? resp_status resp) && (resp_status resp <? 600)) eqn:H5; [eauto |].
  exfalso. lia.
Qed.

Lemma accepted_status (resp : Response) :
  retried (Replies resp) = false ->
  existsb (Z.eqb (resp_status resp)) RETRYABLE = false /\ raise_for_status resp = None.
Proof.
  unfold retried, raise_for_status. intros Hr.
  apply orb_false_elim in Hr as [Hn Hrange]. split; [exact Hn |].
  destruct ((400 <=? resp_status resp) && (resp_status resp <? 500)) eqn:H4; [exfalso; lia |].
  destruct ((500 <=? resp_status resp) && (resp_status resp <? 600)) eqn:H5; [exfalso; lia |].
  reflexivity.
Qed.

(** One failed attempt: the loop goes on, with the state the attempt
    leaves. *)
Lemma attempts_retry (n k : nat) (log : list event) :
  retried (server (Z.of_nat (S k))) = true ->
  exists log',
    attempts server jitter target backoff_base (S n) (Z.of_nat k + 1)
      (last_status_of server k) (last_exc_of server k) log
    = attempts server jitter target backoff_base n (Z.of_nat (S k) + 1)
        (last_status_of server (S k)) (last_exc_of server (S k)) log'
    /\ gets log' = gets log ++ [Z.of_nat (S k)].
Proof.
  intros Hr.
  replace (Z.of_nat k + 1) with (Z.of_nat (S k)) by lia.
  cbn [attempts last_status_of last_exc_of].
  eexists. split; [| apply gets_round].
  destruct (server (Z.of_nat (S k))) as [resp | e] eqn:Hs; cbn [attempt_exc].
  - destruct (existsb (Z.eqb (resp_status resp)) RETRYABLE) eqn:Hn; [reflexivity |].
    destruct (retried_status resp Hr Hn) as [e ->]. reflexivity.
  - reflexivity.
Qed.

Lemma attempts_exhausted (n : nat) :
  forall (k : nat) (log : list event),
    (forall j : nat, (k < j <= k + n)%nat -> retried (server (Z.of_nat j)) = true) ->
    exists log',
      attempts server jitter target backoff_base n (Z.of_nat k + 1)
        (last_status_of server k) (last_exc_of server k) log
      = (Raise (Exn (str "RuntimeError")
                  (failure_message target (last_status_of server (k + n))
                     (last_exc_of server (k + n)))), log')
      /\ gets log' = gets log ++ attempts_from k n.
Proof.
  induction n as [| n IH]; intros k log Hall.
  - exists log. rewrite Nat.add_0_r. split; [reflexivity |].
    unfold attempts_from. cbn. now rewrite app_nil_r.
  - destruct (attempts_retry n k log) as (log1 & -> & Hlog1).
    { apply Hall. lia. }
    destruct (IH (S k) log1) as (log' & -> & Hlog').
    { intros j Hj. apply Hall. lia. }
    exists log'. replace (S k + n)%nat with (k + S n)%nat by lia.
    split; [reflexivity |].
    rewrite Hlog', Hlog1, <- app_assoc. reflexivity.
Qed.

Lemma attempts_accepted (m : nat) :
  forall (n k : nat) (log : list event) (resp : Response),
    (m < n)%nat ->
    (forall j : nat, (k < j <= k + m)%nat -> retried (server (Z.of_nat j)) = true) ->
    server (Z.of_nat (S (k + m))) = Replies resp ->
    retried (Replies resp) = false ->
    exists log',
      attempts server jitter target backoff_base n (Z.of_nat k + 1)
        (last_status_of server k) (last_exc_of server k) log
      = (Ok {| url := target; status_code := resp_status resp;
               html := resp_text resp; via := str "requests";
               iframe_url := None |}, log')
      /\ gets log' = gets log ++ attempts_from k (S m).
Proof.
  induction m as [| m IH]; intros n k log resp Hmn Hall Hserver Hacc.
  - destruct n as [| n]; [lia |].
    rewrite Nat.add_0_r in Hserver.
    destruct (accepted_status resp Hacc) as [Hn Hraise].
    replace (Z.of_nat k + 1) with (Z.of_nat (S k)) by lia.
    cbn [attempts]. rewrite Hserver, Hn, Hraise.
    eexists. split; [reflexivity |]. apply gets_round.
  - destruct n as [| n]; [lia |].
    destruct (attempts_retry n k log) as (log1 & -> & Hlog1).
    { apply Hall. lia. }
    destruct (IH n (S k) log1 resp) as (log' & -> & Hlog'); try lia.
    { intros j Hj. apply Hall. lia. }
    { now replace (S (S k + m)) with (S (k + S m)) by lia. }
    { exact Hacc. }
    exists log'. split; [reflexivity |].
    rewrite Hlog', Hlog1, <- app_assoc. reflexivity.
Qed.

(** What the loop does in general.  Every failed attempt is retried: as
    long as the attempts 1 to [k] each end with a request that raised, with
    a status 429, 502, 503 or 504, or with any other status from 400 to
    599, the loop goes on.  With [k] the retry bound, the fetch then raises a
    [RuntimeError] whose message carries the last status and the last
    exception, after one request per attempt; with [k] below the bound and
    a response of another status at attempt [k + 1], the fetch returns
    that response, after [k + 1] requests. *)
Lemma failed_attempts_are_retried (retries : Z) (k : nat) :
  (forall j : nat, (0 < j <= k)%nat -> retried (server (Z.of_nat j)) = true) ->
  Z.of_nat k <= retries ->
  let run := fetch_html_requests server jitter target backoff_base retries in
  (Z.of_nat k = retries ->
     fst run = Raise (Exn (str "RuntimeError")
                        (failure_message target (last_status_of server k)
                           (last_exc_of server k)))
     /\ gets (snd run) = attempts_from 0 k) /\
  (forall resp : Response,
     Z.of_nat k < retries ->
     server (Z.of_nat (S k)) = Replies resp ->
     retried (Replies resp) = false ->
     fst run = Ok {| url := target; status_code := resp_status resp;
                     html := resp_text resp; via := str "requests";
                     iframe_url := None |}
     /\ gets (snd run) = attempts_from 0 (S k)).
Proof.
  intros Hall Hk run. subst run. unfold fetch_html_requests. split.
  - intros Hex. rewrite <- Hex, Nat2Z.id.
    destruct (attempts_exhausted k 0 []) as (log' & Hrun & Hlog).
    { intros j Hj. apply Hall. lia. }
    change (Z.of_nat 0 + 1) with 1 in Hrun. change (0 + k)%nat with k in Hrun.
    cbn [last_status_of last_exc_of] in Hrun.
    rewrite Hrun. cbn [fst snd]. now rewrite Hlog.
  - intros resp Hlt Hserver Hacc.
    assert (forall j : nat, (0 < j <= 0 + k)%nat -> retried (server (Z.of_nat j)) = true)
      as Hall0 by (intros j Hj; apply Hall; lia).
    destruct (attempts_accepted k (Z.to_nat retries) 0 [] resp ltac:(lia) Hall0 Hserver Hacc)
      as (log' & Hrun & Hlog).
    change (Z.of_nat 0 + 1) with 1 in Hrun.
    cbn [last_status_of last_exc_of] in Hrun.
    rewrite Hrun. cbn [fst snd]. now rewrite Hlog.
Qed.

End RetryFacts.

(** C3 fails on the code.  A response with a status that is none of 429,
    502, 503 and 504 does not end the fetch when the status is an error
    (400 to 599): [raise_for_status] raises inside the [try], and the
    [except] clause of the loop goes on to the next attempt.  A 404 at the
    first attempt is followed by a second request, whose answer, a 200, is
    the result; and a server that always answers 404 gets all three
    requests before the error is raised. *)
Theorem not_found_does_not_end_the_fetch :
  (let run := fetch_html_requests not_found_once (fun _ => 0%Q) (str "http://upa") (8 # 10) 3 in
   fst run = Ok {| url := str "http://upa"; status_code := 200;
                   html := str "<html></html>"; via := str "requests";
                   iframe_url := None |} /\
   gets (snd run) = [1; 2]) /\
  (let run := fetch_html_requests always_not_found (fun _ => 0%Q) (str "http://upa") (8 # 10) 3 in
   fst run = Raise (Exn (str "RuntimeError")
                      (str "[scraper] Falha ao baixar http://upa (status=404) | erro=HTTPError: 404 Client Error: Not Found for url: http://upa")) /\
   gets (snd run) = [1; 2; 3]).
Proof. vm_compute. repeat split; reflexivity. Qed.

Lemma failed_attempts_are_retried_witness :
  let run := fetch_html_requests always_not_found (fun _ => 0%Q) (str "http://upa") (8 # 10) 3 in
  fst run = Raise (Exn (str "RuntimeError")
                     (failure_message (str "http://upa") 404
                        (Some (Exn (str "HTTPError")
                                 (str "404 Client Error: Not Found for url: http://upa")))))
  /\ gets (snd run) = [1; 2; 3].
Proof.
  apply (proj1 (failed_attempts_are_retried always_not_found (fun _ => 0%Q)
                  (str "http://upa") (8 # 10) 3 3
                  ltac:(intros j _; reflexivity) ltac:(vm_compute; discriminate))).
  reflexivity.
Defined.

(** ** The coordinator *)

Lemma find_all_false {A} (f : A -> bool) (l : list A) :
  (forall x, In x l -> f x = false) -> List.find f l = None.
Proof.
  induction l as [| a l IH]; intros Hall; [reflexivity |].
  cbn [List.find]. rewrite (Hall a) by now left.
  apply IH. intros x Hx. apply Hall. now right.
Qed.

Lemma row_get_None (r : Row) (k : text) :
  ~ In k (map fst r) -> row_get r k = None.
Proof.
  intros Hk. unfold row_get. rewrite find_all_false; [reflexivity |].
  intros [k' v] Hin. apply bool_decide_eq_false_2. cbn [fst]. intros ->.
  apply Hk. apply in_map_iff. exists (k, v). auto.
Qed.

Lemma row_set_keys (r : Row) (k : text) (v : value) (k' : text) :
  In k' (map fst (row_set r k v)) <-> k' = k \/ In k' (map fst r).
Proof.
  induction r as [| [k0 v0] r IH]; cbn [row_set map fst In].
  - intuition.
  - case_bool_decide as Hk0; cbn [map fst In].
    + subst k0. intuition.
    + rewrite IH. intuition.
Qed.

Lemma row_get_row_set_ne (r : Row) (k : text) (v : value) (k' : text) :
  k <> k' -> row_get (row_set r k v) k' = row_get r k'.
Proof.
  intros Hne. unfold row_get. f_equal.
  induction r as [| [k0 v0] r IH]; cbn [row_set List.find fst].
  - rewrite bool_decide_eq_false_2 by exact Hne. reflexivity.
  - case_bool_decide as Hk0; cbn [List.find fst].
    + subst k0. now rewrite !bool_decide_eq_false_2 by exact Hne.
    + destruct (bool_decide (k0 = k')); [reflexivity | exact IH].
Qed.

Lemma insert_row_perm (r : Row) (sorted : list Row) :
  Permutation (insert_row r sorted) (r :: sorted).
Proof.
  induction sorted as [| x rest IH]; cbn [insert_row]; [reflexivity |].
  destruct (text_leb _ _); [reflexivity |].
  rewrite IH. apply perm_swap.
Qed.

Lemma sort_values_upa_perm (rows : list Row) :
  Permutation (sort_values_upa rows) rows.
Proof.
  induction rows as [| r rows IH]; cbn [sort_values_upa fold_right]; [reflexivity |].
  rewrite insert_row_perm. now constructor.
Qed.

Lemma frame_columns_acc (rows : list Row) :
  forall (acc : list text) (k : text),
    In k acc \/ (exists r, In r rows /\ In k (map fst r)) ->
    In k (fold_left
            (fun cols r =>
               cols ++ List.filter (fun k => negb (bool_decide (k ∈ cols))) (map fst r))
            rows acc).
Proof.
  induction rows as [| r rows IH]; intros acc k Hk; cbn [fold_left].
  - destruct Hk as [Hk | (r & [] & _)]. exact Hk.
  - apply IH. destruct Hk as [Hk | (r' & [<- | Hr'] & Hk)].
    + left. apply in_or_app. now left.
    + left. apply in_or_app.
      destruct (decide (k ∈ acc)) as [Hin | Hnotin].
      * left. now apply list_elem_of_In.
      * right. apply filter_In. split; [exact Hk |].
        now rewrite bool_decide_eq_false_2.
    + right. eauto.
Qed.

Lemma frame_columns_incl (rows : list Row) (r : Row) (k : text) :
  In r rows -> In k (map fst r) -> In k (frame_columns rows).
Proof. intros Hr Hk. apply frame_columns_acc. right. eauto. Qed.

Section CoordinatorFacts.
Context `{UnicodeData}.
Variable BeautifulSoup : text -> result PageElement.
Variable not_in_columns : forall labels columns : list text, exn.

(** The keys the loop over the colours adds are long. *)
Lemma fill_colors_keys (classifs : value) (cores : list text) :
  forall row row' : Row,
    fill_colors classifs cores row = Ok row' ->
    forall k : text,
      (In k (map fst row) -> In k (map fst row')) /\
      (In k (map fst row') -> In k (map fst row) \/ (10 <= length k)%nat) /\
      ((length k < 10)%nat -> row_get row' k = row_get row k).
Proof.
  induction cores as [| cor cores IH]; intros row row' Hfill k.
  - injection Hfill as <-. tauto.
  - cbn [fill_colors] in Hfill.
    destruct (py_get classifs cor (VDict ∅)) as [info |]; [| discriminate].
    cbn [mbind result_bind] in Hfill.
    destruct (py_get (value_or info (VDict ∅)) (str "pacientes") VNone) as [p |];
      [| discriminate].
    cbn [mbind result_bind] in Hfill.
    destruct (py_get (value_or info (VDict ∅)) (str "tempo_medio") VNone) as [t |];
      [| discriminate].
    cbn [mbind result_bind] in Hfill.
    destruct (IH _ _ Hfill k) as (Hkeep & Hnew & Hget).
    assert (forall x : text, (10 <= length (x ++ str "_pacientes"))%nat) as Hp.
    { intros x. rewrite length_app. cbn. lia. }
    assert (forall x : text, (10 <= length (x ++ str "_tempo_medio"))%nat) as Ht.
    { intros x. rewrite length_app. cbn. lia. }
    repeat split.
    + intros Hk. apply Hkeep. rewrite !row_set_keys. auto.
    + intros Hk. destruct (Hnew Hk) as [Hk' | Hlong]; [| now right].
      rewrite !row_set_keys in Hk'.
      destruct Hk' as [-> | [-> | Hk']]; auto.
    + intros Hshort. rewrite (Hget Hshort).
      specialize (Hp (lower cor)). specialize (Ht (lower cor)).
      rewrite !row_get_row_set_ne; [reflexivity | |]; intros <-;
        apply Nat.lt_nge in Hshort; contradiction.
Qed.

(** A row that [_flatten_row] returns has the main columns, carries the
    name of its target, and has no [erro] key. *)
Lemma flatten_row_keys (upa_nome target : text) (data : value) (row : Row) :
  _flatten_row upa_nome target data = Ok row ->
  (forall c, In c MAIN_COLUMNS -> In c (map fst row)) /\
  row_get row (str "upa") = Some (VStr upa_nome) /\
  row_get row (str "erro") = None.
Proof.
  unfold _flatten_row. intros Hflat.
  destruct (py_get data (str "updated_at") VNone) as [updated |]; [| discriminate].
  destruct (py_get data (str "pacientes_unidade") VNone) as [unidade |]; [| discriminate].
  destruct (py_get data (str "pacientes_regulacao") VNone) as [regulacao |]; [| discriminate].
  destruct (py_get data (str "pacientes_at_medico") VNone) as [medico |]; [| discriminate].
  destruct (py_get data (str "classificacoes") (VDict ∅)) as [classifs |]; [| discriminate].
  cbn [mbind result_bind] in Hflat.
  pose proof (fill_colors_keys _ _ _ _ Hflat) as Hkeys.
  repeat split.
  - intros c Hc. apply (Hkeys c). cbn in Hc |- *. intuition.
  - destruct (Hkeys (str "upa")) as (_ & _ & Hupa).
    rewrite Hupa; [reflexivity |]. apply Nat.ltb_lt. reflexivity.
  - apply row_get_None. intros Herro.
    destruct (Hkeys (str "erro")) as (_ & Hnew & _).
    destruct (Hnew Herro) as [Hin | Hlong];
      [| apply Nat.leb_le in Hlong; discriminate Hlong].
    cbn in Hin. intuition discriminate.
Qed.

Lemma error_row_cells (nome target : text) (e : exn) :
  row_get (error_row nome target e) (str "upa") = Some (VStr nome) /\
  Forall (fun c => row_get (error_row nome target e) c = Some VNone) METRIC_COLUMNS /\
  row_get (error_row nome target e) (str "erro") = Some (VStr (exn_str e)).
Proof. split; [reflexivity |]. split; [repeat constructor | reflexivity]. Qed.

Lemma row_of_main (fut : text * text * calls) (c : text) :
  In c MAIN_COLUMNS -> In c (map fst (row_of BeautifulSoup fut)).
Proof.
  destruct fut as [[nome target] io]. unfold row_of.
  destruct (_fetch_one BeautifulSoup io nome target) as [row | e] eqn:Hone.
  - unfold _fetch_one in Hone.
    destruct (cached_call io) as [cached |]; [| discriminate].
    cbn [mbind result_bind] in Hone.
    destruct (truthy cached).
    + apply flatten_row_keys in Hone as (Hmain & _). exact (Hmain c).
    + destruct (fetch_call io) as [res |]; [| discriminate].
      cbn [mbind result_bind] in Hone.
      destruct (parse_upa_dashboard BeautifulSoup (html res)) as [parsed |]; [| discriminate].
      cbn [mbind result_bind] in Hone.
      destruct (store_call io); [| discriminate].
      apply flatten_row_keys in Hone as (Hmain & _). exact (Hmain c).
  - intros Hc. cbn in Hc |- *. intuition.
Qed.

Lemma fetch_one_row (io : calls) (nome target : text) (row : Row) :
  _fetch_one BeautifulSoup io nome target = Ok row ->
  row_get row (str "upa") = Some (VStr nome) /\ row_get row (str "erro") = None.
Proof.
  unfold _fetch_one. intros Hone.
  destruct (cached_call io) as [cached |]; [| discriminate].
  cbn [mbind result_bind] in Hone.
  destruct (truthy cached).
  - now apply flatten_row_keys in Hone as (_ & Hupa & Herro).
  - destruct (fetch_call io) as [res |]; [| discriminate].
    cbn [mbind result_bind] in Hone.
    destruct (parse_upa_dashboard BeautifulSoup (html res)) as [parsed |]; [| discriminate].
    cbn [mbind result_bind] in Hone.
    destruct (store_call io); [| discriminate].
    now apply flatten_row_keys in Hone as (_ & Hupa & Herro).
Qed.

(** C8. For a registry with at least one target (so whenever the failing
    targets are a strict subset), whatever each worker's calls did and in
    whatever order the futures complete, [load_all_upas] returns a frame
    with exactly one row per target: its rows are the targets' rows
    reordered.  The row of a target whose worker raised is the row of the
    [except] branch, with its name, [None] in every metric column and the
    exception's text under [erro]; the row of every other target is the
    one its worker returned, with its name and no [erro] value. *)
Theorem load_all_upas_isolates_failures
    (UPAS_DF : list (text * text)) (completed : list (text * text * calls)) :
  Permutation (map fst completed) UPAS_DF ->
  UPAS_DF <> [] ->
  exists df : DataFrame,
    load_all_upas BeautifulSoup not_in_columns completed = Ok df /\
    length (records df) = length UPAS_DF /\
    Permutation (records df) (map (row_of BeautifulSoup) completed) /\
    forall (nome target : text) (io : calls),
      In (nome, target, io) completed ->
      match _fetch_one BeautifulSoup io nome target with
      | Raise e =>
          In (error_row nome target e) (records df) /\
          row_get (error_row nome target e) (str "upa") = Some (VStr nome) /\
          Forall (fun c => row_get (error_row nome target e) c = Some VNone)
            METRIC_COLUMNS /\
          row_get (error_row nome target e) (str "erro") = Some (VStr (exn_str e))
      | Ok row =>
          In row (records df) /\
          row_get row (str "upa") = Some (VStr nome) /\
          row_get row (str "erro") = None
      end.
Proof.
  intros Hperm Hne.
  assert (exists fut rest, completed = fut :: rest) as (fut & rest & Hcompleted).
  { destruct completed as [| fut rest]; [| eauto].
    apply Permutation_nil in Hperm. congruence. }
  unfold load_all_upas.
  rewrite find_all_false.
  - eexists. split; [reflexivity |]. cbn [records].
    pose proof (sort_values_upa_perm (map (row_of BeautifulSoup) completed)) as Hsort.
    split; [| split; [exact Hsort |]].
    + rewrite (Permutation_length Hsort), length_map, <- (Permutation_length Hperm).
      now rewrite length_map.
    + intros nome target io Hin.
      assert (In (row_of BeautifulSoup (nome, target, io)) (sort_values_upa (map (row_of BeautifulSoup) completed))) as Hrow.
      { apply (Permutation_in _ (Permutation_sym Hsort)). now apply in_map. }
      cbn [row_of] in Hrow.
      destruct (_fetch_one BeautifulSoup io nome target) as [row | e] eqn:Hone.
      * split; [exact Hrow |]. now apply fetch_one_row in Hone.
      * split; [exact Hrow |]. apply error_row_cells.
  - intros c Hc. apply negb_false_iff, bool_decide_eq_true_2, list_elem_of_In.
    apply (frame_columns_incl _ (row_of BeautifulSoup fut)).
    + rewrite Hcompleted. now left.
    + now apply row_of_main.
Qed.

End CoordinatorFacts.

(** With no target at all there is no row and no column, and selecting the
    main columns raises the error of [pandas]. *)
Lemma load_all_upas_empty_registry (BeautifulSoup : text -> result PageElement)
    (not_in_columns : list text -> list text -> exn) :
  load_all_upas BeautifulSoup not_in_columns [] = Raise (not_in_columns MAIN_COLUMNS []).
Proof. reflexivity. Qed.

Lemma load_all_upas_isolates_failures_witness :
  exists df : DataFrame,
    load_all_upas (fun _ => Ok (page [])) (fun _ _ => KeyError []) sample_completed = Ok df /\
    length (records df) = 2%nat.
Proof.
  destruct (load_all_upas_isolates_failures (fun _ => Ok (page [])) (fun _ _ => KeyError [])
              [(str "UPA B", str "http://b"); (str "UPA A", str "http://a")]
              sample_completed) as (df & Hdf & Hlen & _).
  - reflexivity.
  - discriminate.
  - exists df. split; [exact Hdf | exact Hlen].
Defined.

(* ===================================================================== *)
(** * Further properties *)
(* ===================================================================== *)

(** ** The text heuristics *)

Section HeuristicFacts.
Context `{UnicodeData}.

Lemma int_from_nonneg (n : text) (acc : Z) :
  0 <= acc ->
  0 <= fold_left (fun acc c => 10 * acc + Z.of_N (digit_value c)) n acc.
Proof.
  revert acc. induction n as [| c n IH]; intros acc Hacc; cbn [fold_left]; [exact Hacc |].
  apply IH. lia.
Qed.

(** [_extract_int_candidates] returns no negative number: it converts
    runs of digits only, so the lower bound of the plausibility filter
    never rejects anything. *)
Theorem candidates_are_nonnegative (s : text) (cs : list Z) :
  _extract_int_candidates s = Ok cs -> Forall (fun n => 0 <= n) cs.
Proof.
  unfold _extract_int_candidates. intros Hcs. apply ints_Ok in Hcs as ->.
  apply List.Forall_forall. intros n Hn.
  apply in_map_iff in Hn as (tok & <- & _). unfold int_value. now apply int_from_nonneg.
Qed.

(** [_pick_patient_count] goes through its texts in order: without texts
    the result is [None]; otherwise the candidates of every text are
    collected first, so the call raises when the first text or a later one
    has a number [int] refuses, and else the result is that of the first
    text when it has one, and that of the remaining texts when not. *)
Theorem pick_patient_count_by_text :
  _pick_patient_count [] = Ok None /\
  forall (t : text) (rest : list text),
    _pick_patient_count (t :: rest) =
    (first ← _pick_patient_count [t];
     others ← _pick_patient_count rest;
     Ok (match first with
         | Some n => Some n
         | None => others
         end)).
Proof.
  split; [reflexivity |].
  intros t rest. unfold _pick_patient_count. cbn [all_candidates].
  destruct (if nonempty t then _extract_int_candidates t else Ok []) as [cs |];
    cbn [mbind result_bind]; [| reflexivity].
  destruct (all_candidates rest) as [others |]; cbn [mbind result_bind]; [| reflexivity].
  rewrite app_nil_r, List.filter_app.
  destruct (List.filter plausible cs); reflexivity.
Qed.

Lemma startswith_firstn (n : nat) (s : text) : startswith (firstn n s) s = true.
Proof.
  revert n. induction s as [| c s IH]; intros [| n]; cbn; try reflexivity.
  now rewrite N.eqb_refl, IH.
Qed.

Lemma str_in_prefix (m s : text) : startswith m s = true -> str_in m s = true.
Proof. intros Hm. destruct s; cbn [str_in]; now rewrite Hm. Qed.

Lemma str_in_cons (m : text) (c : N) (s : text) :
  str_in m s = true -> str_in m (c :: s) = true.
Proof. intros Hm. cbn [str_in]. rewrite Hm. apply orb_true_r. Qed.

Lemma hms_at_firstn (s : text) :
  hms_at s = true -> hms_at (firstn 8 s) = true /\ length (firstn 8 s) = 8%nat.
Proof.
  destruct s as [| a [| b [| c [| d [| e [| f [| g [| h s]]]]]]]]; try discriminate.
  intros Hat. split; [exact Hat | reflexivity].
Qed.

Lemma search_hms_found (s : text) :
  forall (prev_word : bool) (m : text),
    search_hms prev_word s = Some m ->
    hms_at m = true /\ length m = 8%nat /\ str_in m s = true.
Proof.
  induction s as [| c s IH]; intros prev_word m; [discriminate |].
  cbn [search_hms].
  destruct (negb prev_word && hms_at (c :: s) && word_ends (skipn 8 (c :: s))) eqn:Hhere.
  - intros [= <-].
    apply andb_prop in Hhere as [Hhere _]. apply andb_prop in Hhere as [_ Hat].
    destruct (hms_at_firstn _ Hat) as [Hm Hlen].
    repeat split; [exact Hm | exact Hlen |].
    apply str_in_prefix. exact (startswith_firstn 8 (c :: s)).
  - intros Hm. destruct (IH _ _ Hm) as (Hat & Hlen & Hin).
    repeat split; [exact Hat | exact Hlen | now apply str_in_cons].
Qed.

(** What [_extract_time] returns is a piece of the text of the shape
    HH:MM:SS, eight characters long, or else the word IMEDIATO, and that
    only when the text has no timestamp between word boundaries. *)
Theorem extract_time_shape (s m : text) :
  _extract_time s = Some m ->
  (hms_at m = true /\ length m = 8%nat /\ str_in m s = true) \/
  (m = str "IMEDIATO" /\ search_hms false s = None /\
   str_in (str "IMEDIATO") (_norm s) = true).
Proof.
  unfold _extract_time.
  destruct (search_hms false s) as [m' |] eqn:Hsearch.
  - intros [= <-]. left. now apply search_hms_found in Hsearch.
  - destruct (str_in (str "IMEDIATO") (_norm s)) eqn:Hword; [| discriminate].
    intros [= <-]. right. auto.
Qed.

Lemma date_at_firstn (s : text) :
  date_at s = true -> date_at (firstn 10 s) = true /\ length (firstn 10 s) = 10%nat.
Proof.
  destruct s as [| a [| b [| c [| d [| e [| f [| g [| h [| i [| j s]]]]]]]]]];
    try discriminate.
  intros Hat. split; [exact Hat | reflexivity].
Qed.

Lemma takewhile_all (p : N -> bool) (s : text) : forallb p (takewhile p s) = true.
Proof.
  induction s as [| c s IH]; [reflexivity |].
  cbn [takewhile]. destruct (p c) eqn:Hc; [| reflexivity].
  cbn [forallb]. now rewrite Hc, IH.
Qed.

Lemma search_updated_at_found (s m : text) :
  search_updated_at s = Some m ->
  exists d ws t : text,
    m = d ++ ws ++ t /\
    date_at d = true /\ length d = 10%nat /\
    ws <> [] /\ forallb isspace ws = true /\
    hms_at t = true /\ length t = 8%nat.
Proof.
  induction s as [| c s IH]; cbn [search_updated_at]; unfold updated_at_here.
  - cbn. discriminate.
  - destruct (startswith (str "ATUALIZADO EM") (c :: s)); [| exact IH].
    destruct (nonempty (takewhile isspace (skipn 13 (c :: s)))); [| exact IH].
    unfold stamp_at.
    set (x := dropwhile isspace (skipn 13 (c :: s))).
    destruct (date_at x) eqn:Hdate; [| exact IH].
    destruct (nonempty (takewhile isspace (skipn 10 x))) eqn:Hws; [| exact IH].
    destruct (hms_at (dropwhile isspace (skipn 10 x))) eqn:Hhms; [| exact IH].
    cbn [andb]. intros [= <-].
    destruct (date_at_firstn _ Hdate) as [Hd Hdlen].
    destruct (hms_at_firstn _ Hhms) as [Ht Htlen].
    eexists _, _, _. split; [reflexivity |].
    repeat split; try assumption.
    + intros Hnil. rewrite Hnil in Hws. discriminate.
    + apply takewhile_all.
Qed.

(** [updated_at], when the parser finds one, is a date of the shape
    DD/MM/YYYY, whitespace, and a time of the shape HH:MM:SS. *)
Theorem extract_updated_at_shape (soup : PageElement) (m : text) :
  _extract_updated_at soup = Some m ->
  exists d ws t : text,
    m = d ++ ws ++ t /\
    date_at d = true /\ length d = 10%nat /\
    ws <> [] /\ forallb isspace ws = true /\
    hms_at t = true /\ length t = 8%nat.
Proof. unfold _extract_updated_at. apply search_updated_at_found. Qed.

End HeuristicFacts.

Lemma candidates_are_nonnegative_witness : Forall (fun n => 0 <= n) [7].
Proof. apply (candidates_are_nonnegative (str "-7") [7]). reflexivity. Defined.

Lemma extract_time_shape_witness :
  hms_at (str "00:10:00") = true /\ length (str "00:10:00") = 8%nat /\
  str_in (str "00:10:00") (str "3 00:10:00") = true.
Proof.
  destruct (extract_time_shape (str "3 00:10:00") (str "00:10:00")) as [Hts | Hword].
  - vm_compute. reflexivity.
  - exact Hts.
  - destruct Hword as [Hword _]. vm_compute in Hword. discriminate Hword.
Defined.

Lemma extract_updated_at_shape_witness :
  exists d ws t : text,
    str "05/01/2025 14:30:00" = d ++ ws ++ t /\
    date_at d = true /\ length d = 10%nat /\
    ws <> [] /\ forallb isspace ws = true /\
    hms_at t = true /\ length t = 8%nat.
Proof.
  apply (extract_updated_at_shape
           (page [NavigableString (str "Atualizado em 05/01/2025 14:30:00")])).
  vm_compute. reflexivity.
Defined.

(** ** The two passes of the parser *)

Section PassFacts.
Context `{UnicodeData}.

Lemma lookup_Some_size (slot : gmap text value) (k : text) (v : value) :
  slot !! k = Some v -> size slot <> 0%nat.
Proof.
  intros Hk Hsize. apply map_size_empty_iff in Hsize. subst slot.
  rewrite lookup_empty in Hk. discriminate.
Qed.

(** The slot a node leaves for the colour it names: a key that has a value
    other than [None] keeps it. *)
Lemma visit_slot_keeps (out out' : Metrics) (node : PageElement * text) (c k : text)
    (slot : gmap text value) (v : value) :
  visit out node = Ok out' ->
  classificacoes out !! c = Some slot -> slot !! k = Some v -> is_None v = false ->
  exists slot', classificacoes out' !! c = Some slot' /\ slot' !! k = Some v.
Proof.
  intros Hvisit Hc Hk Hv. destruct node as [el aria_raw]. unfold visit in Hvisit.
  destruct (_pick_patient_count [aria_raw; get_text [SPACE] el]) as [n | e];
    cbn [mbind result_bind] in Hvisit.
  - repeat match type of Hvisit with
           | context [if ?b then Ok (_ _ out) else _] =>
               destruct b; [injection Hvisit as <-; now exists slot |]
           end.
    destruct (find_color _ _) as [color |]; [| injection Hvisit as <-; now exists slot].
    destruct (negb _); injection Hvisit as <-; [now exists slot |].
    cbn [classificacoes set_classificacoes].
    destruct (decide (color = c)) as [-> | Hne];
      [| exists slot; now rewrite lookup_insert_ne].
    rewrite lookup_insert_eq, Hc. cbn [default from_option id].
    rewrite bool_decide_eq_false_2 by (eapply lookup_Some_size; eauto).
    eexists. split; [reflexivity |].
    assert (forall k' v' (s0 : gmap text value),
               s0 !! k = Some v ->
               (if unset s0 k' then <[k' := v']> s0 else s0) !! k = Some v) as Hstep.
    { intros k' v' s0 Hs0. destruct (unset s0 k') eqn:Hunset; [| exact Hs0].
      destruct (decide (k' = k)) as [-> | Hk'].
      - unfold unset, dict_get in Hunset. rewrite Hs0 in Hunset. cbn in Hunset. congruence.
      - now rewrite lookup_insert_ne. }
    destruct n; destruct (time_or _ _);
      repeat apply Hstep; exact Hk.
  - repeat match type of Hvisit with
           | context [if ?b then Raise _ else _] => destruct b; [discriminate |]
           end.
    destruct (find_color _ _); [| injection Hvisit as <-; now exists slot].
    destruct (negb _); [injection Hvisit as <-; now exists slot | discriminate].
Qed.

Lemma visit_keeps_count (out out' : Metrics) (node : PageElement * text) (c : text)
    (v : value) :
  visit out node = Ok out' ->
  count_of c out = Some v -> is_None v = false -> count_of c out' = Some v.
Proof.
  unfold count_of. intros Hvisit Hcount Hv.
  destruct (classificacoes out !! c) as [slot |] eqn:Hc; [| discriminate].
  cbn [mbind option_bind] in Hcount.
  destruct (visit_slot_keeps out out' node c _ slot v Hvisit Hc Hcount Hv)
    as (slot' & -> & Hk).
  exact Hk.
Qed.

Lemma visit_keeps_time (out out' : Metrics) (node : PageElement * text) (c : text)
    (v : value) :
  visit out node = Ok out' ->
  time_of c out = Some v -> is_None v = false -> time_of c out' = Some v.
Proof.
  unfold time_of. intros Hvisit Htime Hv.
  destruct (classificacoes out !! c) as [slot |] eqn:Hc; [| discriminate].
  cbn [mbind option_bind] in Htime.
  destruct (visit_slot_keeps out out' node c _ slot v Hvisit Hc Htime Hv)
    as (slot' & -> & Hk).
  exact Hk.
Qed.

Lemma visits_keep (nodes : list (PageElement * text)) :
  forall (out out' : Metrics) (c : text) (v : value),
    for_each visit nodes out = Ok out' ->
    is_None v = false ->
    (count_of c out = Some v -> count_of c out' = Some v) /\
    (time_of c out = Some v -> time_of c out' = Some v).
Proof.
  induction nodes as [| node nodes IH]; intros out out' c v Hloop Hv.
  - injection Hloop as <-. tauto.
  - cbn [for_each] in Hloop.
    destruct (visit out node) as [out1 |] eqn:Hvisit; [| discriminate].
    cbn [mbind result_bind] in Hloop.
    destruct (IH _ _ c v Hloop Hv) as [Hcount Htime].
    split; intros Hout.
    + apply Hcount. exact (visit_keeps_count _ _ _ _ _ Hvisit Hout Hv).
    + apply Htime. exact (visit_keeps_time _ _ _ _ _ Hvisit Hout Hv).
Qed.

Lemma for_each_app {A S} (body : S -> A -> result S) (l1 l2 : list A) :
  forall out : S,
    for_each body (l1 ++ l2) out = (mid ← for_each body l1 out; for_each body l2 mid).
Proof.
  induction l1 as [| a l1 IH]; intros out; [reflexivity |].
  cbn [app for_each]. destruct (body out a) as [out1 |]; cbn [mbind result_bind];
    [apply IH | reflexivity].
Qed.

Lemma truthy_not_None (v : value) : truthy v = true -> is_None v = false.
Proof. now destruct v. Qed.

(** The fallback for one colour: a count other than [None] and a time
    that counts as true stay as they are, for every colour. *)
Lemma fallback_keeps (big_text big_norm : text) (out out' : Metrics) (c' c : text)
    (v : value) :
  fallback big_text big_norm out c' = Ok out' ->
  (is_None v = false -> count_of c out = Some v -> count_of c out' = Some v) /\
  (truthy v = true -> time_of c out = Some v -> time_of c out' = Some v).
Proof.
  unfold fallback, getitem. intros Hfall.
  destruct (classificacoes out !! c') as [slot |] eqn:Hc'; [| discriminate].
  cbn [mbind result_bind] in Hfall.
  destruct (slot !! str "pacientes") as [p |] eqn:Hp; [| discriminate].
  cbn [mbind result_bind] in Hfall.
  destruct (is_None p) eqn:HpNone; [| injection Hfall as <-; tauto].
  destruct (_ =? -1); [injection Hfall as <-; tauto |].
  destruct (_ || _); [| injection Hfall as <-; tauto].
  destruct (_pick_patient_count _) as [n |]; [| discriminate].
  cbn [mbind result_bind] in Hfall.
  rewrite lookup_insert_ne in Hfall by discriminate.
  destruct (slot !! str "tempo_medio") as [t |] eqn:Ht; [| discriminate].
  cbn [mbind result_bind] in Hfall. injection Hfall as <-.
  unfold count_of, time_of. cbn [classificacoes set_classificacoes].
  destruct (decide (c' = c)) as [-> | Hne].
  - rewrite lookup_insert_eq, Hc'. cbn [mbind option_bind]. rewrite Hp, Ht. split.
    + intros Hv [= ->]. congruence.
    + intros Hv [= ->]. rewrite lookup_insert_eq. unfold value_or. now rewrite Hv.
  - rewrite lookup_insert_ne by exact Hne. tauto.
Qed.

Lemma fallbacks_keep (big_text big_norm : text) (cs : list text) :
  forall (out out' : Metrics) (c : text) (v : value),
    for_each (fallback big_text big_norm) cs out = Ok out' ->
    (is_None v = false -> count_of c out = Some v -> count_of c out' = Some v) /\
    (truthy v = true -> time_of c out = Some v -> time_of c out' = Some v).
Proof.
  induction cs as [| c' cs IH]; intros out out' c v Hloop.
  - injection Hloop as <-. tauto.
  - cbn [for_each] in Hloop.
    destruct (fallback big_text big_norm out c') as [out1 |] eqn:Hfall; [| discriminate].
    cbn [mbind result_bind] in Hloop.
    destruct (fallback_keeps _ _ _ _ _ c v Hfall) as [Hcount1 Htime1].
    destruct (IH _ _ c v Hloop) as [Hcount2 Htime2].
    split; auto.
Qed.

Lemma parse_soup_unfold (soup : PageElement) :
  parse_soup soup =
  (out ← for_each visit (_iter_aria_nodes soup) (initial_out (_extract_updated_at soup));
   for_each (fallback (get_text [SPACE] soup) (_norm (get_text [SPACE] soup))) COLORS out).
Proof. reflexivity. Qed.

(** For the classifications the first value wins.  Once the scan of the
    labelled nodes has given a colour a count, no later node and no
    fallback changes it in the result the parser returns; the same holds
    for a time that is not empty. *)
Theorem classification_first_value_wins
    (soup : PageElement) (nodes1 nodes2 : list (PageElement * text)) (c : text)
    (seen out : Metrics) :
  _iter_aria_nodes soup = nodes1 ++ nodes2 ->
  for_each visit nodes1 (initial_out (_extract_updated_at soup)) = Ok seen ->
  parse_soup soup = Ok out ->
  (forall n : Z, count_of c seen = Some (VInt n) -> count_of c out = Some (VInt n)) /\
  (forall t : text, t <> [] -> time_of c seen = Some (VStr t) ->
                    time_of c out = Some (VStr t)).
Proof.
  intros Hnodes Hseen Hout.
  rewrite parse_soup_unfold, Hnodes, for_each_app, Hseen in Hout.
  cbn [mbind result_bind] in Hout.
  destruct (for_each visit nodes2 seen) as [mid |] eqn:Hmid; [| discriminate].
  cbn [mbind result_bind] in Hout.
  split.
  - intros n Hcount.
    apply (proj1 (fallbacks_keep _ _ _ _ _ c (VInt n) Hout)); [reflexivity |].
    now apply (proj1 (visits_keep _ _ _ c (VInt n) Hmid eq_refl)).
  - intros t Ht Htime.
    assert (truthy (VStr t) = true) as Htrue by now destruct t.
    apply (proj2 (fallbacks_keep _ _ _ _ _ c (VStr t) Hout)); [exact Htrue |].
    now apply (proj2 (visits_keep _ _ _ c (VStr t) Hmid eq_refl)).
Qed.

Lemma visit_scalars (out out' : Metrics) (node : PageElement * text) :
  visit out node = Ok out' ->
  updated_at out' = updated_at out /\
  (mentions (str "PACIENTES NA UNIDADE") node = false ->
   pacientes_unidade out' = pacientes_unidade out) /\
  (mentions (str "AGUARDANDO REGULACAO") node = false ->
   pacientes_regulacao out' = pacientes_regulacao out) /\
  (mentions (str "ATENDIMENTO") node && mentions (str "MEDICO") node = false ->
   pacientes_at_medico out' = pacientes_at_medico out).
Proof.
  destruct node as [el aria_raw]. unfold visit, mentions.
  set (aria := _norm aria_raw). set (txt := _norm (get_text [SPACE] el)).
  set (u := str_in (str "PACIENTES NA UNIDADE") aria
            || str_in (str "PACIENTES NA UNIDADE") txt).
  set (r := str_in (str "AGUARDANDO REGULACAO") aria
            || str_in (str "AGUARDANDO REGULACAO") txt).
  set (a := str_in (str "ATENDIMENTO") aria || str_in (str "ATENDIMENTO") txt).
  set (m := str_in (str "MEDICO") aria || str_in (str "MEDICO") txt).
  destruct (_pick_patient_count _) as [n | e]; cbn [mbind result_bind];
    destruct u, r, a, m; cbn [andb];
    repeat match goal with
           | |- context [if ?b then _ else _] => destruct b
           | |- context [match ?x with Some _ => _ | None => _ end] => destruct x
           end;
    intros Hvisit; try discriminate Hvisit; injection Hvisit as <-;
    repeat split; intros; try discriminate; reflexivity.
Qed.

Lemma fallback_scalars (big_text big_norm : text) (out out' : Metrics) (c : text) :
  fallback big_text big_norm out c = Ok out' ->
  updated_at out' = updated_at out /\
  pacientes_unidade out' = pacientes_unidade out /\
  pacientes_regulacao out' = pacientes_regulacao out /\
  pacientes_at_medico out' = pacientes_at_medico out.
Proof.
  unfold fallback, getitem. intros Hfall.
  destruct (classificacoes out !! c) as [slot |]; [| discriminate].
  cbn [mbind result_bind] in Hfall.
  destruct (slot !! str "pacientes") as [p |]; [| discriminate].
  cbn [mbind result_bind] in Hfall.
  destruct (is_None p); [| injection Hfall as <-; tauto].
  destruct (_ =? -1); [injection Hfall as <-; tauto |].
  destruct (_ || _); [| injection Hfall as <-; tauto].
  destruct (_pick_patient_count _) as [n |]; [| discriminate].
  cbn [mbind result_bind] in Hfall.
  destruct (_ !! str "tempo_medio"); [| discriminate].
  cbn [mbind result_bind] in Hfall. injection Hfall as <-. tauto.
Qed.

Lemma fallbacks_scalars (big_text big_norm : text) (cs : list text) :
  forall out out' : Metrics,
    for_each (fallback big_text big_norm) cs out = Ok out' ->
    updated_at out' = updated_at out /\
    pacientes_unidade out' = pacientes_unidade out /\
    pacientes_regulacao out' = pacientes_regulacao out /\
    pacientes_at_medico out' = pacientes_at_medico out.
Proof.
  induction cs as [| c cs IH]; intros out out' Hloop.
  - injection Hloop as <-. tauto.
  - cbn [for_each] in Hloop.
    destruct (fallback big_text big_norm out c) as [out1 |] eqn:Hfall; [| discriminate].
    cbn [mbind result_bind] in Hloop.
    destruct (fallback_scalars _ _ _ _ _ Hfall) as (G1 & G2 & G3 & G4).
    destruct (IH _ _ Hloop) as (H1 & H2 & H3 & H4).
    repeat split; congruence.
Qed.

Lemma visits_scalars (nodes : list (PageElement * text)) :
  forall out out' : Metrics,
    for_each visit nodes out = Ok out' ->
    updated_at out' = updated_at out /\
    (forallb (fun node => negb (mentions (str "PACIENTES NA UNIDADE") node)) nodes = true ->
     pacientes_unidade out' = pacientes_unidade out) /\
    (forallb (fun node => negb (mentions (str "AGUARDANDO REGULACAO") node)) nodes = true ->
     pacientes_regulacao out' = pacientes_regulacao out) /\
    (forallb (fun node => negb (mentions (str "ATENDIMENTO") node
                                && mentions (str "MEDICO") node)) nodes = true ->
     pacientes_at_medico out' = pacientes_at_medico out).
Proof.
  induction nodes as [| node nodes IH]; intros out out' Hloop.
  - injection Hloop as <-. repeat split; reflexivity.
  - cbn [for_each] in Hloop.
    destruct (visit out node) as [out1 |] eqn:Hvisit; [| discriminate].
    cbn [mbind result_bind] in Hloop. cbn [forallb].
    destruct (IH _ _ Hloop) as (Hup & Hun & Hre & Hme).
    destruct (visit_scalars _ _ _ Hvisit) as (Hup1 & Hun1 & Hre1 & Hme1).
    repeat split.
    + now rewrite Hup.
    + intros Hall. apply andb_prop in Hall as [Hnode Hall].
      rewrite Hun by exact Hall. apply Hun1. now apply negb_true_iff.
    + intros Hall. apply andb_prop in Hall as [Hnode Hall].
      rewrite Hre by exact Hall. apply Hre1. now apply negb_true_iff.
    + intros Hall. apply andb_prop in Hall as [Hnode Hall].
      rewrite Hme by exact Hall. apply Hme1. now apply negb_true_iff.
Qed.

(** A scalar stays [None] unless a labelled node mentions its keyword:
    PACIENTES NA UNIDADE, AGUARDANDO REGULACAO, or both ATENDIMENTO and
    MEDICO.  The fallback pass never sets a scalar, and [updated_at] is
    what [_extract_updated_at] found, whatever the nodes are. *)
Theorem scalars_need_their_keyword (soup : PageElement) (out : Metrics) :
  parse_soup soup = Ok out ->
  updated_at out = _extract_updated_at soup /\
  (forallb (fun node => negb (mentions (str "PACIENTES NA UNIDADE") node))
     (_iter_aria_nodes soup) = true -> pacientes_unidade out = None) /\
  (forallb (fun node => negb (mentions (str "AGUARDANDO REGULACAO") node))
     (_iter_aria_nodes soup) = true -> pacientes_regulacao out = None) /\
  (forallb (fun node => negb (mentions (str "ATENDIMENTO") node
                              && mentions (str "MEDICO") node))
     (_iter_aria_nodes soup) = true -> pacientes_at_medico out = None).
Proof.
  rewrite parse_soup_unfold. intros Hout.
  destruct (for_each visit _ _) as [mid |] eqn:Hmid; [| discriminate].
  cbn [mbind result_bind] in Hout.
  destruct (fallbacks_scalars _ _ _ _ _ Hout) as (-> & -> & -> & ->).
  destruct (visits_scalars _ _ _ Hmid) as (Hup & Hun & Hre & Hme).
  repeat split.
  - exact Hup.
  - intros Hall. now rewrite Hun.
  - intros Hall. now rewrite Hre.
  - intros Hall. now rewrite Hme.
Qed.

(** A page without a labelled node and without text: every field of the
    result is [None], and every colour has its slot with two [None]s. *)
Theorem parse_blank_page (soup : PageElement) :
  _iter_aria_nodes soup = [] -> get_text [SPACE] soup = [] ->
  parse_soup soup = Ok (initial_out None).
Proof.
  intros Hnodes Htext. rewrite parse_soup_unfold. unfold _extract_updated_at.
  rewrite Hnodes, Htext. reflexivity.
Qed.

End PassFacts.

Lemma classification_first_value_wins_witness :
  exists out,
    parse_soup (page [card (str "Classificacao AZUL 3") []; card (str "Classificacao AZUL 9") []])
      = Ok out /\
    count_of (str "AZUL") out = Some (VInt 3).
Proof.
  set (soup := page [card (str "Classificacao AZUL 3") [];
                     card (str "Classificacao AZUL 9") []]).
  set (nodes1 := [(card (str "Classificacao AZUL 3") [], str "Classificacao AZUL 3")]).
  set (nodes2 := [(card (str "Classificacao AZUL 9") [], str "Classificacao AZUL 9")]).
  assert (_iter_aria_nodes soup = nodes1 ++ nodes2) as Hnodes by (vm_compute; reflexivity).
  destruct (parse_soup soup) as [out |] eqn:Hparse;
    [| exfalso; apply (f_equal raised) in Hparse; vm_compute in Hparse;
       discriminate Hparse].
  destruct (for_each visit nodes1 (initial_out (_extract_updated_at soup)))
    as [seen |] eqn:Hseen;
    [| exfalso; apply (f_equal raised) in Hseen; vm_compute in Hseen;
       discriminate Hseen].
  exists out. split; [reflexivity |].
  apply (proj1 (classification_first_value_wins soup nodes1 nodes2 (str "AZUL") seen out
                  Hnodes Hseen Hparse)).
  vm_compute in Hseen. injection Hseen as <-. vm_compute. reflexivity.
Defined.

Lemma scalars_need_their_keyword_witness :
  exists out, parse_soup one_card_soup = Ok out /\ pacientes_regulacao out = None.
Proof.
  destruct (parse_soup one_card_soup) as [out |] eqn:Hparse.
  - exists out. split; [reflexivity |].
    apply (scalars_need_their_keyword one_card_soup out Hparse).
    vm_compute. reflexivity.
  - exfalso. apply (f_equal raised) in Hparse. vm_compute in Hparse. discriminate Hparse.
Defined.

Lemma parse_blank_page_witness :
  parse_soup (page [Tag (str "div") ∅ [NavigableString (str "  ")]]) = Ok (initial_out None).
Proof.
  apply parse_blank_page; vm_compute; reflexivity.
Defined.

(** ** Normalised text *)

Section NormFacts.
Context `{UnicodeData}.

Lemma dropwhile_head (p : N -> bool) (s : text) :
  match head (dropwhile p s) with Some c => p c = false | None => True end.
Proof.
  induction s as [| c s IH]; [exact I |].
  cbn [dropwhile]. destruct (p c) eqn:Hc; [exact IH | exact Hc].
Qed.

Lemma dropwhile_suffix (p : N -> bool) (s : text) :
  exists pre, s = pre ++ dropwhile p s.
Proof.
  induction s as [| c s [pre IH]]; [now exists [] |].
  cbn [dropwhile]. destruct (p c).
  - exists (c :: pre). cbn. now rewrite <- IH.
  - now exists [].
Qed.

(** What is left of a text after its two ends were stripped of the
    characters of [p]: neither end has such a character, and the rest is a
    piece of the text. *)
Lemma stripped_ends (p : N -> bool) (s : text) :
  let t := rev (dropwhile p (rev (dropwhile p s))) in
  match head t with Some c => p c = false | None => True end /\
  match last t with Some c => p c = false | None => True end /\
  (forall c, In c t -> In c s).
Proof.
  cbv zeta.
  destruct (dropwhile_suffix p s) as [pre Hpre].
  destruct (dropwhile_suffix p (rev (dropwhile p s))) as [pre' Hpre'].
  set (a := dropwhile p s) in *. set (b := dropwhile p (rev a)) in *.
  assert (a = rev b ++ rev pre') as Ha.
  { rewrite <- rev_app_distr, <- Hpre'. now rewrite rev_involutive. }
  repeat split.
  - pose proof (dropwhile_head p s) as Hhead. fold a in Hhead.
    rewrite Ha in Hhead. destruct (rev b); [exact I | exact Hhead].
  - pose proof (dropwhile_head p (rev a)) as Hhead. fold b in Hhead.
    destruct b as [| c b']; [exact I |].
    cbn [rev]. rewrite last_snoc. exact Hhead.
  - intros c Hc. rewrite Hpre, Ha. apply in_or_app. right.
    apply in_or_app. now left.
Qed.

Lemma collapse_ws_blank (s : text) :
  forall (in_ws : bool) (c : N),
    In c (collapse_ws in_ws s) -> isspace c = false \/ c = SPACE.
Proof.
  induction s as [| x s IH]; intros in_ws c; [intros [] |].
  cbn [collapse_ws]. destruct (isspace x) eqn:Hx.
  - destruct in_ws; [apply IH |].
    intros [<- | Hc]; [now right | now apply IH in Hc].
  - intros [<- | Hc]; [now left | now apply IH in Hc].
Qed.

(** The text [_norm] returns does not begin and does not end with
    whitespace, and the only whitespace in it is the blank. *)
Theorem norm_whitespace (s : text) :
  match head (_norm s) with Some c => isspace c = false | None => True end /\
  match last (_norm s) with Some c => isspace c = false | None => True end /\
  Forall (fun c => isspace c = false \/ c = SPACE) (_norm s).
Proof.
  unfold _norm. destruct (negb (nonempty s)); [repeat split; constructor |].
  cbv zeta. unfold strip.
  set (u := collapse_ws false _).
  destruct (stripped_ends isspace u) as (Hhead & Hlast & Hin).
  repeat split; [exact Hhead | exact Hlast |].
  apply List.Forall_forall. intros c Hc.
  apply Hin in Hc. subst u. exact (collapse_ws_blank _ false c Hc).
Qed.

End NormFacts.

(** ** More on the cache store *)

(** A [set_cached] that returns leaves the entries of all other keys as
    they were: a later [get_cached] of another key gives what it gave
    before. *)
Theorem set_cached_keeps_other_keys (fs fs' : file) (T now : Q) (k k' : text)
    (v : value) (ttl : Z) :
  set_cached fs T k v = Ok fs' -> k <> k' ->
  get_cached fs' now k' ttl = get_cached fs now k' ttl.
Proof.
  intros Hset Hne. apply set_cached_Ok in Hset as (d & Hload & ->).
  unfold get_cached. rewrite Hload. cbn [load_cache py_get].
  now rewrite lookup_insert_ne.
Qed.

Lemma set_cached_keeps_other_keys_witness :
  get_cached (Holds (VDict (<[str "a" := entry 1 (VInt 1)]> ∅))) 2 (str "b") 120
  = get_cached Missing 2 (str "b") 120.
Proof.
  apply (set_cached_keeps_other_keys Missing _ 1 2 (str "a") (str "b") (VInt 1) 120 eq_refl).
  discriminate.
Defined.

(** The last write wins, and nothing is left of the write before it: two
    [set_cached] of one key leave the file that the second alone leaves. *)
Theorem set_cached_twice (fs fs1 fs2 : file) (T1 T2 : Q) (k : text) (v1 v2 : value) :
  set_cached fs T1 k v1 = Ok fs1 ->
  set_cached fs1 T2 k v2 = Ok fs2 ->
  set_cached fs T2 k v2 = Ok fs2.
Proof.
  intros H1 H2. apply set_cached_Ok in H1 as (d & Hload & ->).
  apply set_cached_Ok in H2 as (d1 & Hload1 & ->).
  cbn [load_cache] in Hload1. injection Hload1 as <-.
  unfold set_cached. rewrite Hload. cbn [py_setitem mbind result_bind save_cache].
  now rewrite insert_insert_eq.
Qed.

Lemma set_cached_twice_witness :
  set_cached Missing 2 (str "a") (VInt 2)
  = Ok (Holds (VDict (<[str "a" := entry 2 (VInt 2)]> (<[str "a" := entry 1 (VInt 1)]> ∅)))).
Proof.
  apply (set_cached_twice Missing _ _ 1 2 (str "a") (VInt 1) (VInt 2) eq_refl eq_refl).
Defined.

(** A hit stays a hit: what [get_cached] returns, if it is not [None], it
    also returns for every larger [ttl] and at every earlier reading of
    the clock. *)
Theorem get_cached_hit_is_monotone (fs : file) (now now' : Q) (k : text)
    (ttl ttl' : Z) (v : value) :
  get_cached fs now k ttl = Ok v -> is_None v = false ->
  ttl <= ttl' -> (now' <= now)%Q ->
  get_cached fs now' k ttl' = Ok v.
Proof.
  unfold get_cached. intros Hget Hv Httl Hnow.
  destruct (py_get (load_cache fs) k VNone) as [item |]; [| discriminate].
  cbn [mbind result_bind] in *.
  destruct (truthy item); cbn [negb] in *;
    [| injection Hget as <-; discriminate].
  destruct (py_get item (str "_ts") (VInt 0)) as [ts |]; [| discriminate].
  cbn [mbind result_bind] in *.
  assert (forall tsq : Q,
             Qle_bool (now - tsq) (inject_Z ttl) = true ->
             Qle_bool (now' - tsq) (inject_Z ttl') = true) as Hage.
  { intros tsq Hle. apply Qle_bool_iff in Hle. apply Qle_bool_iff.
    apply Qle_trans with (now - tsq)%Q.
    - unfold Qminus. apply Qplus_le_compat; [exact Hnow | apply Qle_refl].
    - apply Qle_trans with (inject_Z ttl); [exact Hle |].
      now rewrite <- Zle_Qle. }
  destruct ts as [| b | z | q | s | l | e]; cbn [float_sub mbind result_bind] in *;
    try discriminate;
    try (destruct (Z.abs z <? FLOAT_INT_BOUND); [| discriminate];
         cbn [mbind result_bind] in * );
    match type of Hget with
    | context [Qle_bool ?a ?b] =>
        destruct (Qle_bool a b) eqn:Hle; cbn [negb] in Hget;
          [rewrite (Hage _ Hle); exact Hget | injection Hget as <-; discriminate]
    end.
Qed.

Lemma get_cached_hit_is_monotone_witness :
  get_cached (Holds (VDict (<[str "u" := entry 100 (VInt 7)]> ∅))) 150 (str "u") 300
  = Ok (VInt 7).
Proof.
  apply (get_cached_hit_is_monotone _ 220 150 (str "u") 120 300 (VInt 7)).
  - vm_compute. reflexivity.
  - reflexivity.
  - lia.
  - vm_compute. discriminate.
Defined.

(** *** Writers one after the other *)

Lemma run_app (s1 s2 : list nat) :
  forall (fs : file) (ws : list writer),
    run (s1 ++ s2) fs ws = run s2 (fst (run s1 fs ws)) (snd (run s1 fs ws)).
Proof.
  induction s1 as [| i s1 IH]; intros fs ws; [reflexivity |].
  cbn [app run]. destruct (ws !! i) as [w |]; [| apply IH].
  destruct (writer_step fs w). apply IH.
Qed.

Lemma run_pair (fs : file) (ws : list writer) (i : nat) (now : Q) (k : text)
    (v : value) (d : gmap text value) :
  ws !! i = Some (Ready now k v) -> load_cache fs = VDict d ->
  run [i; i] fs ws = (Holds (VDict (<[k := entry now v]> d)), <[i := Finished]> ws).
Proof.
  intros Hw Hload. cbn [run]. rewrite Hw. cbn [writer_step].
  rewrite Hload. cbn [py_setitem].
  rewrite list_lookup_insert_eq by (eapply lookup_lt_Some; eauto).
  cbn [writer_step save_cache run]. now rewrite list_insert_insert_eq.
Qed.

Lemma run_untouched (schedule : list nat) (i : nat) :
  forall (fs : file) (ws : list writer),
    ~ In i schedule -> snd (run schedule fs ws) !! i = ws !! i.
Proof.
  induction schedule as [| j schedule IH]; intros fs ws Hi; [reflexivity |].
  cbn [run]. destruct (ws !! j) as [w |] eqn:Hw.
  - destruct (writer_step fs w) as [fs' w']. rewrite IH by (intros Hin; apply Hi; now right).
    apply list_lookup_insert_ne. intros ->. apply Hi. now left.
  - apply IH. intros Hin. apply Hi. now right.
Qed.

Lemma in_serial (order : list nat) (i : nat) : In i (serial order) -> In i order.
Proof.
  unfold serial. intros Hin. apply in_flat_map in Hin as (j & Hj & Hij).
  cbn in Hij. destruct Hij as [<- | [<- | []]]; exact Hj.
Qed.

Lemma serial_run (order : list nat) :
  forall (ws0 ws : list writer) (fs : file) (d : gmap text value),
    List.NoDup order ->
    (forall i, In i order -> ws !! i = ws0 !! i) ->
    (forall i, In i order -> exists now k v, ws0 !! i = Some (Ready now k v)) ->
    load_cache fs = VDict d ->
    fst (run (serial order) fs ws) = sets_in_order ws0 order fs /\
    (forall i, In i order -> snd (run (serial order) fs ws) !! i = Some Finished).
Proof.
  induction order as [| i order IH]; intros ws0 ws fs d Hnodup Hsame Hready Hload.
  - cbn. split; [reflexivity | intros i []].
  - apply NoDup_cons_iff in Hnodup as [Hi Hnodup].
    destruct (Hready i (or_introl eq_refl)) as (now & k & v & Hw0).
    assert (ws !! i = Some (Ready now k v)) as Hw.
    { rewrite Hsame by now left. exact Hw0. }
    unfold serial. cbn [flat_map]. change (flat_map _ order) with (serial order).
    rewrite (run_app [i; i]), (run_pair fs ws i now k v d Hw Hload). cbn [fst snd].
    unfold sets_in_order. cbn [fold_left]. rewrite Hw0.
    assert (set_cached fs now k v = Ok (Holds (VDict (<[k := entry now v]> d)))) as ->.
    { unfold set_cached. now rewrite Hload. }
    fold (sets_in_order ws0 order (Holds (VDict (<[k := entry now v]> d)))).
    destruct (IH ws0 (<[i := Finished]> ws) (Holds (VDict (<[k := entry now v]> d)))
                (<[k := entry now v]> d)) as (Hfs & Hdone).
    + exact Hnodup.
    + intros j Hj. rewrite list_lookup_insert_ne by (intros ->; contradiction).
      apply Hsame. now right.
    + intros j Hj. apply Hready. now right.
    + reflexivity.
    + split; [exact Hfs |].
      intros j [<- | Hj]; [| now apply Hdone].
      rewrite run_untouched by (intros Hin; apply in_serial in Hin; contradiction).
      apply list_lookup_insert_eq. eapply lookup_lt_Some; eauto.
Qed.

(** The [set_cached] calls of the writers of [order], made in that order
    on a store that can be read: the entry of a key that one writer only
    writes is that writer's, and a key that no writer writes keeps what it
    had. *)
Lemma sets_in_order_content (ws : list writer) (order : list nat) :
  forall (fs : file) (d : gmap text value),
    List.NoDup order ->
    load_cache fs = VDict d ->
    (forall i, In i order -> exists now k v, ws !! i = Some (Ready now k v)) ->
    exists d' : gmap text value,
      load_cache (sets_in_order ws order fs) = VDict d' /\
      (forall i now k v,
          In i order -> ws !! i = Some (Ready now k v) ->
          (forall j now' v', In j order -> ws !! j = Some (Ready now' k v') -> j = i) ->
          d' !! k = Some (entry now v)) /\
      (forall k,
          (forall i now v, In i order -> ws !! i <> Some (Ready now k v)) ->
          d' !! k = d !! k).
Proof.
  induction order as [| i order IH]; intros fs d Hnodup Hload Hready.
  - exists d. split; [exact Hload |]. split; [intros i now k v [] | reflexivity].
  - apply NoDup_cons_iff in Hnodup as [Hi Hnodup].
    destruct (Hready i (or_introl eq_refl)) as (now & k & v & Hw).
    unfold sets_in_order. cbn [fold_left]. rewrite Hw.
    assert (set_cached fs now k v = Ok (Holds (VDict (<[k := entry now v]> d)))) as ->.
    { unfold set_cached. now rewrite Hload. }
    fold (sets_in_order ws order (Holds (VDict (<[k := entry now v]> d)))).
    destruct (IH (Holds (VDict (<[k := entry now v]> d))) (<[k := entry now v]> d)
                Hnodup eq_refl)
      as (d' & Hd' & Hone & Hnone).
    { intros j Hj. apply Hready. now right. }
    exists d'. split; [exact Hd' |]. split.
    + intros i0 now0 k0 v0 [<- | Hi0] Hw0 Honly.
      * rewrite Hw in Hw0. injection Hw0 as <- <- <-.
        rewrite Hnone; [apply lookup_insert_eq |].
        intros j now' v' Hj Hwj.
        pose proof (Honly j now' v' (or_intror Hj) Hwj) as ->. contradiction.
      * apply (Hone i0 now0 k0 v0 Hi0 Hw0).
        intros j now' v' Hj. apply Honly. now right.
    + intros k0 Hk0.
      rewrite Hnone.
      * apply lookup_insert_ne. intros <-. exact (Hk0 i now v (or_introl eq_refl) Hw).
      * intros j now' v' Hj. apply Hk0. now right.
Qed.

(** Writers that run one after the other lose no update.  When each
    writer is a call of [set_cached] on a store that can be read, and the
    writers take their two steps in turn, the store has in the end the
    entry of every writer whose key no other writer writes, and every key
    that no writer writes has the entry it had. *)
Theorem serial_writers_lose_no_update (order : list nat) (ws : list writer)
    (fs : file) (d : gmap text value) :
  List.NoDup order ->
  (forall i, In i order -> exists now k v, ws !! i = Some (Ready now k v)) ->
  load_cache fs = VDict d ->
  exists d' : gmap text value,
    load_cache (fst (run (serial order) fs ws)) = VDict d' /\
    (forall i now k v,
        In i order -> ws !! i = Some (Ready now k v) ->
        (forall j now' v', In j order -> ws !! j = Some (Ready now' k v') -> j = i) ->
        d' !! k = Some (entry now v)) /\
    (forall k,
        (forall i now v, In i order -> ws !! i <> Some (Ready now k v)) ->
        d' !! k = d !! k).
Proof.
  intros Hnodup Hready Hload.
  rewrite (proj1 (serial_run order ws ws fs d Hnodup (fun _ _ => eq_refl) Hready Hload)).
  now apply sets_in_order_content.
Qed.

Lemma serial_writers_lose_no_update_witness :
  exists d' : gmap text value,
    load_cache (fst (run (serial [1; 0]%nat) Missing
                       [Ready 1 (str "a") (VInt 1); Ready 2 (str "b") (VInt 2)]))
    = VDict d' /\
    d' !! str "a" = Some (entry 1 (VInt 1)).
Proof.
  destruct (serial_writers_lose_no_update [1; 0]%nat
              [Ready 1 (str "a") (VInt 1); Ready 2 (str "b") (VInt 2)] Missing ∅)
    as (d' & Hload & Hone & _).
  - repeat constructor; cbn; intuition discriminate.
  - intros i [<- | [<- | []]]; cbn; eauto.
  - reflexivity.
  - exists d'. split; [exact Hload |].
    apply (Hone 0%nat 1%Q (str "a") (VInt 1)); [right; now left | reflexivity |].
    intros j now' v' [<- | [<- | []]] Hj; [discriminate Hj | reflexivity].
Defined.

(** ** More on the retry loop *)

Section LoopFacts.
Variable server : Z -> reply.
Variable jitter : Z -> Q.
Variable target : text.
Variable backoff_base : Q.

Lemma sleeps_app (l1 l2 : list event) : sleeps (l1 ++ l2) = sleeps l1 ++ sleeps l2.
Proof. unfold sleeps. apply flat_map_app. Qed.

Lemma sleeps_round (log : list event) (attempt : Z) :
  sleeps ((if 1 <? attempt
           then log ++ [Sleep (backoff_delay backoff_base jitter attempt)]
           else log) ++ [Get attempt])
  = sleeps log ++ map (backoff_delay backoff_base jitter)
                    (List.filter (Z.ltb 1) [attempt]).
Proof.
  cbn [List.filter]. destruct (1 <? attempt); rewrite !sleeps_app; cbn;
    now rewrite ?app_nil_r.
Qed.

Lemma attempts_from_S (k m : nat) :
  attempts_from k (S m) = Z.of_nat (S k) :: attempts_from (S k) m.
Proof. reflexivity. Qed.

Lemma not_retried_status (resp : Response) :
  existsb (Z.eqb (resp_status resp)) RETRYABLE = false ->
  raise_for_status resp = None ->
  retried (Replies resp) = false.
Proof.
  unfold retried, raise_for_status. intros -> Hraise. cbn [orb].
  destruct ((400 <=? resp_status resp) && (resp_status resp <? 500)) eqn:H4;
    [discriminate |].
  destruct ((500 <=? resp_status resp) && (resp_status resp <? 600)) eqn:H5;
    [discriminate |].
  lia.
Qed.

(** What [n] rounds of the loop do, whatever the server does: [m] requests
    are sent, with a pause before each but the first attempt; either the
    last of them was answered with a status the loop accepts, or [m = n]
    and the error of the end of the loop is raised. *)
Lemma attempts_outcome (n : nat) :
  forall (k : nat) (st : Z) (ex : option exn) (log : list event),
  exists (m : nat) (res : result FetchResult) (log' : list event),
    attempts server jitter target backoff_base n (Z.of_nat k + 1) st ex log = (res, log') /\
    (m <= n)%nat /\
    gets log' = gets log ++ attempts_from k m /\
    sleeps log' = sleeps log ++ map (backoff_delay backoff_base jitter)
                                  (List.filter (Z.ltb 1) (attempts_from k m)) /\
    match res with
    | Ok r =>
        (0 < m)%nat /\
        exists resp,
          server (Z.of_nat (k + m)) = Replies resp /\
          retried (Replies resp) = false /\
          r = {| url := target; status_code := resp_status resp;
                 html := resp_text resp; via := str "requests";
                 iframe_url := None |}
    | Raise e =>
        m = n /\
        exists st' ex', e = Exn (str "RuntimeError") (failure_message target st' ex')
    end.
Proof.
  induction n as [| n IH]; intros k st ex log.
  - exists 0%nat, (Raise (Exn (str "RuntimeError") (failure_message target st ex))), log.
    cbn [attempts]. unfold attempts_from. cbn. rewrite !app_nil_r. eauto 10.
  - replace (Z.of_nat k + 1) with (Z.of_nat (S k)) by lia.
    cbn [attempts].
    change (backoff_base * inject_Z (2 ^ (Z.of_nat (S k) - 1))
            + jitter (Z.of_nat (S k)) * (2 # 10))%Q
      with (backoff_delay backoff_base jitter (Z.of_nat (S k))).
    set (log1 := (if 1 <? Z.of_nat (S k) then _ else _) ++ [Get (Z.of_nat (S k))]).
    assert (gets log1 = gets log ++ [Z.of_nat (S k)]) as Hgets by apply gets_round.
    assert (sleeps log1 = sleeps log ++ map (backoff_delay backoff_base jitter)
                                          (List.filter (Z.ltb 1) [Z.of_nat (S k)]))
      as Hsleeps by apply sleeps_round.
    assert (forall st1 ex1,
               exists (m : nat) (res : result FetchResult) (log' : list event),
                 attempts server jitter target backoff_base n (Z.of_nat (S k) + 1) st1 ex1 log1
                 = (res, log') /\
                 (m <= S n)%nat /\
                 gets log' = gets log ++ attempts_from k m /\
                 sleeps log' = sleeps log ++ map (backoff_delay backoff_base jitter)
                                               (List.filter (Z.ltb 1) (attempts_from k m)) /\
                 match res with
                 | Ok r =>
                     (0 < m)%nat /\
                     exists resp,
                       server (Z.of_nat (k + m)) = Replies resp /\
                       retried (Replies resp) = false /\
                       r = {| url := target; status_code := resp_status resp;
                              html := resp_text resp; via := str "requests";
                              iframe_url := None |}
                 | Raise e =>
                     m = S n /\
                     exists st' ex',
                       e = Exn (str "RuntimeError") (failure_message target st' ex')
                 end) as Hnext.
    { intros st1 ex1.
      destruct (IH (S k) st1 ex1 log1) as (m & res & log' & Hrun & Hm & Hg & Hs & Hres).
      exists (S m), res, log'. split; [exact Hrun |]. split; [lia |].
      rewrite attempts_from_S. split; [| split].
      - rewrite Hg, Hgets, <- app_assoc. reflexivity.
      - rewrite Hs, Hsleeps, <- app_assoc, <- map_app. f_equal. f_equal.
        cbn [List.filter]. now destruct (1 <? Z.of_nat (S k)).
      - destruct res as [r | e].
        + destruct Hres as (_ & resp & Hserver & Hacc & ->).
          split; [lia |]. exists resp.
          replace (k + S m)%nat with (S k + m)%nat by lia. auto.
        + destruct Hres as (-> & Hmsg). auto. }
    destruct (server (Z.of_nat (S k))) as [resp | e] eqn:Hserver; [| apply Hnext].
    destruct (existsb (Z.eqb (resp_status resp)) RETRYABLE) eqn:Hretry; [apply Hnext |].
    destruct (raise_for_status resp) as [e |] eqn:Hraise; [apply Hnext |].
    eexists 1%nat, _, _. split; [reflexivity |]. split; [lia |].
    split; [exact Hgets |]. split; [exact Hsleeps |].
    split; [lia |]. exists resp.
    replace (k + 1)%nat with (S k) by lia.
    split; [exact Hserver |]. split; [now apply not_retried_status | reflexivity].
Qed.

Lemma filter_above_one (j n : nat) :
  List.filter (Z.ltb 1) (map Z.of_nat (seq (S (S j)) n)) = map Z.of_nat (seq (S (S j)) n).
Proof.
  revert j. induction n as [| n IH]; intros j; [reflexivity |].
  cbn [seq map List.filter].
  replace (1 <? Z.of_nat (S (S j))) with true by (symmetry; apply Z.ltb_lt; lia).
  now rewrite IH.
Qed.

Lemma filter_attempts (m : nat) :
  List.filter (Z.ltb 1) (attempts_from 0 m) = tl (attempts_from 0 m).
Proof.
  destruct m as [| m]; [reflexivity |].
  unfold attempts_from. cbn [seq map List.filter tl].
  replace (1 <? Z.of_nat 1) with false by reflexivity.
  apply filter_above_one.
Qed.

(** Whatever the server does, the loop sends at most [retries] requests,
    and they are the attempts 1, 2, ... in order. *)
Theorem requests_are_bounded (retries : Z) :
  exists m : nat,
    Z.of_nat m <= Z.max 0 retries /\
    gets (snd (fetch_html_requests server jitter target backoff_base retries))
    = attempts_from 0 m.
Proof.
  unfold fetch_html_requests.
  destruct (attempts_outcome (Z.to_nat retries) 0 0 None [])
    as (m & res & log' & Hrun & Hm & Hg & _).
  change (Z.of_nat 0 + 1) with 1 in Hrun. rewrite Hrun.
  exists m. split; [lia | exact Hg].
Qed.

(** The loop pauses exactly once before every request but the first, and
    the pause before the request of attempt [a] is
    [backoff_base * 2 ^ (a - 1)] plus two tenths of [random.random()]. *)
Theorem pauses_follow_the_backoff (retries : Z) :
  let log := snd (fetch_html_requests server jitter target backoff_base retries) in
  sleeps log = map (backoff_delay backoff_base jitter) (tl (gets log)).
Proof.
  cbv zeta. unfold fetch_html_requests.
  destruct (attempts_outcome (Z.to_nat retries) 0 0 None [])
    as (m & res & log' & Hrun & Hm & Hg & Hs & _).
  change (Z.of_nat 0 + 1) with 1 in Hrun. rewrite Hrun. cbn [snd].
  cbn [gets sleeps flat_map app] in Hg, Hs.
  now rewrite Hs, Hg, filter_attempts.
Qed.

(** A [FetchResult] that the loop returns is the answer to the last request
    sent: it carries the address asked for, the mark "requests", and a
    status outside 400 to 599. *)
Theorem returned_result_is_last_response (retries : Z) (r : FetchResult) :
  fst (fetch_html_requests server jitter target backoff_base retries) = Ok r ->
  exists (m : nat) (resp : Response),
    Z.of_nat m <= retries /\
    last (gets (snd (fetch_html_requests server jitter target backoff_base retries)))
      = Some (Z.of_nat m) /\
    server (Z.of_nat m) = Replies resp /\
    ~ (400 <= resp_status resp < 600) /\
    r = {| url := target; status_code := resp_status resp; html := resp_text resp;
           via := str "requests"; iframe_url := None |}.
Proof.
  unfold fetch_html_requests.
  destruct (attempts_outcome (Z.to_nat retries) 0 0 None [])
    as (m & res & log' & Hrun & Hm & Hg & _ & Hres).
  change (Z.of_nat 0 + 1) with 1 in Hrun. rewrite Hrun. cbn [fst snd].
  intros ->. destruct Hres as (Hpos & resp & Hserver & Hacc & ->).
  exists m, resp. split; [lia |]. split; [| split; [exact Hserver |]].
  - rewrite Hg. cbn [gets flat_map app]. unfold attempts_from.
    destruct m as [| m]; [lia |].
    replace (S m) with (m + 1)%nat by lia.
    rewrite seq_app, map_app. cbn [seq map]. rewrite last_snoc. f_equal. lia.
  - split; [| reflexivity].
    unfold retried in Hacc. apply orb_false_elim in Hacc as [_ Hrange]. lia.
Qed.

(** A fetch that raises has seen every attempt fail. *)
Lemma attempts_raise (n : nat) :
  forall (k : nat) (st : Z) (ex : option exn) (log log' : list event) (e : exn),
    attempts server jitter target backoff_base n (Z.of_nat k + 1) st ex log = (Raise e, log') ->
    forall j : nat, (k < j <= k + n)%nat -> retried (server (Z.of_nat j)) = true.
Proof.
  induction n as [| n IH]; intros k st ex log log' e Hrun j Hj; [lia |].
  replace (Z.of_nat k + 1) with (Z.of_nat (S k)) in Hrun by lia.
  cbn [attempts] in Hrun.
  assert (forall st1 ex1 log1,
             attempts server jitter target backoff_base n (Z.of_nat (S k) + 1) st1 ex1 log1
             = (Raise e, log') ->
             j <> S k -> retried (server (Z.of_nat j)) = true) as Hnext.
  { intros st1 ex1 log1 Hrest Hne. apply (IH (S k) _ _ _ _ _ Hrest). lia. }
  destruct (Nat.eq_dec j (S k)) as [-> | Hne].
  - destruct (server (Z.of_nat (S k))) as [resp | e0]; [| reflexivity].
    unfold retried.
    destruct (existsb (Z.eqb (resp_status resp)) RETRYABLE); [reflexivity |].
    cbn [orb]. unfold raise_for_status in Hrun.
    destruct ((400 <=? resp_status resp) && (resp_status resp <? 500)) eqn:H4; [lia |].
    destruct ((500 <=? resp_status resp) && (resp_status resp <? 600)) eqn:H5; [lia |].
    discriminate Hrun.
  - destruct (server (Z.of_nat (S k))) as [resp | e0]; [| now apply Hnext in Hrun].
    destruct (existsb (Z.eqb (resp_status resp)) RETRYABLE); [now apply Hnext in Hrun |].
    destruct (raise_for_status resp); [now apply Hnext in Hrun | discriminate Hrun].
Qed.

(** An error of the loop is raised only when every attempt has failed,
    after one request for each, and it is the [RuntimeError] whose
    message is built from the status of the last response (0 when there
    was none) and from the last exception an attempt left. *)
Theorem error_only_after_all_attempts (retries : Z) (e : exn) :
  fst (fetch_html_requests server jitter target backoff_base retries) = Raise e ->
  (forall j : nat, (0 < j <= Z.to_nat retries)%nat ->
                   retried (server (Z.of_nat j)) = true) /\
  gets (snd (fetch_html_requests server jitter target backoff_base retries))
    = attempts_from 0 (Z.to_nat retries) /\
  e = Exn (str "RuntimeError")
        (failure_message target (last_status_of server (Z.to_nat retries))
           (last_exc_of server (Z.to_nat retries))).
Proof.
  unfold fetch_html_requests. intros Hraise.
  assert (forall j : nat, (0 < j <= 0 + Z.to_nat retries)%nat ->
                          retried (server (Z.of_nat j)) = true) as Hall.
  { destruct (attempts server jitter target backoff_base (Z.to_nat retries) 1 0 None [])
      as [res log'] eqn:Hrun.
    cbn [fst] in Hraise. subst res.
    exact (attempts_raise (Z.to_nat retries) 0 0 None [] log' e Hrun). }
  destruct (attempts_exhausted server jitter target backoff_base (Z.to_nat retries) 0 [] Hall)
    as (log' & Hrun & Hgets).
  change (Z.of_nat 0 + 1) with 1 in Hrun. cbn [last_status_of last_exc_of] in Hrun.
  rewrite Hrun in Hraise |- *. cbn [fst snd] in *.
  split; [exact Hall |]. split; [exact Hgets |].
  now injection Hraise as <-.
Qed.

Lemma last_exc_of_retryable (k : nat) :
  (forall j : nat, (0 < j <= k)%nat ->
     exists resp, server (Z.of_nat j) = Replies resp /\
                  existsb (Z.eqb (resp_status resp)) RETRYABLE = true) ->
  last_exc_of server k = None.
Proof.
  induction k as [| k IH]; intros Hall; [reflexivity |].
  cbn [last_exc_of]. destruct (Hall (S k)) as (resp & -> & Hretry); [lia |].
  cbn [attempt_exc]. rewrite Hretry. apply IH. intros j Hj. apply Hall. lia.
Qed.

(** When every attempt is answered with 429, 502, 503 or 504, the error
    carries the last status and no exception at all. *)
Theorem retryable_statuses_leave_no_exception (k : nat) (resp : Response) :
  (forall j : nat, (0 < j <= k)%nat ->
     exists resp, server (Z.of_nat j) = Replies resp /\
                  existsb (Z.eqb (resp_status resp)) RETRYABLE = true) ->
  server (Z.of_nat k) = Replies resp -> (0 < k)%nat ->
  fst (fetch_html_requests server jitter target backoff_base (Z.of_nat k))
  = Raise (Exn (str "RuntimeError")
             (str "[scraper] Falha ao baixar " ++ target ++ str " (status="
                ++ repr_int (resp_status resp) ++ str ")")).
Proof.
  intros Hall Hlast Hk. unfold fetch_html_requests. rewrite Nat2Z.id.
  destruct (attempts_exhausted server jitter target backoff_base k 0 [])
    as (log' & Hrun & _).
  { intros j Hj. destruct (Hall j) as (resp' & -> & Hretry); [lia |].
    unfold retried. now rewrite Hretry. }
  change (Z.of_nat 0 + 1) with 1 in Hrun. change (0 + k)%nat with k in Hrun.
  cbn [last_status_of last_exc_of] in Hrun. rewrite Hrun. cbn [fst].
  rewrite (last_exc_of_retryable k Hall).
  destruct k as [| k]; [lia |]. cbn [last_status_of]. rewrite Hlast. reflexivity.
Qed.

End LoopFacts.

Lemma returned_result_is_last_response_witness :
  exists (m : nat) (resp : Response),
    Z.of_nat m <= 3 /\
    last (gets (snd (fetch_html_requests not_found_once (fun _ => 0%Q) (str "http://upa")
                       (8 # 10) 3))) = Some (Z.of_nat m) /\
    not_found_once (Z.of_nat m) = Replies resp /\
    ~ (400 <= resp_status resp < 600) /\
    {| url := str "http://upa"; status_code := 200; html := str "<html></html>";
       via := str "requests"; iframe_url := None |}
    = {| url := str "http://upa"; status_code := resp_status resp; html := resp_text resp;
         via := str "requests"; iframe_url := None |}.
Proof.
  apply (returned_result_is_last_response not_found_once (fun _ => 0%Q) (str "http://upa")
           (8 # 10) 3).
  vm_compute. reflexivity.
Defined.

Lemma error_only_after_all_attempts_witness :
  Exn (str "RuntimeError")
    (failure_message (str "http://upa") 404
       (Some (Exn (str "HTTPError")
                (str "404 Client Error: Not Found for url: http://upa"))))
  = Exn (str "RuntimeError")
      (failure_message (str "http://upa") (last_status_of always_not_found (Z.to_nat 3))
         (last_exc_of always_not_found (Z.to_nat 3))).
Proof.
  apply (error_only_after_all_attempts always_not_found (fun _ => 0%Q) (str "http://upa")
           (8 # 10) 3).
  vm_compute. reflexivity.
Defined.

Lemma retryable_statuses_leave_no_exception_witness :
  fst (fetch_html_requests always_unavailable (fun _ => 0%Q) (str "http://upa") (8 # 10)
         (Z.of_nat 3))
  = Raise (Exn (str "RuntimeError")
             (str "[scraper] Falha ao baixar " ++ str "http://upa" ++ str " (status="
                ++ repr_int 503 ++ str ")")).
Proof.
  apply (retryable_statuses_leave_no_exception always_unavailable (fun _ => 0%Q)
           (str "http://upa") (8 # 10) 3
           {| resp_status := 503; resp_reason := str "Service Unavailable";
              resp_url := str "http://upa"; resp_text := [] |}).
  - intros j _. eexists. split; reflexivity.
  - reflexivity.
  - lia.
Defined.

(** ** Helpers of the rendered path *)

Lemma choose_best_src_snoc (srcs : list (option text)) (s : option text) :
  choose_best_src (srcs ++ [s]) = best_src_step (choose_best_src srcs) s.
Proof. unfold choose_best_src. now rewrite fold_left_app. Qed.

(** The address chosen for the third strategy is the first of the longest
    non-empty addresses of the iframes; there is none exactly when no
    iframe has a non-empty address. *)
Theorem best_src_is_first_longest (srcs : list (option text)) :
  match choose_best_src srcs with
  | None => Forall (fun s => s = None \/ s = Some []) srcs
  | Some b =>
      b <> [] /\
      Forall (fun s => (length (default [] s) <= length b)%nat) srcs /\
      exists before after,
        srcs = before ++ Some b :: after /\
        Forall (fun s => (length (default [] s) < length b)%nat) before
  end.
Proof.
  induction srcs as [| s srcs IH] using rev_ind; [constructor |].
  rewrite choose_best_src_snoc.
  assert (forall (P : option text -> Prop) x, P x -> Forall P [x]) as Hone.
  { intros P x Hx. constructor; [exact Hx | constructor]. }
  destruct (choose_best_src srcs) as [b |]; unfold best_src_step.
  - destruct IH as (Hb & Hall & before & after & Hsrcs & Hbefore).
    destruct s as [s' |].
    + destruct (nonempty s' && (length b <? length s')%nat) eqn:Hlonger.
      * apply andb_prop in Hlonger as [Hne Hlt]. apply Nat.ltb_lt in Hlt.
        split; [intros ->; discriminate |]. split.
        -- apply Forall_app. split; [| apply Hone; cbn; lia].
           eapply Forall_impl; [exact Hall |]. cbn beta. intros; lia.
        -- exists srcs, []. split; [reflexivity |].
           eapply Forall_impl; [exact Hall |]. cbn beta. intros; lia.
      * split; [exact Hb |]. split.
        -- apply Forall_app. split; [exact Hall |]. apply Hone. cbn.
           apply andb_false_iff in Hlonger as [Hempty | Hle].
           ++ destruct s'; [cbn; lia | discriminate].
           ++ apply Nat.ltb_ge in Hle. exact Hle.
        -- exists before, (after ++ [Some s']). split; [| exact Hbefore].
           rewrite Hsrcs, <- app_assoc. reflexivity.
    + split; [exact Hb |]. split.
      * apply Forall_app. split; [exact Hall |]. apply Hone. cbn. lia.
      * exists before, (after ++ [None]). split; [| exact Hbefore].
        rewrite Hsrcs, <- app_assoc. reflexivity.
  - destruct s as [s' |].
    + destruct s' as [| c s']; cbn [nonempty andb].
      * apply Forall_app. split; [exact IH |]. apply Hone. now right.
      * split; [discriminate |]. split.
        -- apply Forall_app. split; [| apply Hone; cbn; lia].
           eapply Forall_impl; [exact IH |]. cbn beta.
           intros s [-> | ->]; cbn; lia.
        -- exists srcs, []. split; [reflexivity |].
           eapply Forall_impl; [exact IH |]. cbn beta.
           intros s [-> | ->]; cbn; lia.
    + apply Forall_app. split; [exact IH |]. apply Hone. now left.
Qed.

Lemma startswith_app (m s post : text) :
  startswith m s = true -> startswith m (s ++ post) = true.
Proof.
  revert s. induction m as [| a m IH]; intros s; [reflexivity |].
  destruct s as [| b s]; [discriminate |]. cbn [startswith app].
  intros Hm. apply andb_prop in Hm as [-> Hm]. now rewrite IH.
Qed.

Lemma str_in_app_r (m s post : text) :
  str_in m s = true -> str_in m (s ++ post) = true.
Proof.
  induction s as [| c s IH].
  - cbn [str_in]. rewrite orb_false_r. intros Hm. destruct m; [| discriminate].
    destruct post; reflexivity.
  - cbn [str_in]. intros Hm. apply orb_prop in Hm as [Hm | Hm].
    + apply str_in_prefix. now apply startswith_app.
    + change ((c :: s) ++ post) with (c :: (s ++ post)).
      apply str_in_cons. now apply IH.
Qed.

Lemma str_in_app_l (m pre s : text) :
  str_in m s = true -> str_in m (pre ++ s) = true.
Proof.
  intros Hm. induction pre as [| c pre IH]; [exact Hm |].
  cbn [app str_in]. rewrite IH. apply orb_true_r.
Qed.

(** The test for a rendered report looks for its markers anywhere: markup
    that passes it still passes with anything before and after it, and
    empty markup does not pass. *)
Theorem rendered_markup_stays_rendered (before html_lower after : text) :
  _is_powerbi_rendered [] = false /\
  (_is_powerbi_rendered html_lower = true ->
   _is_powerbi_rendered (before ++ html_lower ++ after) = true).
Proof.
  split; [reflexivity |].
  unfold _is_powerbi_rendered. intros Hin.
  apply existsb_exists in Hin as (m & Hm & Hin).
  apply existsb_exists. exists m. split; [exact Hm |].
  now apply str_in_app_l, str_in_app_r.
Qed.

Lemma rendered_markup_stays_rendered_witness :
  _is_powerbi_rendered (str "<html>" ++ str "<div class='visual-container'>" ++ str "</html>")
  = true.
Proof.
  apply (rendered_markup_stays_rendered (str "<html>") (str "<div class='visual-container'>")
           (str "</html>")).
  vm_compute. reflexivity.
Defined.

Section RenderedFacts.
Context `{UnicodeData}.

(** [_get_iframe_src] returns no empty address and no address with
    whitespace at an end; it is the stripped [src], or, when that is empty,
    the stripped [data-src]. *)
Theorem iframe_src_is_stripped (attrs : gmap text text) :
  match _get_iframe_src attrs with
  | None =>
      strip (default [] (attrs !! str "src")) = [] /\
      strip (default [] (attrs !! str "data-src")) = []
  | Some s =>
      s <> [] /\
      match head s with Some c => isspace c = false | None => True end /\
      match last s with Some c => isspace c = false | None => True end /\
      (s = strip (default [] (attrs !! str "src")) \/
       strip (default [] (attrs !! str "src")) = [] /\
       s = strip (default [] (attrs !! str "data-src")))
  end.
Proof.
  unfold _get_iframe_src.
  set (src := strip (default [] (attrs !! str "src"))).
  set (dsrc := strip (default [] (attrs !! str "data-src"))).
  assert (forall x : text,
             match head (strip x) with Some c => isspace c = false | None => True end /\
             match last (strip x) with Some c => isspace c = false | None => True end)
    as Hends.
  { intros x. destruct (stripped_ends isspace x) as (Hh & Hl & _). split; assumption. }
  destruct src as [| c src'] eqn:Hsrc; cbn [nonempty].
  - destruct dsrc as [| c dsrc'] eqn:Hdsrc; cbn [nonempty]; [split; reflexivity |].
    split; [discriminate |].
    destruct (Hends (default [] (attrs !! str "data-src"))) as [Hh Hl].
    fold dsrc in Hh, Hl. rewrite Hdsrc in Hh, Hl. repeat split; auto.
  - split; [discriminate |].
    destruct (Hends (default [] (attrs !! str "src"))) as [Hh Hl].
    fold src in Hh, Hl. rewrite Hsrc in Hh, Hl. repeat split; auto.
Qed.

Variable server : Z -> reply.
Variable jitter : Z -> Q.
Variable selenium : result FetchResult.

(** [fetch_html] in the mode "auto": at most two requests are sent,
    whatever [retries] is; a failure of the requests never shows, for the
    outcome is that of the rendered path unless the page fetched passes
    the test for a rendered report, and then it is that page. *)
Theorem auto_mode_falls_back (target mode : text) (retries : Z) :
  lower (strip (if nonempty mode then mode else str "powerbi")) = str "auto" ->
  let run := fetch_html server jitter selenium target mode retries in
  (exists m : nat, (m <= 2)%nat /\ gets (snd run) = attempts_from 0 m) /\
  (fst run = selenium \/
   exists r, fst run = Ok r /\ via r = str "requests" /\
             _is_powerbi_rendered (lower (html r)) = true).
Proof.
  intros Hmode. cbv zeta. unfold fetch_html. rewrite Hmode.
  rewrite bool_decide_eq_false_2 by discriminate.
  rewrite bool_decide_eq_true_2 by reflexivity.
  unfold fetch_html_requests.
  destruct (attempts_outcome server jitter target (8 # 10) (Z.to_nat 2) 0 0 None [])
    as (m & res & log' & Hrun & Hm & Hg & _ & Hres).
  change (Z.of_nat 0 + 1) with 1 in Hrun. rewrite Hrun.
  assert (exists m0 : nat, (m0 <= 2)%nat /\ gets log' = attempts_from 0 m0) as Hbound.
  { exists m. split; [exact Hm | exact Hg]. }
  destruct res as [r | e]; [| split; [exact Hbound | now left]].
  destruct (_is_powerbi_rendered (lower (html r))) eqn:Hrendered;
    (split; [exact Hbound |]); [| now left].
  right. exists r. split; [reflexivity |].
  destruct Hres as (_ & resp & _ & _ & ->). split; [reflexivity | exact Hrendered].
Qed.

End RenderedFacts.

Lemma auto_mode_falls_back_witness :
  fst (fetch_html always_not_found (fun _ => 0%Q)
         (Raise (Exn (str "RuntimeError") (str "selenium")))
         (str "http://upa") (str " Auto ") 3)
  = Raise (Exn (str "RuntimeError") (str "selenium")).
Proof.
  destruct (auto_mode_falls_back always_not_found (fun _ => 0%Q)
              (Raise (Exn (str "RuntimeError") (str "selenium")))
              (str "http://upa") (str " Auto ") 3) as (_ & [Hfall | (r & Hr & _)]).
  - vm_compute. reflexivity.
  - exact Hfall.
  - vm_compute in Hr. discriminate Hr.
Defined.

(** ** File names *)

Lemma squeeze_chars (keep : N -> bool) (s : text) :
  forall (in_run : bool) (c : N),
    In c (squeeze keep in_run s) -> keep c = true \/ c = UNDERSCORE.
Proof.
  induction s as [| x s IH]; intros in_run c; [intros [] |].
  cbn [squeeze]. destruct (keep x) eqn:Hx.
  - intros [<- | Hc]; [now left | now apply IH in Hc].
  - destruct in_run; [apply IH |].
    intros [<- | Hc]; [now right | now apply IH in Hc].
Qed.

Lemma in_firstn_in (n : nat) (s : text) (c : N) : In c (firstn n s) -> In c s.
Proof.
  intros Hc. rewrite <- (firstn_skipn n s). apply in_or_app. now left.
Qed.

Section FileNameFacts.
Context `{UnicodeData}.

(** A slug consists of the letters a to z, the digits and underscores, and
    neither begins nor ends with an underscore. *)
Theorem slug_is_a_clean_name (s : text) :
  Forall (fun c => slug_char c = true \/ c = UNDERSCORE) (slug s) /\
  head (slug s) <> Some UNDERSCORE /\
  last (slug s) <> Some UNDERSCORE.
Proof.
  unfold slug, strip_underscores. cbv zeta.
  set (u := squeeze slug_char false (lower s)).
  destruct (stripped_ends (N.eqb UNDERSCORE) u) as (Hhead & Hlast & Hin).
  cbv zeta in Hhead, Hlast, Hin.
  split; [| split].
  - apply List.Forall_forall. intros c Hc. apply Hin in Hc. subst u.
    exact (squeeze_chars _ _ false c Hc).
  - destruct (head _) as [c |]; [| discriminate].
    intros [= ->]. now rewrite N.eqb_refl in Hhead.
  - destruct (last _) as [c |]; [| discriminate].
    intros [= ->]. now rewrite N.eqb_refl in Hlast.
Qed.

(** The name of a debug file is never empty, has at most 90 characters,
    and has only letters, digits, underscores and hyphens, or is "page". *)
Theorem safe_tag_is_a_file_name (tag : text) :
  safe_tag tag <> [] /\
  (length (safe_tag tag) <= 90)%nat /\
  (safe_tag tag = str "page" \/
   Forall (fun c => isalnum c || (c =? UNDERSCORE)%N || (c =? 45)%N = true)
     (safe_tag tag)).
Proof.
  unfold safe_tag. cbv zeta.
  set (t := firstn 90 _).
  destruct (nonempty t) eqn:Hne.
  - split; [intros Ht; rewrite Ht in Hne; discriminate |].
    split; [subst t; apply firstn_le_length |].
    right. subst t. apply List.Forall_forall. intros c Hc.
    apply in_firstn_in in Hc. now apply filter_In in Hc as [_ Hc].
  - split; [discriminate |]. split; [cbn; lia | now left].
Qed.

End FileNameFacts.

(** ** More on the coordinator *)

Lemma text_leb_total (a : text) : forall b : text, text_leb a b = true \/ text_leb b a = true.
Proof.
  induction a as [| x a IH]; intros [| y b]; cbn [text_leb]; auto.
  destruct (N.ltb_spec x y) as [Hxy | Hxy]; [now left |].
  destruct (N.ltb_spec y x) as [Hyx | Hyx]; [now right |].
  assert (x = y) as -> by lia. rewrite N.eqb_refl. cbn [orb andb]. apply IH.
Qed.

Lemma text_leb_trans (a : text) :
  forall b c : text, text_leb a b = true -> text_leb b c = true -> text_leb a c = true.
Proof.
  induction a as [| x a IH]; intros [| y b] [| z c]; cbn [text_leb]; try easy.
  intros Hab Hbc.
  destruct (N.ltb_spec x y) as [Hxy | Hxy]; destruct (N.ltb_spec y z) as [Hyz | Hyz];
    cbn [orb] in *.
  - replace (x <? z)%N with true by (symmetry; apply N.ltb_lt; lia). reflexivity.
  - apply andb_prop in Hbc as [Heq Hbc]. apply N.eqb_eq in Heq. subst z.
    replace (x <? y)%N with true by (symmetry; apply N.ltb_lt; lia). reflexivity.
  - apply andb_prop in Hab as [Heq Hab]. apply N.eqb_eq in Heq. subst y.
    replace (x <? z)%N with true by (symmetry; apply N.ltb_lt; lia). reflexivity.
  - apply andb_prop in Hab as [Heq Hab]. apply N.eqb_eq in Heq. subst y.
    apply andb_prop in Hbc as [Heq Hbc]. apply N.eqb_eq in Heq. subst z.
    rewrite N.eqb_refl, (IH _ _ Hab Hbc). apply orb_true_r.
Qed.

Lemma insert_row_sorted (r : Row) (sorted : list Row) :
  StronglySorted upa_le sorted -> StronglySorted upa_le (insert_row r sorted).
Proof.
  induction sorted as [| x rest IH]; intros Hsorted; cbn [insert_row].
  - repeat constructor.
  - apply StronglySorted_inv in Hsorted as [Hrest Hx].
    destruct (text_leb (upa_of r) (upa_of x)) eqn:Hrx.
    + constructor; [now constructor |].
      constructor; [exact Hrx |].
      eapply Forall_impl; [exact Hx |]. cbn beta. intros y Hxy.
      unfold upa_le in *. now apply text_leb_trans with (upa_of x).
    + constructor; [now apply IH |].
      apply (Permutation_Forall (Permutation_sym (insert_row_perm r rest))).
      constructor; [| exact Hx].
      unfold upa_le. destruct (text_leb_total (upa_of x) (upa_of r)); congruence.
Qed.

Lemma sort_values_upa_sorted (rows : list Row) :
  StronglySorted upa_le (sort_values_upa rows).
Proof.
  induction rows as [| r rows IH]; cbn [sort_values_upa fold_right]; [constructor |].
  now apply insert_row_sorted.
Qed.

Lemma frame_columns_acc_inv (rows : list Row) :
  forall (acc : list text) (k : text),
    In k (fold_left
            (fun cols r =>
               cols ++ List.filter (fun k => negb (bool_decide (k ∈ cols))) (map fst r))
            rows acc) ->
    In k acc \/ exists r, In r rows /\ In k (map fst r).
Proof.
  induction rows as [| r rows IH]; intros acc k Hk; cbn [fold_left] in Hk; [now left |].
  apply IH in Hk as [Hk | (r' & Hr' & Hk)].
  - apply in_app_or in Hk as [Hk | Hk]; [now left |].
    apply filter_In in Hk as [Hk _]. right. exists r. split; [now left | exact Hk].
  - right. exists r'. split; [now right | exact Hk].
Qed.

Lemma row_get_Some_key (r : Row) (k : text) (v : value) :
  row_get r k = Some v -> In k (map fst r).
Proof.
  unfold row_get. destruct (List.find _ r) as [[k' v'] |] eqn:Hfind; [| discriminate].
  intros _. apply find_some in Hfind as [Hin Hk].
  apply bool_decide_eq_true_1 in Hk. cbn [fst] in Hk. subst k'.
  apply in_map_iff. exists (k, v'). auto.
Qed.

Lemma row_get_key (r : Row) (k : text) :
  In k (map fst r) -> exists v, row_get r k = Some v.
Proof.
  intros Hk. unfold row_get.
  destruct (List.find (fun kv => bool_decide (fst kv = k)) r) as [[k' v'] |] eqn:Hfind;
    [cbn; eauto |].
  exfalso. apply in_map_iff in Hk as ([k' v'] & Hfst & Hin). cbn [fst] in Hfst. subst k'.
  pose proof (find_none _ _ Hfind _ Hin) as Hno. cbn [fst] in Hno.
  now rewrite bool_decide_eq_true_2 in Hno.
Qed.

(** [k] has the ending [suffix]. *)
Lemma ends_with (x suffix : text) :
  skipn (length (x ++ suffix) - length suffix) (x ++ suffix) = suffix.
Proof.
  rewrite length_app. replace (length x + length suffix - length suffix)%nat
    with (length x + 0)%nat by lia.
  now rewrite skipn_app, Nat.add_0_r, skipn_all, Nat.sub_diag.
Qed.

Section FrameFacts.
Context `{UnicodeData}.
Variable BeautifulSoup : text -> result PageElement.
Variable not_in_columns : forall labels columns : list text, exn.

(** The frame [load_all_upas] returns is laid out as the source says: the
    rows are in the order of their names, and the five main columns come
    first, followed by the columns that are not main columns. *)
Theorem frame_is_sorted_with_main_columns_first
    (completed : list (text * text * calls)) (df : DataFrame) :
  load_all_upas BeautifulSoup not_in_columns completed = Ok df ->
  StronglySorted upa_le (records df) /\
  exists rest,
    columns df = MAIN_COLUMNS ++ rest /\
    Forall (fun c => ~ In c MAIN_COLUMNS) rest.
Proof.
  unfold load_all_upas. destruct (List.find _ MAIN_COLUMNS); [discriminate |].
  intros [= <-]. cbn [records columns]. split; [apply sort_values_upa_sorted |].
  eexists. split; [reflexivity |].
  apply List.Forall_forall. intros c Hc. apply filter_In in Hc as [_ Hc].
  apply negb_true_iff, bool_decide_eq_false_1 in Hc.
  intros Hin. apply Hc. now apply list_elem_of_In.
Qed.

(** The frame has the column [erro] exactly when the worker of some target
    raised: the test the page makes before it warns about failures. *)
Theorem erro_column_iff_some_failure
    (completed : list (text * text * calls)) (df : DataFrame) :
  load_all_upas BeautifulSoup not_in_columns completed = Ok df ->
  (In (str "erro") (columns df) <->
   Exists (fun fut => let '(nome, target, io) := fut in
                      raised (_fetch_one BeautifulSoup io nome target) = true)
     completed).
Proof.
  unfold load_all_upas. destruct (List.find _ MAIN_COLUMNS); [discriminate |].
  intros [= <-]. cbn [columns].
  set (rest := List.filter _ _).
  change (In (str "erro") (MAIN_COLUMNS ++ rest) <->
          Exists (fun fut => let '(nome, target, io) := fut in
                             raised (_fetch_one BeautifulSoup io nome target) = true)
            completed).
  subst rest. rewrite in_app_iff, filter_In.
  assert (~ In (str "erro") MAIN_COLUMNS) as Hmain.
  { cbn. intuition discriminate. }
  assert (negb (bool_decide (str "erro" ∈ MAIN_COLUMNS)) = true) as Hnot.
  { apply negb_true_iff, bool_decide_eq_false_2. now rewrite list_elem_of_In. }
  rewrite List.Exists_exists. split.
  - intros [Hin | [Hin _]]; [contradiction |].
    apply frame_columns_acc_inv in Hin as [[] | (r & Hr & Hk)].
    apply in_map_iff in Hr as ([[nome target] io] & <- & Hfut).
    exists (nome, target, io). split; [exact Hfut |].
    unfold row_of in Hk.
    destruct (_fetch_one BeautifulSoup io nome target) as [row |] eqn:Hone; [| reflexivity].
    exfalso. apply row_get_key in Hk as [v Hv].
    apply fetch_one_row in Hone as [_ Herro]. congruence.
  - intros ([[nome target] io] & Hfut & Hraised). right. split; [| exact Hnot].
    apply (frame_columns_incl _ (row_of BeautifulSoup (nome, target, io))).
    + now apply in_map.
    + unfold row_of.
      destruct (_fetch_one BeautifulSoup io nome target); [discriminate |].
      cbn. intuition.
Qed.

(** The keys the loop over the colours sets end in [_pacientes] or in
    [_tempo_medio]; the cell of every other key is left as it was. *)
Lemma fill_colors_other_cells (classifs : value) (cores : list text) (k : text) :
  (forall x : text, k <> x ++ str "_pacientes") ->
  (forall x : text, k <> x ++ str "_tempo_medio") ->
  forall row row' : Row,
    fill_colors classifs cores row = Ok row' -> row_get row' k = row_get row k.
Proof.
  intros Hp Ht. induction cores as [| cor cores IH]; intros row row' Hfill.
  - now injection Hfill as <-.
  - cbn [fill_colors] in Hfill.
    destruct (py_get classifs cor (VDict ∅)) as [info |]; [| discriminate].
    cbn [mbind result_bind] in Hfill.
    destruct (py_get (value_or info (VDict ∅)) (str "pacientes") VNone) as [p |];
      [| discriminate].
    cbn [mbind result_bind] in Hfill.
    destruct (py_get (value_or info (VDict ∅)) (str "tempo_medio") VNone) as [t |];
      [| discriminate].
    cbn [mbind result_bind] in Hfill.
    rewrite (IH _ _ Hfill), !row_get_row_set_ne; [reflexivity | |]; intros Heq;
      [apply (Hp (lower cor)) | apply (Ht (lower cor))]; now symmetry.
Qed.

Lemma fill_colors_total (d : gmap text (gmap text value)) (cores : list text) :
  forall row : Row, exists row', fill_colors (VDict (VDict <$> d)) cores row = Ok row'.
Proof.
  induction cores as [| cor cores IH]; intros row; [now exists row |].
  cbn [fill_colors py_get]. rewrite lookup_fmap.
  destruct (d !! cor) as [slot |]; cbn [fmap option_fmap option_map default from_option id
                                         mbind result_bind];
    unfold value_or; cbn [truthy];
    destruct (negb (bool_decide (size _ = 0%nat))); cbn [py_get mbind result_bind];
    apply IH.
Qed.

Ltac not_a_colour_key :=
  intros x Heq;
  match type of Heq with
  | ?k = x ++ ?suffix =>
      pose proof (ends_with x suffix) as Hend; rewrite <- Heq in Hend;
      vm_compute in Hend; discriminate Hend
  end.

Lemma flatten_metrics (upa_nome target : text) (m : Metrics) :
  exists row : Row,
    _flatten_row upa_nome target (metrics_value m) = Ok row /\
    row_get row (str "upa") = Some (VStr upa_nome) /\
    row_get row (str "url") = Some (VStr target) /\
    row_get row (str "updated_at") = Some (of_str (updated_at m)) /\
    row_get row (str "pacientes_unidade") = Some (of_int (pacientes_unidade m)) /\
    row_get row (str "pacientes_regulacao") = Some (of_int (pacientes_regulacao m)) /\
    row_get row (str "pacientes_at_medico") = Some (of_int (pacientes_at_medico m)) /\
    row_get row (str "erro") = None.
Proof.
  unfold _flatten_row, metrics_value. cbn [py_get].
  repeat (rewrite ?lookup_insert_eq; rewrite ?lookup_insert_ne by discriminate).
  cbn [default from_option id mbind result_bind].
  set (row0 := [(str "upa", _); _; _; _; _; _]).
  assert (exists d : gmap text (gmap text value),
             value_or (VDict (VDict <$> classificacoes m)) (VDict ∅) = VDict (VDict <$> d))
    as [d ->].
  { unfold value_or. destruct (truthy _); [now exists (classificacoes m) |].
    exists ∅. now rewrite fmap_empty. }
  destruct (fill_colors_total d
              [str "AZUL"; str "VERDE"; str "AMARELO"; str "LARANJA"; str "VERMELHO"] row0)
    as [row Hrow].
  exists row. split; [exact Hrow |].
  assert (forall k : text,
             (forall x : text, k <> x ++ str "_pacientes") ->
             (forall x : text, k <> x ++ str "_tempo_medio") ->
             row_get row k = row_get row0 k) as Hcell.
  { intros k Hp Ht. exact (fill_colors_other_cells _ _ k Hp Ht _ _ Hrow). }
  repeat split; (rewrite Hcell; [reflexivity | not_a_colour_key | not_a_colour_key]).
Qed.

(** What the parser returns can always be flattened: [_flatten_row] raises
    nothing on it, and the row has the name and the address of the target,
    the four scalar fields of the result, and no [erro]. *)
Theorem parsed_result_flattens (upa_nome target : text) (m : Metrics) :
  exists row : Row,
    _flatten_row upa_nome target (metrics_value m) = Ok row /\
    row_get row (str "upa") = Some (VStr upa_nome) /\
    row_get row (str "url") = Some (VStr target) /\
    row_get row (str "updated_at") = Some (of_str (updated_at m)) /\
    row_get row (str "pacientes_unidade") = Some (of_int (pacientes_unidade m)) /\
    row_get row (str "pacientes_regulacao") = Some (of_int (pacientes_regulacao m)) /\
    row_get row (str "pacientes_at_medico") = Some (of_int (pacientes_at_medico m)) /\
    row_get row (str "erro") = None.
Proof. exact (flatten_metrics upa_nome target m). Qed.

(** A worker that misses the cache, fetches a page and stores the result
    returns a row, provided the HTML parser builds a tree for the page and
    no text of the tree has a run of more than 4300 digits: then the
    parser returns, [_flatten_row] raises nothing, and the row carries the
    target's name, the parser's count and no [erro]. *)
Theorem missed_cache_path_returns_a_row (io : calls) (nome target : text)
    (cached : value) (res : FetchResult) (soup : PageElement) :
  cached_call io = Ok cached -> truthy cached = false ->
  fetch_call io = Ok res ->
  BeautifulSoup (html res) = Ok soup -> digits_fit soup ->
  store_call io = Ok tt ->
  exists (parsed : Metrics) (row : Row),
    parse_upa_dashboard BeautifulSoup (html res) = Ok parsed /\
    _fetch_one BeautifulSoup io nome target = Ok row /\
    row_get row (str "upa") = Some (VStr nome) /\
    row_get row (str "pacientes_unidade") = Some (of_int (pacientes_unidade parsed)) /\
    row_get row (str "erro") = None.
Proof.
  intros Hcached Hfalse Hfetch Hsoup Hfit Hstore. unfold _fetch_one.
  rewrite Hcached. cbn [mbind result_bind]. rewrite Hfalse, Hfetch.
  cbn [mbind result_bind]. unfold parse_upa_dashboard. rewrite Hsoup.
  cbn [mbind result_bind].
  destruct (proj2 (parse_soup_outcome soup) Hfit) as [parsed ->].
  cbn [mbind result_bind]. rewrite Hstore. cbn [mbind result_bind].
  destruct (flatten_metrics nome target parsed)
    as (row & Hrow & Hupa & _ & _ & Hcount & _ & _ & Herro).
  exists parsed, row. auto.
Qed.

End FrameFacts.

Lemma frame_is_sorted_with_main_columns_first_witness :
  exists df : DataFrame,
    load_all_upas (fun _ => Ok (page [])) (fun _ _ => KeyError []) sample_completed = Ok df /\
    StronglySorted upa_le (records df).
Proof.
  destruct (load_all_upas (fun _ => Ok (page [])) (fun _ _ => KeyError []) sample_completed) as [df |] eqn:Hload.
  - exists df. split; [reflexivity |].
    apply (frame_is_sorted_with_main_columns_first (fun _ => Ok (page [])) (fun _ _ => KeyError [])
             sample_completed df Hload).
  - exfalso. apply (f_equal raised) in Hload. vm_compute in Hload. discriminate Hload.
Defined.

Lemma erro_column_iff_some_failure_witness :
  exists df : DataFrame,
    load_all_upas (fun _ => Ok (page [])) (fun _ _ => KeyError []) sample_completed = Ok df /\
    In (str "erro") (columns df).
Proof.
  destruct (load_all_upas (fun _ => Ok (page [])) (fun _ _ => KeyError []) sample_completed) as [df |] eqn:Hload.
  - exists df. split; [reflexivity |].
    apply (erro_column_iff_some_failure (fun _ => Ok (page [])) (fun _ _ => KeyError [])
             sample_completed df Hload).
    apply Exists_cons_hd. vm_compute. reflexivity.
  - exfalso. apply (f_equal raised) in Hload. vm_compute in Hload. discriminate Hload.
Defined.

Lemma missed_cache_path_returns_a_row_witness :
  exists (parsed : Metrics) (row : Row),
    parse_upa_dashboard (fun _ => Ok two_cards_soup) two_cards_html = Ok parsed /\
    _fetch_one (fun _ => Ok two_cards_soup)
      {| cached_call := Ok VNone;
         fetch_call := Ok {| url := str "http://a"; status_code := 200;
                             html := two_cards_html; via := str "selenium-main";
                             iframe_url := None |};
         store_call := Ok tt |} (str "UPA A") (str "http://a") = Ok row /\
    row_get row (str "upa") = Some (VStr (str "UPA A")) /\
    row_get row (str "pacientes_unidade") = Some (of_int (pacientes_unidade parsed)) /\
    row_get row (str "erro") = None.
Proof.
  apply (missed_cache_path_returns_a_row (fun _ => Ok two_cards_soup)
           {| cached_call := Ok VNone;
              fetch_call := Ok {| url := str "http://a"; status_code := 200;
                                  html := two_cards_html; via := str "selenium-main";
                                  iframe_url := None |};
              store_call := Ok tt |} (str "UPA A") (str "http://a") VNone
           {| url := str "http://a"; status_code := 200;
              html := two_cards_html; via := str "selenium-main";
              iframe_url := None |} two_cards_soup); try reflexivity.
  split; [| vm_compute; reflexivity].
  repeat constructor.
Defined.

(** ** The rendered path *)

Section SeleniumFacts.
Context `{UnicodeData}.

(** A frame that the loop over the iframes passes: its attributes can be
    read, and its probe fails or gives markup that is not rendered. *)
Definition passed_over (f : frame) : Prop :=
  (exists attrs, src_read f = Ok attrs) /\
  match probe f with
  | Ok html_in => _is_powerbi_rendered (lower html_in) = false
  | Raise _ => True
  end.

Lemma probe_frames_passed (target : text) (frames : list frame) :
  forall last_exc : option exn,
    Forall passed_over frames ->
    probe_frames target frames last_exc = (None, last_probe_error frames last_exc).
Proof.
  induction frames as [| f frames IH]; intros last_exc Hall; [reflexivity |].
  apply Forall_cons_1 in Hall as [[[attrs Hattrs] Hprobe] Hall].
  cbn [probe_frames last_probe_error]. rewrite Hattrs.
  destruct (probe f) as [html_in | e]; [rewrite Hprobe |]; now apply IH.
Qed.

Lemma probe_frames_app (target : text) (before after : list frame) :
  forall last_exc : option exn,
    Forall passed_over before ->
    probe_frames target (before ++ after) last_exc
    = probe_frames target after (last_probe_error before last_exc).
Proof.
  induction before as [| f before IH]; intros last_exc Hall; [reflexivity |].
  apply Forall_cons_1 in Hall as [[[attrs Hattrs] Hprobe] Hall].
  cbn [app probe_frames last_probe_error]. rewrite Hattrs.
  destruct (probe f) as [html_in | e]; [rewrite Hprobe |]; now apply IH.
Qed.

Lemma probe_frames_returns (target : text) (frames : list frame) :
  forall (last_exc last_exc' : option exn) (r : FetchResult),
    probe_frames target frames last_exc = (Some (Returns r), last_exc') ->
    url r = target /\ status_code r = 200 /\ via r = str "selenium-iframe" /\
    _is_powerbi_rendered (lower (html r)) = true.
Proof.
  induction frames as [| f frames IH]; intros last_exc last_exc' r; [discriminate |].
  cbn [probe_frames]. destruct (src_read f) as [attrs | e]; [| discriminate].
  destruct (probe f) as [html_in | e]; [| apply IH].
  destruct (_is_powerbi_rendered (lower html_in)) eqn:Hrendered; [| apply IH].
  intros [= <- _]. cbn. auto.
Qed.

(** What [fetch_html_selenium_powerbi] returns has status 200 and the
    address asked for, and the driver was quit.  It is the top document,
    which passed the test for a rendered report before the wait; or the
    markup of a frame, which passes the test; or the markup found at the
    best address, which was not empty. *)
Theorem rendered_result_shape (s : session) (target : text) (r : FetchResult) :
  fst (fetch_html_selenium_powerbi s target) = Ok r ->
  url r = target /\ status_code r = 200 /\
  snd (fetch_html_selenium_powerbi s target) = true /\
  ((via r = str "selenium-main" /\ iframe_url r = None /\
    exists first, main_source s = Ok first /\
                  _is_powerbi_rendered (lower first) = true) \/
   (via r = str "selenium-iframe" /\
    (_is_powerbi_rendered (lower (html r)) = true \/
     exists best_src, iframe_url r = Some best_src /\ best_src <> [] /\
                      direct s = Ok (html r)))).
Proof.
  unfold fetch_html_selenium_powerbi, selenium_body.
  destruct (driver_made s); [| discriminate].
  destruct (opened s); [| discriminate].
  destruct (main_source s) as [first |]; [| discriminate].
  destruct (_is_powerbi_rendered (lower first)) eqn:Hmain.
  - destruct (main_source_after_wait s) as [main_html |]; [| discriminate].
    cbn [fst snd]. intros [= <-]. cbn. repeat split. left. eauto.
  - destruct (iframes s) as [frames |]; [| discriminate].
    destruct (probe_frames target frames None) as [[ending |] last_exc] eqn:Hprobe.
    + destruct ending as [r' | last e]; [| discriminate].
      cbn [fst snd]. intros [= <-].
      destruct (probe_frames_returns _ _ _ _ _ Hprobe) as (Hu & Hs & Hv & Hr).
      repeat split; auto.
    + destruct (best_src_loop frames None) as [[best_src |] |]; try discriminate.
      destruct (nonempty best_src) eqn:Hne; [| discriminate].
      destruct (direct s) as [html2 |]; [| discriminate].
      cbn [fst snd]. intros [= <-]. cbn. repeat split. right. split; [reflexivity |].
      right. exists best_src. repeat split. intros ->. discriminate.
Qed.

(** The first frame with a rendered report wins: when the frames before it
    were passed over, its markup is returned with its address, whatever the
    frames after it and the best address would have given. *)
Theorem first_rendered_frame_wins (s : session) (target : text)
    (before after : list frame) (f : frame) (first html_in : text)
    (attrs : gmap text text) :
  driver_made s = Ok tt -> opened s = Ok tt ->
  main_source s = Ok first -> _is_powerbi_rendered (lower first) = false ->
  iframes s = Ok (before ++ f :: after) ->
  Forall passed_over before ->
  src_read f = Ok attrs -> probe f = Ok html_in ->
  _is_powerbi_rendered (lower html_in) = true ->
  fetch_html_selenium_powerbi s target =
  (Ok {| url := target; status_code := 200; html := html_in;
         via := str "selenium-iframe"; iframe_url := _get_iframe_src attrs |}, true).
Proof.
  intros Hdriver Hopened Hmain Hnot Hframes Hbefore Hattrs Hprobe Hrendered.
  unfold fetch_html_selenium_powerbi, selenium_body.
  rewrite Hdriver, Hopened, Hmain, Hnot, Hframes.
  rewrite (probe_frames_app target before (f :: after) None Hbefore).
  cbn [probe_frames]. now rewrite Hattrs, Hprobe, Hrendered.
Qed.

Lemma best_src_loop_none (frames : list frame) :
  Forall (fun f => exists attrs, src_read_again f = Ok attrs /\
                                 _get_iframe_src attrs = None) frames ->
  best_src_loop frames None = Ok None.
Proof.
  induction frames as [| f frames IH]; intros Hall; [reflexivity |].
  apply Forall_cons_1 in Hall as [(attrs & Hattrs & Hsrc) Hall].
  cbn [best_src_loop]. rewrite Hattrs. cbn [mbind result_bind]. rewrite Hsrc.
  now apply IH.
Qed.

(** The error of a failed probe hides the error that ends the run.  When
    every frame was passed over, a probe raised, and no frame has a usable
    address, the error names the exception of the last failed probe and
    not the missing address. *)
Theorem probe_error_is_the_one_reported (s : session) (target : text)
    (frames : list frame) (first : text) (cause : exn) :
  driver_made s = Ok tt -> opened s = Ok tt ->
  main_source s = Ok first -> _is_powerbi_rendered (lower first) = false ->
  iframes s = Ok frames ->
  Forall passed_over frames ->
  last_probe_error frames None = Some cause ->
  Forall (fun f => exists attrs, src_read_again f = Ok attrs /\
                                 _get_iframe_src attrs = None) frames ->
  fetch_html_selenium_powerbi s target = (Raise (selenium_failure target cause), true).
Proof.
  intros Hdriver Hopened Hmain Hnot Hframes Hpassed Hcause Hsrc.
  unfold fetch_html_selenium_powerbi, selenium_body.
  rewrite Hdriver, Hopened, Hmain, Hnot, Hframes.
  rewrite (probe_frames_passed target frames None Hpassed), Hcause.
  now rewrite (best_src_loop_none frames Hsrc).
Qed.

End SeleniumFacts.

Lemma rendered_result_shape_witness :
  url {| url := str "http://upa"; status_code := 200;
         html := str "<div class='visual-container'>12</div>";
         via := str "selenium-iframe";
         iframe_url := Some (str "https://app.powerbi.com/view?r=1") |} = str "http://upa".
Proof.
  apply (rendered_result_shape (frames_session [timed_out_frame; rendered_frame])
           (str "http://upa")).
  vm_compute. reflexivity.
Defined.

Lemma first_rendered_frame_wins_witness :
  fetch_html_selenium_powerbi (frames_session [timed_out_frame; rendered_frame; timed_out_frame])
    (str "http://upa") =
  (Ok {| url := str "http://upa"; status_code := 200;
         html := str "<div class='visual-container'>12</div>";
         via := str "selenium-iframe";
         iframe_url := _get_iframe_src (<[str "src" := str " https://app.powerbi.com/view?r=1 "]> ∅) |},
   true).
Proof.
  apply (first_rendered_frame_wins
           (frames_session [timed_out_frame; rendered_frame; timed_out_frame])
           (str "http://upa") [timed_out_frame] [timed_out_frame] rendered_frame
           (str "<html><iframe></iframe></html>")
           (str "<div class='visual-container'>12</div>")
           (<[str "src" := str " https://app.powerbi.com/view?r=1 "]> ∅));
    try reflexivity.
  constructor; [| constructor]. split; [now exists ∅ | exact I].
Defined.

Lemma probe_error_is_the_one_reported_witness :
  fetch_html_selenium_powerbi (frames_session [timed_out_frame]) (str "http://upa") =
  (Raise (selenium_failure (str "http://upa")
            (Exn (str "TimeoutException") (str "Message: "))), true).
Proof.
  apply (probe_error_is_the_one_reported (frames_session [timed_out_frame])
           (str "http://upa") [timed_out_frame] (str "<html><iframe></iframe></html>")
           (Exn (str "TimeoutException") (str "Message: "))); try reflexivity.
  - constructor; [| constructor]. split; [now exists ∅ | exact I].
  - constructor; [| constructor]. exists ∅. split; reflexivity.
Defined.
